(** * SparkSubmitHook: a shallow embedding of
    [airflow/providers/apache/spark/hooks/spark_submit.py]

    The hook wraps the [spark-submit] binary: it resolves a connection,
    builds the command line, launches it, scans the log for identifiers,
    polls the driver status and offers a cancellation path.  The Python
    object is modelled as a record threaded through the methods; every
    call that leaves the process (connection lookup, child processes, the
    file system, the Kubernetes client) takes its outcome from an explicit
    argument.

    Strings are byte strings: the model covers ASCII text. *)

From Stdlib Require Import ZArith String Ascii List Bool Lia.
From stdpp Require Import base option gmap strings.
Import ListNotations.

Local Open Scope string_scope.
Local Open Scope Z_scope.

(** ** Python string operations used by the hook *)

Module PyStr.

(** [str.isspace] on one ASCII character: TAB..CR, FS..US and the blank.
    [str.strip()] and the regular-expression class [\s] share it. *)
Definition is_space (c : ascii) : bool :=
  let n := nat_of_ascii c in
  ((9 <=? n) && (n <=? 13) || (28 <=? n) && (n <=? 32))%nat.

Definition is_digit (c : ascii) : bool :=
  let n := nat_of_ascii c in ((48 <=? n) && (n <=? 57))%nat.

Definition is_lower (c : ascii) : bool :=
  let n := nat_of_ascii c in ((97 <=? n) && (n <=? 122))%nat.

Definition is_upper (c : ascii) : bool :=
  let n := nat_of_ascii c in ((65 <=? n) && (n <=? 90))%nat.

(** [str.lower] on one ASCII character. *)
Definition lower (c : ascii) : ascii :=
  if is_upper c then ascii_of_nat (nat_of_ascii c + 32) else c.

Definition chr_eqb (c d : ascii) : bool := Ascii.eqb c d.

(** The double quote, as a character and as a string, and a text between
    double quotes. *)
Definition dquote : ascii := "034"%char.
Definition dq : string := String dquote EmptyString.
Definition quoted (s : string) : string := dq +:+ s +:+ dq.

(** [len(s)] *)
Definition len (s : string) : nat := String.length s.

(** [s.lstrip()] *)
Fixpoint lstrip (s : string) : string :=
  match s with
  | String c s' => if is_space c then lstrip s' else s
  | EmptyString => EmptyString
  end.

(** [s.rstrip()] *)
Fixpoint rstrip (s : string) : string :=
  match s with
  | String c s' =>
      match rstrip s' with
      | EmptyString => if is_space c then EmptyString else String c EmptyString
      | t => String c t
      end
  | EmptyString => EmptyString
  end.

(** [s.strip()] *)
Definition strip (s : string) : string := rstrip (lstrip s).

(** [s.startswith(p)]: on success the text after the prefix. *)
Fixpoint strip_prefix (p s : string) : option string :=
  match p with
  | EmptyString => Some s
  | String a p' =>
      match s with
      | String b s' => if chr_eqb a b then strip_prefix p' s' else None
      | EmptyString => None
      end
  end.

Definition startswith (p s : string) : bool :=
  match strip_prefix p s with Some _ => true | None => false end.

(** [sub in s] *)
Fixpoint contains (sub s : string) : bool :=
  if startswith sub s then true
  else match s with
       | String _ s' => contains sub s'
       | EmptyString => false
       end.

(** [s.endswith(p)] *)
Fixpoint endswith (p s : string) : bool :=
  if String.eqb p s then true
  else match s with
       | String _ s' => endswith p s'
       | EmptyString => false
       end.

(** [sep.join(parts)] *)
Fixpoint join (sep : string) (parts : list string) : string :=
  match parts with
  | [] => EmptyString
  | [x] => x
  | x :: rest => x +:+ sep +:+ join sep rest
  end.

(** The characters of a string, as Python iterates over a [str]. *)
Fixpoint chars (s : string) : list string :=
  match s with
  | EmptyString => []
  | String c s' => String c EmptyString :: chars s'
  end.

(** [s.split(sep)] for a non-empty separator: the pieces between the
    non-overlapping occurrences of [sep], scanned from the left.  [acc]
    holds the current piece. *)
Fixpoint split_aux (fuel : nat) (sep : string) (acc : string) (s : string)
  : list string :=
  match fuel with
  | O => [acc +:+ s]
  | S fuel' =>
      match strip_prefix sep s with
      | Some rest => acc :: split_aux fuel' sep EmptyString rest
      | None =>
          match s with
          | String c s' => split_aux fuel' sep (acc +:+ String c EmptyString) s'
          | EmptyString => [acc]
          end
      end
  end.

Definition split (sep s : string) : list string :=
  split_aux (S (String.length s)) sep EmptyString s.

(** [s.split()]: the maximal runs of non-blank characters.  [acc] holds
    the current run. *)
Fixpoint split_ws_aux (acc : string) (s : string) : list string :=
  match s with
  | EmptyString => match acc with EmptyString => [] | _ => [acc] end
  | String c s' =>
      if is_space c then
        match acc with
        | EmptyString => split_ws_aux EmptyString s'
        | _ => acc :: split_ws_aux EmptyString s'
        end
      else split_ws_aux (acc +:+ String c EmptyString) s'
  end.

Definition split_ws (s : string) : list string := split_ws_aux EmptyString s.

(** [s.replace(old, "")] for a one-character [old]. *)
Fixpoint remove_chr (old : ascii) (s : string) : string :=
  match s with
  | EmptyString => EmptyString
  | String c s' =>
      if chr_eqb old c then remove_chr old s' else String c (remove_chr old s')
  end.

(** [s.replace(old, new)] for a non-empty [old]. *)
Fixpoint replace_aux (fuel : nat) (old new s : string) : string :=
  match fuel with
  | O => s
  | S fuel' =>
      match strip_prefix old s with
      | Some rest => new +:+ replace_aux fuel' old new rest
      | None =>
          match s with
          | String c s' => String c (replace_aux fuel' old new s')
          | EmptyString => EmptyString
          end
      end
  end.

Definition replace (old new s : string) : string :=
  replace_aux (S (String.length s)) old new s.

(** [int(s)] on a run of ASCII digits. *)
Fixpoint int_of_digits (acc : Z) (s : string) : Z :=
  match s with
  | EmptyString => acc
  | String c s' => int_of_digits (10 * acc + (Z.of_nat (nat_of_ascii c) - 48)) s'
  end.

(** [str(n)] for an integer. *)
Definition digit_chr (d : Z) : ascii := ascii_of_nat (Z.to_nat (d + 48)).

Fixpoint str_of_pos_aux (fuel : nat) (n : Z) (acc : string) : string :=
  match fuel with
  | O => acc
  | S fuel' =>
      if n <? 10 then String (digit_chr n) acc
      else str_of_pos_aux fuel' (n / 10) (String (digit_chr (n mod 10)) acc)
  end.

Definition str_of_Z (n : Z) : string :=
  if n <? 0 then String "-"%char (str_of_pos_aux (Z.to_nat (Z.log2 (- n)) + 1) (- n) EmptyString)
  else str_of_pos_aux (Z.to_nat (Z.log2 n) + 1) n EmptyString.

(** Truthiness of [str | None]: a non-empty string. *)
Definition truthy (o : option string) : bool :=
  match o with
  | Some EmptyString => false
  | Some _ => true
  | None => false
  end.

End PyStr.

(** ** Regular expressions: a backtracking matcher for [re.search] and [re.sub]

    The patterns of the hook are transcribed as syntax trees and run by one
    matcher that follows Python's backtracking order: alternatives left to
    right, greedy repetition longest first, lazy repetition shortest
    first, groups captured on the way, the leftmost start position wins. *)

Module Re.

Inductive re : Type :=
| Eps                                   (* the empty pattern *)
| Lit (c : ascii)                       (* a literal character *)
| Cls (p : ascii -> bool)               (* a character class *)
| Seq (r1 r2 : re)                      (* r1 r2 *)
| Alt (r1 r2 : re)                      (* r1|r2 *)
| Star (greedy : bool) (r : re)         (* r* and r*? *)
| Grp (n : nat) (r : re)                (* capturing group number n *)
| Bref (n : nat)                        (* backreference \n *)
| NLook (r : re)                        (* negative lookahead (?!r) *)
| Eol.                                  (* $ on a line without newline *)

(** Derived forms. *)
Definition Plus (greedy : bool) (r : re) : re := Seq r (Star greedy r).
Definition Opt (r : re) : re := Alt r Eps.

Fixpoint Str (s : string) : re :=
  match s with
  | EmptyString => Eps
  | String c EmptyString => Lit c
  | String c s' => Seq (Lit c) (Str s')
  end.

(** Captured groups, most recent binding first. *)
Definition env : Type := list (nat * string).

Fixpoint get (n : nat) (g : env) : option string :=
  match g with
  | [] => None
  | (k, v) :: g' => if Nat.eqb k n then Some v else get n g'
  end.

(** The text between two positions of one string, both given as the
    remaining suffix. *)
Definition consumed (s s' : string) : string :=
  String.substring 0 (String.length s - String.length s') s.

(** Character comparison, under [re.IGNORECASE] when [ic] is set. *)
Definition chr_match (ic : bool) (c d : ascii) : bool :=
  if ic then Ascii.eqb (PyStr.lower c) (PyStr.lower d) else Ascii.eqb c d.

Fixpoint prefix_match (ic : bool) (p s : string) : option string :=
  match p with
  | EmptyString => Some s
  | String a p' =>
      match s with
      | String b s' => if chr_match ic a b then prefix_match ic p' s' else None
      | EmptyString => None
      end
  end.

Definition cont : Type := string -> env -> option (string * env).

Definition orelse {A} (x : option A) (y : option A) : option A :=
  match x with Some v => Some v | None => y end.

(** The repetition of a pattern whose matcher is [body]: an iteration has
    to consume a character; a greedy repetition tries one more iteration
    before it gives way to the continuation, a lazy one after. *)
Fixpoint star_loop (greedy : bool) (body : string -> env -> cont -> option (string * env))
  (k : cont) (fuel : nat) (s : string) (g : env) {struct fuel}
  : option (string * env) :=
  match fuel with
  | O => k s g
  | S fuel' =>
      let again :=
        body s g
          (fun s' g' =>
             if (String.length s' <? String.length s)%nat
             then star_loop greedy body k fuel' s' g' else None) in
      if greedy then orelse again (k s g) else orelse (k s g) again
  end.

(** [m ic r s g k]: match [r] at the head of [s] with groups [g], then
    continue with [k]; [None] makes the matcher backtrack. *)
Fixpoint m (ic : bool) (r : re) (s : string) (g : env) (k : cont)
  {struct r} : option (string * env) :=
  match r with
  | Eps => k s g
  | Lit c =>
      match s with
      | String x s' => if chr_match ic c x then k s' g else None
      | EmptyString => None
      end
  | Cls p =>
      match s with
      | String x s' => if p x then k s' g else None
      | EmptyString => None
      end
  | Seq r1 r2 => m ic r1 s g (fun s' g' => m ic r2 s' g' k)
  | Alt r1 r2 => orelse (m ic r1 s g k) (m ic r2 s g k)
  | Star greedy r1 => star_loop greedy (m ic r1) k (String.length s) s g
  | Grp n r1 => m ic r1 s g (fun s' g' => k s' ((n, consumed s s') :: g'))
  | Bref n =>
      match get n g with
      | Some t =>
          match prefix_match ic t s with
          | Some s' => k s' g
          | None => None
          end
      | None => None
      end
  | NLook r1 =>
      match m ic r1 s g (fun s' g' => Some (s', g')) with
      | Some _ => None
      | None => k s g
      end
  | Eol =>
      match s with
      | EmptyString => k s g
      | String _ _ => None
      end
  end.

(** A match object: the text before the match, [group(0)], the groups
    and the text after the match. *)
Record mobj : Type := MObj {
  m_pre : string;
  m_whole : string;
  m_groups : env;
  m_post : string
}.

(** [m.group(n)] *)
Definition group (mo : mobj) (n : nat) : option string :=
  match n with
  | O => Some (m_whole mo)
  | _ => get n (m_groups mo)
  end.

Definition match_here (ic : bool) (r : re) (s : string) : option mobj :=
  match m ic r s [] (fun s' g' => Some (s', g')) with
  | Some (s', g') => Some (MObj EmptyString (consumed s s') g' s')
  | None => None
  end.

Definition shift (c : ascii) (mo : mobj) : mobj :=
  MObj (String c (m_pre mo)) (m_whole mo) (m_groups mo) (m_post mo).

(** [re.search(r, s)]: the match at the leftmost start position. *)
Fixpoint search (ic : bool) (r : re) (s : string) : option mobj :=
  match match_here ic r s with
  | Some mo => Some mo
  | None =>
      match s with
      | String c s' => option_map (shift c) (search ic r s')
      | EmptyString => None
      end
  end.

(** [re.sub(r, repl, s)]: every non-overlapping match, from the left, is
    replaced by [repl] applied to its match object.  After an empty match
    the scan moves one character on. *)
Fixpoint sub_aux (fuel : nat) (ic : bool) (r : re) (repl : mobj -> string)
  (s : string) : string :=
  match fuel with
  | O => s
  | S fuel' =>
      match search ic r s with
      | None => s
      | Some mo =>
          m_pre mo +:+ repl mo +:+
          match m_whole mo, m_post mo with
          | EmptyString, String c rest => String c (sub_aux fuel' ic r repl rest)
          | EmptyString, EmptyString => EmptyString
          | _, rest => sub_aux fuel' ic r repl rest
          end
      end
  end.

Definition sub (ic : bool) (r : re) (repl : mobj -> string) (s : string)
  : string :=
  sub_aux (S (String.length s)) ic r repl s.

(** Patterns that cannot match the empty string. *)
Fixpoint consuming (r : re) : bool :=
  match r with
  | Lit _ | Cls _ => true
  | Seq r1 r2 => consuming r1 || consuming r2
  | Alt r1 r2 => consuming r1 && consuming r2
  | Grp _ r1 => consuming r1
  | _ => false
  end.

(** Character classes. *)
Definition space : ascii -> bool := PyStr.is_space.            (* \s *)
Definition nonspace (c : ascii) : bool := negb (PyStr.is_space c).  (* \S *)
Definition digit : ascii -> bool := PyStr.is_digit.            (* \d *)
Definition dot (c : ascii) : bool := negb (Ascii.eqb c "010"%char).  (* . *)
Definition one_of (cs : string) (c : ascii) : bool :=
  existsb (Ascii.eqb c) (list_ascii_of_string cs).
Definition lower_or_digit (c : ascii) : bool :=
  PyStr.is_lower c || PyStr.is_digit c.                        (* [a-z0-9] *)

End Re.

(** ** Exceptions and outcomes *)

(** The exception classes the hook raises or lets through. *)
Inductive exn : Type :=
| AirflowException (msg : string)
| RuntimeError (msg : string)
| OSError (msg : string)       (* a child process or file that cannot be opened *)
| IndexError
| ApiException                 (* kube_client.ApiException *)
| OtherException (msg : string).

(** The outcome of a call: a value, a raised exception, or [Pending] when
    the poll loop is still running after the supplied poll outcomes. *)
Inductive outcome (A : Type) : Type :=
| Ok (a : A)
| Raise (e : exn)
| Pending.

Arguments Ok {A} a.
Arguments Raise {A} e.
Arguments Pending {A}.

Definition raises {A} (o : outcome A) : bool :=
  match o with Raise _ => true | _ => false end.

Definition raises_airflow {A} (o : outcome A) : bool :=
  match o with Raise (AirflowException _) => true | _ => false end.

Definition returns {A} (o : outcome A) : bool :=
  match o with Ok _ => true | _ => false end.

(** ** base64.b64decode

    The library routine behind [base64.b64decode(s)] in its default,
    non-strict mode: characters outside the alphabet are skipped, a run of
    padding that completes a quad ends the input, and leftover sextets are
    an error.  [None] stands for the raised exception. *)

Module Base64.

Definition sextet (c : ascii) : option N :=
  let n := N_of_ascii c in
  (if (65 <=? n) && (n <=? 90) then Some (n - 65)
   else if (97 <=? n) && (n <=? 122) then Some (n - 97 + 26)
   else if (48 <=? n) && (n <=? 57) then Some (n - 48 + 52)
   else if n =? 43 then Some 62
   else if n =? 47 then Some 63
   else None)%N.

Definition byte_of (n : N) : ascii := ascii_of_N (n mod 256)%N.

(** The decoding loop: [quad_pos] counts the sextets of the current quad,
    [leftchar] holds the bits not yet written, [pads] the padding
    characters seen since the last sextet. *)
Fixpoint a2b (s : string) (quad_pos : nat) (leftchar : N) (pads : nat)
  : option string :=
  match s with
  | EmptyString =>
      match quad_pos with O => Some EmptyString | _ => None end
  | String c s' =>
      if Ascii.eqb c "="%char then
        if ((2 <=? quad_pos) && (4 <=? quad_pos + S pads))%nat
        then Some EmptyString
        else a2b s' quad_pos leftchar
               (if (2 <=? quad_pos)%nat then S pads else pads)
      else
        match sextet c with
        | None => a2b s' quad_pos leftchar pads
        | Some v =>
            match quad_pos with
            | 0%nat => a2b s' 1%nat v 0%nat
            | 1%nat =>
                option_map (String (byte_of (N.lor (N.shiftl leftchar 2) (N.shiftr v 4))))
                  (a2b s' 2%nat (N.land v 15) 0%nat)
            | 2%nat =>
                option_map (String (byte_of (N.lor (N.shiftl leftchar 4) (N.shiftr v 2))))
                  (a2b s' 3%nat (N.land v 3) 0%nat)
            | _ =>
                option_map (String (byte_of (N.lor (N.shiftl leftchar 6) v)))
                  (a2b s' 0%nat 0%N 0%nat)
            end
        end
  end.

Definition is_ascii (c : ascii) : bool := (N_of_ascii c <? 128)%N.

(** [base64.b64decode(s)] for a [str] argument: non-ASCII text is refused
    before decoding. *)
Definition b64decode (s : string) : option string :=
  if forallb is_ascii (list_ascii_of_string s) then a2b s 0 0 0 else None.

End Base64.

(** ** The hook *)

Module Spark.

Import PyStr.

Definition DEFAULT_SPARK_BINARY : string := "spark-submit".
Definition ALLOWED_SPARK_BINARIES : list string :=
  [DEFAULT_SPARK_BINARY; "spark2-submit"; "spark3-submit"].

(** [x in ALLOWED_SPARK_BINARIES] *)
Definition allowed_binary (x : string) : bool :=
  existsb (String.eqb x) ALLOWED_SPARK_BINARIES.

(** *** Data model *)

(** The connection record returned by [get_connection]: host, port and
    the decoded JSON extras, whose values are strings or [null]. *)
Record Connection : Type := {
  host : string;
  port : option Z;
  extra_dejson : gmap string (option string)
}.

(** [extra.get(key)]: a missing key and a [null] value both read [None]. *)
Definition extra_get (extra : gmap string (option string)) (key : string)
  : option string :=
  match extra !! key with
  | Some v => v
  | None => None
  end.

(** [extra.get(key, default)] *)
Definition extra_get_default (extra : gmap string (option string))
  (key : string) (default : string) : option string :=
  match extra !! key with
  | Some v => v
  | None => Some default
  end.

(** The dictionary built by [_resolve_connection]. *)
Record ConnData : Type := {
  master : string;
  queue : option string;
  deploy_mode : option string;
  spark_binary : option string;
  namespace : option string;
  principal : option string;
  keytab : option string
}.

(** The constructor arguments as [__init__] stores them. *)
Record Args : Type := {
  _conf : list (string * string);
  _conn_id : string;
  _files : option string;
  _py_files : option string;
  _archives : option string;
  _driver_class_path : option string;
  _jars : option string;
  _java_class : option string;
  _packages : option string;
  _exclude_packages : option string;
  _repositories : option string;
  _total_executor_cores : option Z;
  _executor_cores : option Z;
  _executor_memory : option string;
  _driver_memory : option string;
  _keytab : option string;
  _principal : option string;
  _use_krb5ccache : bool;
  _proxy_user : option string;
  _name : string;
  _num_executors : option Z;
  _status_poll_interval : Z;
  _application_args : option (list string);
  _env_vars : option (list (string * string));
  _verbose : bool;
  arg_spark_binary : option string;
  _properties_file : option string;
  _yarn_queue : option string;
  _deploy_mode : option string
}.

(** The defaults of the constructor signature. *)
Definition default_args : Args := {|
  _conf := []; _conn_id := "spark_default";
  _files := None; _py_files := None; _archives := None;
  _driver_class_path := None; _jars := None; _java_class := None;
  _packages := None; _exclude_packages := None; _repositories := None;
  _total_executor_cores := None; _executor_cores := None;
  _executor_memory := None; _driver_memory := None;
  _keytab := None; _principal := None; _use_krb5ccache := false;
  _proxy_user := None; _name := "default-name"; _num_executors := None;
  _status_poll_interval := 1; _application_args := None; _env_vars := None;
  _verbose := false; arg_spark_binary := None; _properties_file := None;
  _yarn_queue := None; _deploy_mode := None
|}.

(** A child process as the hook sees it: its output lines and its return
    code, or the failure to start it. *)
Inductive popen_outcome : Type :=
| Launched (out : list string) (returncode : Z)
| LaunchFails.

(** What the hook does to the outside, in order. *)
Inductive event : Type :=
| EvLog (msg : string)
| EvPopen (cmd : list string) (env : option (list (string * string)))
| EvSleep (seconds : Z)
| EvKillProcess
| EvRenew (principal keytab : string)
| EvDeletePod (pod : string) (namespace : option string).

(** *** Keytab materialisation *)

(** Where a write of the keytab can fail: opening the staging file,
    writing it (a prefix is left behind) or moving it into place. *)
Inductive fs_fault : Type :=
| NoFault
| OpenFails
| WriteFails (written : string)
| MoveFails.

(** File-system mutations, for the record of what a call did. *)
Inductive fs_op : Type :=
| OpWrite (path content : string)
| OpMove (src dst : string)
| OpUnlink (path : string).

(** [temp_dir_path / name] *)
Definition path_join (dir name : string) : string := dir +:+ "/" +:+ name.

Definition keytab_file_name (principal : option string) (uuid : string)
  : string :=
  "airflow_keytab-" +:+ (if truthy principal then default uuid principal else uuid).

Definition keytab_path_of (tmp : string) (principal : option string)
  (uuid : string) : string :=
  path_join tmp (keytab_file_name principal uuid).

Definition staging_path_of (tmp : string) (principal : option string)
  (uuid : string) : string :=
  path_join tmp ("." +:+ keytab_file_name principal uuid +:+ "." +:+ uuid).

(** The [finally] clause: the staging file is unlinked when it exists. *)
Definition cleanup_staging (staging : string) (fs : gmap string string)
  : gmap string string * list fs_op :=
  match fs !! staging with
  | Some _ => (delete staging fs, [OpUnlink staging])
  | None => (fs, [])
  end.

(** [_create_keytab_path_from_base64_keytab]: [tmp] is
    [tempfile.gettempdir()], [uuid] the text of [uuid.uuid4()], [fs] the
    files by path.  Returns the outcome, the files afterwards and the
    mutations performed. *)
Definition _create_keytab_path_from_base64_keytab
  (tmp uuid : string) (fault : fs_fault) (fs : gmap string string)
  (base64_keytab : string) (principal : option string)
  : outcome string * gmap string string * list fs_op :=
  let keytab_path := keytab_path_of tmp principal uuid in
  let staging_path := staging_path_of tmp principal uuid in
  match Base64.b64decode base64_keytab with
  | None => (Raise (AirflowException "Failed to decode base64 keytab"), fs, [])
  | Some keytab =>
      if bool_decide (fs !! keytab_path = Some keytab)
      then (Ok keytab_path, fs, [])
      else
        let '(res, fs1, ops) :=
          match fault with
          | OpenFails =>
              (Raise (AirflowException "Failed to save keytab"), fs, [])
          | WriteFails written =>
              (Raise (AirflowException "Failed to save keytab"),
               <[staging_path := written]> fs,
               [OpWrite staging_path written])
          | MoveFails =>
              (Raise (AirflowException "Failed to save keytab"),
               <[staging_path := keytab]> fs,
               [OpWrite staging_path keytab])
          | NoFault =>
              (Ok keytab_path,
               <[keytab_path := keytab]>
                 (delete staging_path (<[staging_path := keytab]> fs)),
               [OpWrite staging_path keytab; OpMove staging_path keytab_path])
          end in
        let '(fs2, ops2) := cleanup_staging staging_path fs1 in
        (res, fs2, (ops ++ ops2)%list)
  end.

(** *** Connection resolution *)

(** [if conn.port:] *)
Definition port_truthy (p : option Z) : bool :=
  match p with Some n => negb (n =? 0) | None => false end.

(** [self._conf[key]] and [key in self._conf] on the insertion-ordered
    dictionary; the values are kept in their [str()] form. *)
Fixpoint conf_get (conf : list (string * string)) (key : string)
  : option string :=
  match conf with
  | [] => None
  | (k, v) :: rest => if String.eqb k key then Some v else conf_get rest key
  end.

Definition log_fallback (conn_id master : string) : event :=
  EvLog ("Could not load connection string " +:+ conn_id +:+
         ", defaulting to " +:+ master).

(** [str(ALLOWED_SPARK_BINARIES)] *)
Definition allowed_repr : string :=
  "[" +:+ join ", " (map (fun b => "'" +:+ b +:+ "'") ALLOWED_SPARK_BINARIES) +:+ "]".

Definition binary_error (b : string) : exn :=
  RuntimeError ("The spark-binary extra can be on of " +:+ allowed_repr +:+
                " and it was `" +:+ b +:+
                "`. Please make sure your spark binary is one of the allowed" +:+
                " ones and that it is available on the PATH").

Definition spark_home_error : exn :=
  RuntimeError ("The `spark-home` extra is not allowed any more. Please make" +:+
                " sure one of " +:+ allowed_repr +:+
                " is available on the PATH, and set `spark-binary` if needed.").

(** The result of [_resolve_connection]: the outcome, the value left in
    [self.spark_binary], the files afterwards and the log. *)
Record Resolved : Type := {
  r_out : outcome ConnData;
  r_self_spark_binary : option string;
  r_fs : gmap string string;
  r_log : list event
}.

(** The statements after the [try] block. *)
Definition namespace_from_conf (conf : list (string * string)) (cd : ConnData)
  : ConnData :=
  match conf_get conf "spark.kubernetes.namespace" with
  | Some ns =>
      {| master := master cd; queue := queue cd; deploy_mode := deploy_mode cd;
         spark_binary := spark_binary cd; namespace := Some ns;
         principal := principal cd; keytab := keytab cd |}
  | None => cd
  end.

(** [_resolve_connection].  [conn] is the outcome of
    [self.get_connection(self._conn_id)], [None] when it raises
    [AirflowException]; [tmp], [uuid], [fault] and [fs] feed the keytab
    materialisation. *)
Definition _resolve_connection (a : Args) (conn : option Connection)
  (tmp uuid : string) (fault : fs_fault) (fs : gmap string string) : Resolved :=
  let master0 := "yarn" in
  let binary0 :=
    Some (if truthy (arg_spark_binary a) then default "" (arg_spark_binary a)
          else DEFAULT_SPARK_BINARY) in
  match conn with
  | None =>
      {| r_out := Ok (namespace_from_conf (_conf a)
                        {| master := master0; queue := None; deploy_mode := None;
                           spark_binary := binary0; namespace := None;
                           principal := _principal a; keytab := _keytab a |});
         r_self_spark_binary := arg_spark_binary a;
         r_fs := fs;
         r_log := [log_fallback (_conn_id a) master0] |}
  | Some c =>
      let master1 :=
        if port_truthy (port c)
        then host c +:+ ":" +:+ str_of_Z (default 0 (port c))
        else host c in
      let extra := extra_dejson c in
      let queue1 :=
        if truthy (_yarn_queue a) then _yarn_queue a else extra_get extra "queue" in
      let deploy_mode1 :=
        if truthy (_deploy_mode a) then _deploy_mode a
        else extra_get extra "deploy-mode" in
      let self_binary :=
        if truthy (arg_spark_binary a) then arg_spark_binary a
        else extra_get_default extra "spark-binary" DEFAULT_SPARK_BINARY in
      let binary_refused :=
        negb (truthy (arg_spark_binary a)) &&
        match self_binary with
        | Some b => negb (allowed_binary b)
        | None => false
        end in
      if binary_refused then
        {| r_out := Raise (binary_error (default "" self_binary));
           r_self_spark_binary := self_binary; r_fs := fs; r_log := [] |}
      else if truthy (extra_get extra "spark-home") then
        {| r_out := Raise spark_home_error;
           r_self_spark_binary := self_binary; r_fs := fs; r_log := [] |}
      else
        let namespace1 := extra_get extra "namespace" in
        let principal1 :=
          match _principal a with
          | None => extra_get extra "principal"
          | Some p => Some p
          end in
        let done (kt : option string) (fs' : gmap string string)
                 (log : list event) : Resolved :=
          {| r_out := Ok (namespace_from_conf (_conf a)
                            {| master := master1; queue := queue1;
                               deploy_mode := deploy_mode1;
                               spark_binary := self_binary;
                               namespace := namespace1;
                               principal := principal1; keytab := kt |});
             r_self_spark_binary := self_binary; r_fs := fs'; r_log := log |} in
        match _keytab a with
        | Some kt => done (Some kt) fs []
        | None =>
            match extra_get extra "keytab" with
            | None => done None fs []
            | Some base64_keytab =>
                match _create_keytab_path_from_base64_keytab
                        tmp uuid fault fs base64_keytab principal1 with
                | (Ok path, fs', _) => done (Some path) fs' []
                | (Raise (AirflowException _), fs', _) =>
                    (* caught by [except AirflowException] *)
                    done None fs' [log_fallback (_conn_id a) master1]
                | (Raise e, fs', _) =>
                    {| r_out := Raise e; r_self_spark_binary := self_binary;
                       r_fs := fs'; r_log := [] |}
                | (Pending, fs', _) =>
                    {| r_out := Pending; r_self_spark_binary := self_binary;
                       r_fs := fs'; r_log := [] |}
                end
            end
        end
  end.

(** *** Command masking *)

(** The pattern of [_mask_cmd], compiled with [re.I].  Group 1 is
    [\S*?(?:secret|password)\S*?(?:=|\s+)] followed by group 2, an optional
    single or double quote; then [(?:(?!\2\s).)*], the value; then group 3,
    [(\2)], the matching quote. *)
Definition mask_re : Re.re :=
  Re.Seq
    (Re.Grp 1
       (Re.Seq (Re.Star false (Re.Cls Re.nonspace))
          (Re.Seq (Re.Alt (Re.Str "secret") (Re.Str "password"))
             (Re.Seq (Re.Star false (Re.Cls Re.nonspace))
                (Re.Seq (Re.Alt (Re.Lit "="%char) (Re.Plus true (Re.Cls Re.space)))
                   (Re.Grp 2 (Re.Opt (Re.Cls (Re.one_of ("'" +:+ dq)))))))))) 
    (Re.Seq
       (Re.Star true
          (Re.Seq (Re.NLook (Re.Seq (Re.Bref 2) (Re.Cls Re.space)))
             (Re.Cls Re.dot)))
       (Re.Grp 3 (Re.Bref 2))).

(** The replacement template [\1******\3]. *)
Definition mask_repl (mo : Re.mobj) : string :=
  default "" (Re.group mo 1) +:+ "******" +:+ default "" (Re.group mo 3).

(** The substitution [re.sub(pattern, template, text, flags=re.I)]. *)
Definition mask_text (text : string) : string :=
  Re.sub true mask_re mask_repl text.

(** The argument of [_mask_cmd] is annotated [str | list[str]]. *)
Inductive cmd_arg : Type :=
| CmdList (tokens : list string)
| CmdStr (text : string).

(** [" ".join(connection_cmd)]: joining a [str] puts the separator between
    its characters. *)
Definition join_cmd (connection_cmd : cmd_arg) : string :=
  match connection_cmd with
  | CmdList tokens => join " " tokens
  | CmdStr text => join " " (chars text)
  end.

Definition _mask_cmd (connection_cmd : cmd_arg) : string :=
  mask_text (join_cmd connection_cmd).

(** *** The hook object *)

(** The submit process behind [self._submit_sp]: [poll()] is [None] while
    it runs. *)
Inductive proc : Type :=
| Running
| Exited (returncode : Z).

Record Hook : Type := {
  args : Args;
  self_spark_binary : option string;
  _connection : ConnData;
  _is_yarn : bool;
  _is_kubernetes : bool;
  _should_track_driver_status : bool;
  _submit_sp : option proc;
  _yarn_application_id : option string;
  _kubernetes_driver_pod : option string;
  _kubernetes_application_id : option string;
  _driver_id : option string;
  _driver_status : option string;
  _spark_exit_code : option Z;
  _env : option (list (string * string))
}.

(** Attribute assignments. *)
Definition set_submit_sp (v : option proc) (h : Hook) : Hook :=
  {| args := args h; self_spark_binary := self_spark_binary h;
     _connection := _connection h; _is_yarn := _is_yarn h;
     _is_kubernetes := _is_kubernetes h;
     _should_track_driver_status := _should_track_driver_status h;
     _submit_sp := v; _yarn_application_id := _yarn_application_id h;
     _kubernetes_driver_pod := _kubernetes_driver_pod h;
     _kubernetes_application_id := _kubernetes_application_id h;
     _driver_id := _driver_id h; _driver_status := _driver_status h;
     _spark_exit_code := _spark_exit_code h; _env := _env h |}.

Definition set_yarn_application_id (v : option string) (h : Hook) : Hook :=
  {| args := args h; self_spark_binary := self_spark_binary h;
     _connection := _connection h; _is_yarn := _is_yarn h;
     _is_kubernetes := _is_kubernetes h;
     _should_track_driver_status := _should_track_driver_status h;
     _submit_sp := _submit_sp h; _yarn_application_id := v;
     _kubernetes_driver_pod := _kubernetes_driver_pod h;
     _kubernetes_application_id := _kubernetes_application_id h;
     _driver_id := _driver_id h; _driver_status := _driver_status h;
     _spark_exit_code := _spark_exit_code h; _env := _env h |}.

Definition set_kubernetes_driver_pod (v : option string) (h : Hook) : Hook :=
  {| args := args h; self_spark_binary := self_spark_binary h;
     _connection := _connection h; _is_yarn := _is_yarn h;
     _is_kubernetes := _is_kubernetes h;
     _should_track_driver_status := _should_track_driver_status h;
     _submit_sp := _submit_sp h; _yarn_application_id := _yarn_application_id h;
     _kubernetes_driver_pod := v;
     _kubernetes_application_id := _kubernetes_application_id h;
     _driver_id := _driver_id h; _driver_status := _driver_status h;
     _spark_exit_code := _spark_exit_code h; _env := _env h |}.

Definition set_kubernetes_application_id (v : option string) (h : Hook) : Hook :=
  {| args := args h; self_spark_binary := self_spark_binary h;
     _connection := _connection h; _is_yarn := _is_yarn h;
     _is_kubernetes := _is_kubernetes h;
     _should_track_driver_status := _should_track_driver_status h;
     _submit_sp := _submit_sp h; _yarn_application_id := _yarn_application_id h;
     _kubernetes_driver_pod := _kubernetes_driver_pod h;
     _kubernetes_application_id := v;
     _driver_id := _driver_id h; _driver_status := _driver_status h;
     _spark_exit_code := _spark_exit_code h; _env := _env h |}.

Definition set_driver_id (v : option string) (h : Hook) : Hook :=
  {| args := args h; self_spark_binary := self_spark_binary h;
     _connection := _connection h; _is_yarn := _is_yarn h;
     _is_kubernetes := _is_kubernetes h;
     _should_track_driver_status := _should_track_driver_status h;
     _submit_sp := _submit_sp h; _yarn_application_id := _yarn_application_id h;
     _kubernetes_driver_pod := _kubernetes_driver_pod h;
     _kubernetes_application_id := _kubernetes_application_id h;
     _driver_id := v; _driver_status := _driver_status h;
     _spark_exit_code := _spark_exit_code h; _env := _env h |}.

Definition set_driver_status (v : option string) (h : Hook) : Hook :=
  {| args := args h; self_spark_binary := self_spark_binary h;
     _connection := _connection h; _is_yarn := _is_yarn h;
     _is_kubernetes := _is_kubernetes h;
     _should_track_driver_status := _should_track_driver_status h;
     _submit_sp := _submit_sp h; _yarn_application_id := _yarn_application_id h;
     _kubernetes_driver_pod := _kubernetes_driver_pod h;
     _kubernetes_application_id := _kubernetes_application_id h;
     _driver_id := _driver_id h; _driver_status := v;
     _spark_exit_code := _spark_exit_code h; _env := _env h |}.

Definition set_spark_exit_code (v : option Z) (h : Hook) : Hook :=
  {| args := args h; self_spark_binary := self_spark_binary h;
     _connection := _connection h; _is_yarn := _is_yarn h;
     _is_kubernetes := _is_kubernetes h;
     _should_track_driver_status := _should_track_driver_status h;
     _submit_sp := _submit_sp h; _yarn_application_id := _yarn_application_id h;
     _kubernetes_driver_pod := _kubernetes_driver_pod h;
     _kubernetes_application_id := _kubernetes_application_id h;
     _driver_id := _driver_id h; _driver_status := _driver_status h;
     _spark_exit_code := v; _env := _env h |}.

Definition set_env (v : option (list (string * string))) (h : Hook) : Hook :=
  {| args := args h; self_spark_binary := self_spark_binary h;
     _connection := _connection h; _is_yarn := _is_yarn h;
     _is_kubernetes := _is_kubernetes h;
     _should_track_driver_status := _should_track_driver_status h;
     _submit_sp := _submit_sp h; _yarn_application_id := _yarn_application_id h;
     _kubernetes_driver_pod := _kubernetes_driver_pod h;
     _kubernetes_application_id := _kubernetes_application_id h;
     _driver_id := _driver_id h; _driver_status := _driver_status h;
     _spark_exit_code := _spark_exit_code h; _env := v |}.

(** [_resolve_should_track_driver_status] *)
Definition _resolve_should_track_driver_status (cd : ConnData) : bool :=
  contains "spark://" (master cd) &&
  bool_decide (deploy_mode cd = Some "cluster").

(** The module imports [kube_client] under
    [contextlib.suppress(ImportError, NameError)]: when the import fails
    the name stays unbound, and evaluating [kube_client is None] raises
    [NameError]. *)
Definition kube_name_error : exn :=
  OtherException "NameError: name 'kube_client' is not defined".

(** [__init__].  [krb_principal] is [kerberos.get_kerberos_principal];
    [kube_client] tells whether the import of the Kubernetes client module
    succeeded.  When it did, the name is bound to the module and
    [kube_client is None] is false; when it did not, the test
    [self._is_kubernetes and kube_client is None] raises [NameError] as
    soon as its left side is true, so the [RuntimeError] under it is
    raised for no value the import leaves.  Returns the hook, or the
    exception of the constructor, with the files and the log. *)
Definition init (a : Args) (krb_principal : option string -> option string)
  (kube_client : bool) (conn : option Connection)
  (tmp uuid : string) (fault : fs_fault) (fs : gmap string string)
  : outcome Hook * gmap string string * list event :=
  let a' :=
    {| _conf := _conf a; _conn_id := _conn_id a; _files := _files a;
       _py_files := _py_files a; _archives := _archives a;
       _driver_class_path := _driver_class_path a; _jars := _jars a;
       _java_class := _java_class a; _packages := _packages a;
       _exclude_packages := _exclude_packages a;
       _repositories := _repositories a;
       _total_executor_cores := _total_executor_cores a;
       _executor_cores := _executor_cores a;
       _executor_memory := _executor_memory a;
       _driver_memory := _driver_memory a; _keytab := _keytab a;
       _principal :=
         if _use_krb5ccache a then krb_principal (_principal a)
         else _principal a;
       _use_krb5ccache := _use_krb5ccache a; _proxy_user := _proxy_user a;
       _name := _name a; _num_executors := _num_executors a;
       _status_poll_interval := _status_poll_interval a;
       _application_args := _application_args a; _env_vars := _env_vars a;
       _verbose := _verbose a; arg_spark_binary := arg_spark_binary a;
       _properties_file := _properties_file a; _yarn_queue := _yarn_queue a;
       _deploy_mode := _deploy_mode a |} in
  let r := _resolve_connection a' conn tmp uuid fault fs in
  match r_out r with
  | Raise e => (Raise e, r_fs r, r_log r)
  | Pending => (Pending, r_fs r, r_log r)
  | Ok cd =>
      let is_yarn := contains "yarn" (master cd) in
      let is_kubernetes := contains "k8s" (master cd) in
      if is_kubernetes && negb kube_client then
        (Raise kube_name_error, r_fs r, r_log r)
      else
        (Ok {| args := a'; self_spark_binary := r_self_spark_binary r;
               _connection := cd; _is_yarn := is_yarn;
               _is_kubernetes := is_kubernetes;
               _should_track_driver_status :=
                 _resolve_should_track_driver_status cd;
               _submit_sp := None; _yarn_application_id := None;
               _kubernetes_driver_pod := None;
               _kubernetes_application_id := None;
               _driver_id := None; _driver_status := None;
               _spark_exit_code := None; _env := None |},
         r_fs r, r_log r)
  end.

(** *** A monad for the methods: the hook object, the events emitted so
    far, and an outcome *)

Record St : Type := { self : Hook; trace : list event }.

Definition M (A : Type) : Type := St -> outcome A * St.

Definition ret {A} (a : A) : M A := fun st => (Ok a, st).
Definition raise {A} (e : exn) : M A := fun st => (Raise e, st).
Definition pending {A} : M A := fun st => (Pending, st).

Definition bind {A B} (c : M A) (k : A -> M B) : M B :=
  fun st =>
    match c st with
    | (Ok a, st') => k a st'
    | (Raise e, st') => (Raise e, st')
    | (Pending, st') => (Pending, st')
    end.

Definition get_self : M Hook := fun st => (Ok (self st), st).

Definition update (f : Hook -> Hook) : M unit :=
  fun st => (Ok tt, {| self := f (self st); trace := trace st |}).

Definition emit (e : event) : M unit :=
  fun st => (Ok tt, {| self := self st; trace := (trace st ++ [e])%list |}).

(** [try: c except ApiException: handler] *)
Definition catch_api {A} (c : M A) (handler : M A) : M A :=
  fun st =>
    match c st with
    | (Raise ApiException, st') => handler st'
    | r => r
    end.

Notation "'let*' x ':=' c 'in' k" := (bind c (fun x => k))
  (at level 10, x pattern, c at level 100, k at level 200).
Notation "c ';;' k" := (bind c (fun _ => k))
  (at level 100, k at level 200, right associativity).

Definition when (b : bool) (c : M unit) : M unit := if b then c else ret tt.

(** A call on the hook [h], with an empty record of events. *)
Definition start (h : Hook) : St := {| self := h; trace := [] |}.

Definition run {A} (c : M A) (h : Hook) : outcome A * St := c (start h).

(** *** Command construction *)

(** [if value: cmd += [flag, value]] for [str | None] and [int | None]. *)
Definition flag_str (flag : string) (value : option string) : list string :=
  if truthy value then [flag; default "" value] else [].

Definition flag_int (flag : string) (value : option Z) : list string :=
  match value with
  | Some n => if n =? 0 then [] else [flag; str_of_Z n]
  | None => []
  end.

(** [if self._env_vars] and [if self._application_args] *)
Definition nonempty {A} (o : option (list A)) : bool :=
  match o with Some (_ :: _) => true | _ => false end.

(** [_get_spark_binary_path]: the only token that can be [None]. *)
Definition _get_spark_binary_path (h : Hook) : list (option string) :=
  [spark_binary (_connection h)].

Definition conf_tokens (conf : list (string * string)) : list string :=
  flat_map (fun kv => ["--conf"; fst kv +:+ "=" +:+ snd kv]) conf.

Definition env_tokens (tmpl : string) (env_vars : list (string * string))
  : list string :=
  flat_map (fun kv => ["--conf"; tmpl +:+ fst kv +:+ "=" +:+ snd kv]) env_vars.

(** The flags from [--properties-file] to [--principal]. *)
Definition option_tokens_1 (h : Hook) : list string :=
  let a := args h in
  (flag_str "--properties-file" (_properties_file a) ++
   flag_str "--files" (_files a) ++
   flag_str "--py-files" (_py_files a) ++
   flag_str "--archives" (_archives a) ++
   flag_str "--driver-class-path" (_driver_class_path a) ++
   flag_str "--jars" (_jars a) ++
   flag_str "--packages" (_packages a) ++
   flag_str "--exclude-packages" (_exclude_packages a) ++
   flag_str "--repositories" (_repositories a) ++
   flag_int "--num-executors" (_num_executors a) ++
   flag_int "--total-executor-cores" (_total_executor_cores a) ++
   flag_int "--executor-cores" (_executor_cores a) ++
   flag_str "--executor-memory" (_executor_memory a) ++
   flag_str "--driver-memory" (_driver_memory a) ++
   flag_str "--keytab" (keytab (_connection h)) ++
   flag_str "--principal" (principal (_connection h)))%list.

(** The flags from [--proxy-user] to the application arguments. *)
Definition option_tokens_2 (h : Hook) (application : string) : list string :=
  let a := args h in
  (flag_str "--proxy-user" (_proxy_user a) ++
   flag_str "--name" (Some (_name a)) ++
   flag_str "--class" (_java_class a) ++
   (if _verbose a then ["--verbose"] else []) ++
   flag_str "--queue" (queue (_connection h)) ++
   flag_str "--deploy-mode" (deploy_mode (_connection h)) ++
   [application] ++
   (if nonempty (_application_args a) then default [] (_application_args a)
    else []))%list.

(** The message of [TypeError] when [" ".join] meets [None]. *)
Definition join_type_error : exn :=
  OtherException "TypeError: sequence item 0: expected str instance, NoneType found".

(** [_build_spark_submit_command].  [krb5ccname] is
    [os.getenv("KRB5CCNAME")]. *)
Definition _build_spark_submit_command (krb5ccname : option string)
  (application : string) : M (list string) :=
  let* h := get_self in
  let a := args h in
  let cd := _connection h in
  let head := (["--master"; master cd] ++ conf_tokens (_conf a))%list in
  let* env_part :=
    if nonempty (_env_vars a) && (_is_kubernetes h || _is_yarn h) then
      if _is_yarn h then
        update (set_env (_env_vars a)) ;;
        ret (env_tokens "spark.yarn.appMasterEnv." (default [] (_env_vars a)))
      else
        ret (env_tokens "spark.kubernetes.driverEnv." (default [] (_env_vars a)))
    else if nonempty (_env_vars a) &&
            negb (bool_decide (deploy_mode cd = Some "cluster")) then
      update (set_env (_env_vars a)) ;; ret []
    else if nonempty (_env_vars a) &&
            bool_decide (deploy_mode cd = Some "cluster") then
      raise (AirflowException
               "SparkSubmitHook env_vars is not supported in standalone-cluster mode.")
    else ret [] in
  let ns_part :=
    if _is_kubernetes h && truthy (namespace cd)
    then ["--conf"; "spark.kubernetes.namespace=" +:+ default "" (namespace cd)]
    else [] in
  let* ccache_part :=
    if _use_krb5ccache a then
      if negb (truthy krb5ccname) then
        raise (AirflowException
                 "KRB5CCNAME environment variable required to use ticket ccache is missing.")
      else ret ["--conf"; "spark.kerberos.renewal.credentials=ccache"]
    else ret [] in
  let rest :=
    (head ++ env_part ++ ns_part ++ option_tokens_1 h ++ ccache_part ++
     option_tokens_2 h application)%list in
  match _get_spark_binary_path h with
  | [Some binary] =>
      let connection_cmd := binary :: rest in
      emit (EvLog ("Spark-Submit cmd: " +:+ _mask_cmd (CmdList connection_cmd))) ;;
      ret connection_cmd
  | _ => raise join_type_error
  end.

(** [_build_track_driver_status_command] *)
Definition no_driver_id_error : exn :=
  AirflowException
    "Invalid status: attempted to poll driver status but no driver id is known. Giving up.".

Definition _build_track_driver_status_command : M (list (option string)) :=
  let* h := get_self in
  let spark_host := master (_connection h) in
  if endswith ":6066" spark_host then
    let spark_host := replace "spark://" "http://" spark_host in
    let connection_cmd :=
      [Some "/usr/bin/curl"; Some "--max-time"; Some (str_of_Z 30);
       Some (spark_host +:+ "/v1/submissions/status/" +:+
             default "None" (_driver_id h))] in
    if negb (truthy (_driver_id h)) then raise no_driver_id_error
    else ret connection_cmd
  else
    if truthy (_driver_id h) then
      ret (_get_spark_binary_path h ++
           [Some "--master"; Some (master (_connection h));
            Some "--status"; _driver_id h])%list
    else raise no_driver_id_error.

(** [_build_spark_driver_kill_command] *)
Definition _build_spark_driver_kill_command (h : Hook) : list (option string) :=
  ([spark_binary (_connection h); Some "--master"; Some (master (_connection h))] ++
   (if truthy (_driver_id h) then [Some "--kill"; _driver_id h] else []))%list.

(** *** Child processes *)

Definition popen_type_error : exn :=
  OtherException "TypeError: expected str, bytes or os.PathLike object, not NoneType".

Definition launch_error : exn := OSError "cannot start the child process".

Fixpoint all_tokens (cmd : list (option string)) : option (list string) :=
  match cmd with
  | [] => Some []
  | Some t :: rest => option_map (cons t) (all_tokens rest)
  | None :: _ => None
  end.

(** [subprocess.Popen(cmd, env=env, ...)] followed by reading the output
    and [wait()]: the outcome of the child is given by [child]. *)
Definition popen (cmd : list (option string))
  (env : option (list (string * string))) (child : popen_outcome)
  : M (list string * Z) :=
  match all_tokens cmd with
  | None => raise popen_type_error
  | Some tokens =>
      match child with
      | LaunchFails => raise launch_error
      | Launched out returncode =>
          emit (EvPopen tokens env) ;; ret (out, returncode)
      end
  end.

(** *** Log classification *)

(** [application[0-9_]+] *)
Definition yarn_app_re : Re.re :=
  Re.Seq (Re.Str "application")
         (Re.Plus true (Re.Cls (fun c => is_digit c || Ascii.eqb c "_"%char))).

(** [\s*pod name: ((.+?)-([a-z0-9]+)-driver$)] *)
Definition driver_pod_re : Re.re :=
  Re.Seq (Re.Star true (Re.Cls Re.space))
    (Re.Seq (Re.Str "pod name: ")
       (Re.Grp 1
          (Re.Seq (Re.Grp 2 (Re.Plus false (Re.Cls Re.dot)))
             (Re.Seq (Re.Lit "-"%char)
                (Re.Seq (Re.Grp 3 (Re.Plus true (Re.Cls Re.lower_or_digit)))
                   (Re.Seq (Re.Str "-driver") Re.Eol)))))).

(** [\s*spark-app-selector -> (spark-([a-z0-9]+)), ] *)
Definition k8s_app_re : Re.re :=
  Re.Seq (Re.Star true (Re.Cls Re.space))
    (Re.Seq (Re.Str "spark-app-selector -> ")
       (Re.Seq
          (Re.Grp 1
             (Re.Seq (Re.Str "spark-")
                (Re.Grp 2 (Re.Plus true (Re.Cls Re.lower_or_digit)))))
          (Re.Str ", "))).

(** [\s*[eE]xit code: (\d+)] *)
Definition exit_code_re : Re.re :=
  Re.Seq (Re.Star true (Re.Cls Re.space))
    (Re.Seq (Re.Cls (Re.one_of "eE"))
       (Re.Seq (Re.Str "xit code: ")
          (Re.Grp 1 (Re.Plus true (Re.Cls Re.digit))))).

(** [driver-[0-9\-]+] *)
Definition driver_id_re : Re.re :=
  Re.Seq (Re.Str "driver-")
         (Re.Plus true (Re.Cls (fun c => is_digit c || Ascii.eqb c "-"%char))).

(** The body of the loop of [_process_spark_submit_log] for one line. *)
Definition process_submit_line (raw : string) : M unit :=
  let line := strip raw in
  let* h := get_self in
  (if _is_yarn h && bool_decide (deploy_mode (_connection h) = Some "cluster") then
     match Re.search false yarn_app_re line with
     | Some mo =>
         update (set_yarn_application_id (Re.group mo 0)) ;;
         emit (EvLog ("Identified spark application id: " +:+ Re.m_whole mo))
     | None => ret tt
     end
   else if _is_kubernetes h then
     match Re.search false driver_pod_re line with
     | Some mo =>
         update (set_kubernetes_driver_pod (Re.group mo 1)) ;;
         emit (EvLog ("Identified spark driver pod: " +:+ default "" (Re.group mo 1)))
     | None => ret tt
     end ;;
     match Re.search false k8s_app_re line with
     | Some mo =>
         update (set_kubernetes_application_id (Re.group mo 1)) ;;
         emit (EvLog ("Identified spark application id: " +:+
                      default "" (Re.group mo 1)))
     | None => ret tt
     end ;;
     if bool_decide (deploy_mode (_connection h) = Some "cluster") then
       match Re.search false exit_code_re line with
       | Some mo =>
           update (set_spark_exit_code
                     (Some (int_of_digits 0 (default "" (Re.group mo 1)))))
       | None => ret tt
       end
     else update (set_spark_exit_code (Some 0))
   else if _should_track_driver_status h && negb (truthy (_driver_id h)) then
     match Re.search false driver_id_re line with
     | Some mo =>
         update (set_driver_id (Re.group mo 0)) ;;
         emit (EvLog ("identified spark driver id: " +:+ Re.m_whole mo))
     | None => ret tt
     end
   else ret tt) ;;
  emit (EvLog line).

(** [_process_spark_submit_log] *)
Fixpoint _process_spark_submit_log (itr : list string) : M unit :=
  match itr with
  | [] => ret tt
  | line :: rest => process_submit_line line ;; _process_spark_submit_log rest
  end.

(** The second piece of [line.split(" : ")], with every comma and every
    double quote removed by [replace], then stripped. *)
Definition parse_driver_state (line : string) : option string :=
  match split " : " line with
  | _ :: field :: _ =>
      Some (strip (remove_chr dquote (remove_chr ","%char field)))
  | _ => None
  end.

(** The body of the loop of [_process_spark_status_log] for one line;
    the pair of flags is ([driver_found], [valid_response]). *)
Definition status_line (raw : string) (flags : bool * bool) : M (bool * bool) :=
  let line := strip raw in
  let valid_response := contains "submissionId" line || snd flags in
  let* driver_found :=
    if contains "driverState" line then
      match parse_driver_state line with
      | Some status => update (set_driver_status (Some status)) ;; ret true
      | None => raise IndexError
      end
    else ret (fst flags) in
  emit (EvLog ("spark driver status log: " +:+ line)) ;;
  ret (driver_found, valid_response).

Fixpoint status_lines (itr : list string) (flags : bool * bool)
  : M (bool * bool) :=
  match itr with
  | [] => ret flags
  | raw :: rest =>
      let* flags' := status_line raw flags in status_lines rest flags'
  end.

(** [_process_spark_status_log] *)
Definition _process_spark_status_log (itr : list string) : M unit :=
  let* flags := status_lines itr (false, false) in
  let driver_found := fst flags in
  let valid_response := snd flags in
  when (valid_response && negb driver_found)
       (update (set_driver_status (Some "UNKNOWN"))).

(** *** Driver status tracking *)

Definition terminal_statuses : list string :=
  ["FINISHED"; "UNKNOWN"; "KILLED"; "FAILED"; "ERROR"].

(** [self._driver_status not in [...]] negated. *)
Definition is_terminal (status : option string) : bool :=
  match status with
  | Some s => existsb (String.eqb s) terminal_statuses
  | None => false
  end.

Definition max_missed_job_status_reports : Z := 10.

Definition poll_error (returncode : Z) : exn :=
  AirflowException
    ("Failed to poll for the driver status " +:+
     str_of_Z max_missed_job_status_reports +:+ " times: returncode = " +:+
     str_of_Z returncode).

(** The [while] loop of [_start_driver_status_tracking]: one element of
    [polls] is the outcome of one status-check process;
    [missed_job_status_reports] is the local counter. *)
Fixpoint poll_loop (polls : list popen_outcome) (missed_job_status_reports : Z)
  : M unit :=
  let* h := get_self in
  if is_terminal (_driver_status h) then ret tt
  else
    match polls with
    | [] => pending
    | child :: rest =>
        emit (EvSleep (_status_poll_interval (args h))) ;;
        let* poll_drive_status_cmd := _build_track_driver_status_command in
        let* res := popen poll_drive_status_cmd None child in
        _process_spark_status_log (fst res) ;;
        let returncode := snd res in
        if negb (returncode =? 0) then
          if missed_job_status_reports <? max_missed_job_status_reports
          then poll_loop rest (missed_job_status_reports + 1)
          else raise (poll_error returncode)
        else poll_loop rest missed_job_status_reports
    end.

(** [_start_driver_status_tracking] *)
Definition _start_driver_status_tracking (polls : list popen_outcome) : M unit :=
  poll_loop polls 0.

(** *** Submission *)

Definition str_of_exit_code (c : option Z) : string :=
  match c with Some n => str_of_Z n | None => "None" end.

(** The condition of the return-code check in [submit]:
    [returncode or (self._is_kubernetes and self._spark_exit_code != 0)]. *)
Definition submit_failed (returncode : Z) (is_kubernetes : bool)
  (spark_exit_code : option Z) : bool :=
  negb (returncode =? 0) ||
  (is_kubernetes && negb (bool_decide (spark_exit_code = Some 0))).

Definition submit_error_msg (h : Hook) (cmd : list string) (returncode : Z)
  : string :=
  if _is_kubernetes h then
    "Cannot execute: " +:+ _mask_cmd (CmdList cmd) +:+ ". Error code is: " +:+
    str_of_Z returncode +:+ ". Kubernetes spark exit code is: " +:+
    str_of_exit_code (_spark_exit_code h)
  else
    "Cannot execute: " +:+ _mask_cmd (CmdList cmd) +:+ ". Error code is: " +:+
    str_of_Z returncode +:+ ".".

(** The return-code check of [submit]. *)
Definition check_returncode (cmd : list string) (returncode : Z) : M unit :=
  let* h := get_self in
  if submit_failed returncode (_is_kubernetes h) (_spark_exit_code h)
  then raise (AirflowException (submit_error_msg h cmd returncode))
  else ret tt.

(** The first part of [submit]: the command is built and launched, its
    output is classified line by line and the process is waited for.
    [child] is the outcome of the spark-submit process. *)
Definition submit_launch (krb5ccname : option string) (application : string)
  (child : popen_outcome) : M (list string * Z) :=
  let* spark_submit_cmd := _build_spark_submit_command krb5ccname application in
  let* h := get_self in
  let env := if nonempty (_env h) then _env h else None in
  match child with
  | LaunchFails => raise launch_error
  | Launched out returncode =>
      emit (EvPopen spark_submit_cmd env) ;;
      update (set_submit_sp (Some Running)) ;;
      _process_spark_submit_log out ;;
      update (set_submit_sp (Some (Exited returncode))) ;;
      ret (spark_submit_cmd, returncode)
  end.

(** The last part of [submit]: the driver is tracked when the target asks
    for it.  [polls] are the outcomes of the status checks. *)
Definition submit_track (polls : list popen_outcome) : M unit :=
  let* h := get_self in
  if _should_track_driver_status h then
    match _driver_id h with
    | None =>
        raise (AirflowException
                 "No driver id is known: something went wrong when executing the spark submit command")
    | Some driver_id =>
        update (set_driver_status (Some "SUBMITTED")) ;;
        _start_driver_status_tracking polls ;;
        let* h := get_self in
        if bool_decide (_driver_status h = Some "FINISHED") then ret tt
        else
          raise (AirflowException
                   ("ERROR : Driver " +:+ driver_id +:+
                    " badly exited with status " +:+
                    default "None" (_driver_status h)))
    end
  else ret tt.

(** [submit] *)
Definition submit (krb5ccname : option string) (application : string)
  (child : popen_outcome) (polls : list popen_outcome) : M unit :=
  let* launched := submit_launch krb5ccname application child in
  check_returncode (fst launched) (snd launched) ;;
  submit_track polls.

(** *** Cancellation *)

(** The outcome of [client.delete_namespaced_pod] together with the
    statements before it in the [try] block. *)
Inductive k8s_outcome : Type :=
| PodDeleted (api_response : string)
| ApiFails                       (* raises kube_client.ApiException *)
| ClientFails (e : exn).         (* raises something else *)

(** What the outside answers during [on_kill]. *)
Record KillWorld : Type := {
  w_driver_kill : popen_outcome;       (* the spark-submit --kill process *)
  w_renew : option exn;                (* renew_from_kt: returns, or raises *)
  w_ccache : option string;            (* the [kerberos] ccache setting *)
  w_yarn_kill : popen_outcome;         (* the yarn application -kill process *)
  w_k8s : k8s_outcome
}.

(** [subprocess.Popen] on the submit process is truthy; [poll() is None]
    while it runs. *)
Definition still_running (p : option proc) : bool :=
  match p with Some Running => true | _ => false end.

Definition delete_pod (w : KillWorld) (h : Hook) : M unit :=
  catch_api
    (let call :=
       EvDeletePod (default "" (_kubernetes_driver_pod h))
                   (namespace (_connection h)) in
     match w_k8s w with
     | PodDeleted api_response =>
         emit call ;;
         emit (EvLog ("Spark on K8s killed with response: " +:+ api_response))
     | ApiFails => emit call ;; raise ApiException
     | ClientFails e => raise e
     end)
    (emit (EvLog "Exception when attempting to kill Spark on K8s")).

(** [on_kill] *)
Definition on_kill (w : KillWorld) : M unit :=
  emit (EvLog "Kill Command is being called") ;;
  let* h := get_self in
  when (_should_track_driver_status h && truthy (_driver_id h))
    (emit (EvLog ("Killing driver " +:+ default "" (_driver_id h) +:+ " on cluster")) ;;
     let* res := popen (_build_spark_driver_kill_command h) None (w_driver_kill w) in
     emit (EvLog ("Spark driver " +:+ default "" (_driver_id h) +:+
                  " killed with return code: " +:+ str_of_Z (snd res)))) ;;
  when (still_running (_submit_sp h))
    (emit (EvLog ("Sending kill signal to " +:+
                  default "None" (spark_binary (_connection h)))) ;;
     emit EvKillProcess ;;
     when (truthy (_yarn_application_id h))
       (let kill_cmd :=
          map Some (split_ws ("yarn application -kill " +:+
                              default "" (_yarn_application_id h))) in
        let* env :=
          match keytab (_connection h), principal (_connection h) with
          | Some kt, Some pr =>
              emit (EvRenew pr kt) ;;
              match w_renew w with
              | Some e => raise e
              | None =>
                  match w_ccache w with
                  | Some ccache => ret [("KRB5CCNAME", ccache)]
                  | None =>
                      raise (OtherException
                               "AirflowConfigException: kerberos/ccache")
                  end
              end
          | _, _ => ret (default [] (_env h))
          end in
        let* res := popen kill_cmd (Some env) (w_yarn_kill w) in
        emit (EvLog ("YARN app killed with return code: " +:+ str_of_Z (snd res)))) ;;
     when (truthy (_kubernetes_driver_pod h))
       (emit (EvLog ("Killing pod " +:+ default "" (_kubernetes_driver_pod h) +:+
                     " on Kubernetes")) ;;
        delete_pod w h)).

End Spark.

(** ** Definitions used in the statements *)

Module Specs.
Import PyStr Spark.
(** The attributes fixed by the constructor. *)
Definition same_target (h h' : Hook) : Prop :=
  args h' = args h /\ _connection h' = _connection h /\
  _is_yarn h' = _is_yarn h /\ _is_kubernetes h' = _is_kubernetes h /\
  _should_track_driver_status h' = _should_track_driver_status h.

(** The state of [submit] when the child process has been started. *)
Definition after_popen (cmd : list string) (st : St) : St :=
  {| self := set_submit_sp (Some Running) (self st);
     trace := (trace st ++
               [EvPopen cmd (if nonempty (_env (self st)) then _env (self st)
                             else None)])%list |}.

(** The state of [submit] when [wait()] has returned. *)
Definition after_wait (returncode : Z) (st : St) : St :=
  {| self := set_submit_sp (Some (Exited returncode)) (self st);
     trace := trace st |}.

(** Text made of blanks only. *)
Fixpoint all_space (s : string) : bool :=
  match s with
  | EmptyString => true
  | String c s' => is_space c && all_space s'
  end.

(** The status line of a driver that has finished, as the REST server
    prints it: the field alone on its line. *)
Definition finished_field : string :=
  quoted "driverState" +:+ " : " +:+ quoted "FINISHED" +:+ ",".

(** [EvLog] entries of the status classifier for the given lines. *)
Definition status_log_of (itr : list string) : list event :=
  map (fun raw => EvLog ("spark driver status log: " +:+ strip raw)) itr.

(** A status check that exits non-zero. *)
Definition failed (child : popen_outcome) : bool :=
  match child with
  | Launched _ returncode => negb (returncode =? 0)
  | LaunchFails => false
  end.

(** The number of failed status checks in a list, consecutive or not. *)
Fixpoint count_failed (polls : list popen_outcome) : Z :=
  match polls with
  | [] => 0
  | child :: rest => (if failed child then 1 else 0) + count_failed rest
  end.

(** A status check that starts and whose output keeps a running driver
    running: it is classified without error and leaves a non-terminal
    status non-terminal. *)
Definition keeps_polling (child : popen_outcome) : Prop :=
  exists out returncode,
    child = Launched out returncode /\
    forall st, is_terminal (_driver_status (self st)) = false ->
      exists st', _process_spark_status_log out st = (Ok tt, st') /\
                  is_terminal (_driver_status (self st')) = false.

(** A hook whose status-check command can be built and started: the
    driver id is known and the binary is a string. *)
Definition pollable (h : Hook) : Prop :=
  truthy (_driver_id h) = true /\ is_Some (spark_binary (_connection h)).

(** The precedence rule in the words of the specification: the explicit
    value when the caller supplied one, otherwise the entry of the
    connection extras when there is one, otherwise the default. *)
Definition precedence (supplied : bool) (explicit : option string)
  (from_extras : option (option string)) (default : option string)
  : option string :=
  if supplied then explicit
  else match from_extras with
       | Some v => v
       | None => default
       end.

(** [x is not None] *)
Definition is_not_None (x : option string) : bool :=
  match x with Some _ => true | None => false end.

(** What the resolver stores for a keytab entry of the extras: the path of
    the file materialised from the base64 text, or [None] when the entry
    is [null] or the materialisation raises. *)
Definition materialised (tmp uuid : string) (fault : fs_fault)
  (fs : gmap string string) (principal : option string)
  (entry : option string) : option string :=
  match entry with
  | Some base64_keytab =>
      match _create_keytab_path_from_base64_keytab
              tmp uuid fault fs base64_keytab principal with
      | (Ok path, _, _) => Some path
      | _ => None
      end
  | None => None
  end.

(** *** The masking pattern, step by step *)

(** A lazy repetition of a character class tries the continuation
    before each further character. *)
Fixpoint lazy_cls (p : ascii -> bool) (k : Re.cont) (s : string) (g : Re.env)
  : option (string * Re.env) :=
  Re.orelse (k s g)
    (match s with
     | String c s' => if p c then lazy_cls p k s' g else None
     | EmptyString => None
     end).

(** A greedy repetition of a character class tries the continuation
    after the longest run first. *)
Fixpoint greedy_cls (p : ascii -> bool) (k : Re.cont) (s : string) (g : Re.env)
  : option (string * Re.env) :=
  match s with
  | String c s' => if p c then Re.orelse (greedy_cls p k s' g) (k s g) else k s g
  | EmptyString => k s g
  end.

(** A greedy repetition of a one-character step that is allowed where
    [ok] holds. *)
Fixpoint greedy_pos (ok : string -> bool) (k : Re.cont) (s : string) (g : Re.env)
  : option (string * Re.env) :=
  match s with
  | String c s' => if ok s then Re.orelse (greedy_pos ok k s' g) (k s g) else k s g
  | EmptyString => k s g
  end.

(** The continuation that ends a match. *)
Definition k_end : Re.cont := fun s g => Some (s, g).

(** The pieces of the masking pattern. *)
Definition re_value_step : Re.re :=
  Re.Seq (Re.NLook (Re.Seq (Re.Bref 2) (Re.Cls Re.space))) (Re.Cls Re.dot).
Definition re_value : Re.re := Re.Star true re_value_step.
Definition re_close : Re.re := Re.Grp 3 (Re.Bref 2).
Definition re_quote : Re.re := Re.Grp 2 (Re.Opt (Re.Cls (Re.one_of ("'" +:+ dq)))).
Definition re_sep : Re.re :=
  Re.Alt (Re.Lit "="%char) (Re.Plus true (Re.Cls Re.space)).
Definition re_keyword : Re.re := Re.Alt (Re.Str "secret") (Re.Str "password").

(** The value step is refused where the text goes on with the opening
    quote and a blank. *)
Definition blocked (g : Re.env) (s : string) : bool :=
  match Re.m true (Re.Seq (Re.Bref 2) (Re.Cls Re.space)) s g k_end with
  | Some _ => true
  | None => false
  end.

Definition value_ok (g : Re.env) (s : string) : bool :=
  match s with
  | String c _ => negb (blocked g s) && Re.dot c
  | EmptyString => false
  end.

(** The continuation of group 1 of a match that starts at [s0]: the
    value and the closing quote. *)
Definition k_value (s0 : string) : Re.cont :=
  fun vs g =>
    Re.m true (Re.Seq re_value re_close) vs ((1%nat, Re.consumed s0 vs) :: g) k_end.

(** The continuation after the separator: the optional quote, then the
    value. *)
Definition k_quote (s0 : string) : Re.cont :=
  fun r g => Re.m true re_quote r g (k_value s0).

(** The continuation after the keyword: the lazy run up to the
    separator, then the rest. *)
Definition k_sep (s0 : string) : Re.cont :=
  fun s1 g =>
    Re.m true (Re.Seq (Re.Star false (Re.Cls Re.nonspace)) (Re.Seq re_sep re_quote))
      s1 g (k_value s0).

(** The continuation at a start of the keyword. *)
Definition k_keyword (s0 : string) : Re.cont :=
  fun s g =>
    Re.m true
      (Re.Seq re_keyword
         (Re.Seq (Re.Star false (Re.Cls Re.nonspace)) (Re.Seq re_sep re_quote)))
      s g (k_value s0).

(** A keyword, [secret] or [password] in any case, at the head of the
    text: the text after it. *)
Definition kw_at (s : string) : option string :=
  match Re.prefix_match true "secret" s with
  | Some r => Some r
  | None => Re.prefix_match true "password" s
  end.

(** The separator after the keyword: the first [=] or run of blanks,
    reached over non-blank characters; the text after it. *)
Fixpoint find_sep (s : string) : option string :=
  match s with
  | EmptyString => None
  | String c s' =>
      if Ascii.eqb c "="%char then Some s'
      else if is_space c then Some (lstrip s')
      else find_sep s'
  end.

Definition kw_sep (s : string) : option string :=
  match kw_at s with
  | Some s1 => find_sep s1
  | None => None
  end.

(** The key part of a match that starts at the head of the text: the
    text after the separator. *)
Fixpoint key_scan (s : string) : option string :=
  match kw_sep s with
  | Some r => Some r
  | None =>
      match s with
      | String c s' => if Re.nonspace c then key_scan s' else None
      | EmptyString => None
      end
  end.

(** A quoted value: the text after the last closing quote [q] that the
    value can reach on its line; a quote followed by a blank ends the
    value at once. *)
Fixpoint close_scan (q : ascii) (x : string) : option string :=
  match x with
  | EmptyString => None
  | String c x' =>
      if Ascii.eqb q c then
        match x' with
        | String d _ =>
            if is_space d then Some x'
            else match close_scan q x' with
                 | Some p => Some p
                 | None => Some x'
                 end
        | EmptyString => Some x'
        end
      else if Re.dot c then close_scan q x'
      else None
  end.

(** An unquoted value: the text after the run of non-blank characters. *)
Fixpoint skip_nonspace (x : string) : string :=
  match x with
  | String c x' => if Re.nonspace c then skip_nonspace x' else x
  | EmptyString => EmptyString
  end.

Definition is_quote (c : ascii) : bool := Re.one_of ("'" +:+ dq) c.

(** The value after the separator: where the value starts, the text
    after the match, and group 3. *)
Definition after_sep (r : string) : string * string * string :=
  match r with
  | String c r' =>
      if is_quote c then
        match close_scan c r' with
        | Some p => (r', p, String c EmptyString)
        | None => (r, skip_nonspace r, EmptyString)
        end
      else (r, skip_nonspace r, EmptyString)
  | EmptyString => (r, skip_nonspace r, EmptyString)
  end.

(** The text after a match and its groups, for a match that starts at
    [s0] and whose separator ends before [r]. *)
Definition post_of (r : string) : string := snd (fst (after_sep r)).

Definition groups_of (s0 r : string) : Re.env :=
  [(3%nat, snd (after_sep r));
   (1%nat, Re.consumed s0 (fst (fst (after_sep r))));
   (2%nat, Re.consumed r (fst (fst (after_sep r))))].

(** The replacement of a match: group 1, the mask, group 3. *)
Definition masked_match (ms r : string) : string :=
  Re.consumed ms (fst (fst (after_sep r))) +:+ "******" +:+ snd (after_sep r).

(** A separator character: [=] or a blank. *)
Definition sepc (d : ascii) : bool := Ascii.eqb d "="%char || is_space d.

(** Text without a newline, which the value of the pattern can cross. *)
Fixpoint all_dot (v : string) : bool :=
  match v with
  | EmptyString => true
  | String c v' => Re.dot c && all_dot v'
  end.

Fixpoint all_nonspace (v : string) : bool :=
  match v with
  | EmptyString => true
  | String c v' => Re.nonspace c && all_nonspace v'
  end.

(** Text that does not start with a blank. *)
Definition hns (s : string) : bool :=
  match s with
  | String c _ => negb (is_space c)
  | EmptyString => true
  end.

(** Text that is empty or starts with a blank. *)
Definition stops (s : string) : bool :=
  match s with
  | String c _ => is_space c
  | EmptyString => true
  end.

(** The first character. *)
Definition head (s : string) : option ascii :=
  match s with
  | String c _ => Some c
  | EmptyString => None
  end.

(** The key part of a match: it holds a separator character, and it is
    the key part whatever non-blank text follows. *)
Definition KeyPart (kp : string) : Prop :=
  (exists k1 d k2, kp = k1 +:+ String d k2 /\ sepc d = true) /\
  forall X, hns X = true -> key_scan (kp +:+ X) = Some X.

(** The first match of the pattern in the text: the text before it, the
    text from its start, and the text after its separator. *)
Fixpoint find_match (s : string) : option (string * string * string) :=
  match key_scan s with
  | Some r => Some (EmptyString, s, r)
  | None =>
      match s with
      | String c s' =>
          match find_match s' with
          | Some (pre, ms, r) => Some (String c pre, ms, r)
          | None => None
          end
      | EmptyString => None
      end
  end.
End Specs.

(** ** Concrete hooks and inputs *)

Module Fixtures.

Import PyStr Spark Specs.

(** The hook a constructor call yields, when it returns. *)
Definition constructed (r : outcome Hook * gmap string string * list event)
  (fallback : Hook) : Hook :=
  match r with
  | (Ok h, _, _) => h
  | _ => fallback
  end.

Definition blank_hook : Hook := {|
  args := default_args; self_spark_binary := None;
  _connection := {| master := "yarn"; queue := None; deploy_mode := None;
                    spark_binary := Some DEFAULT_SPARK_BINARY;
                    namespace := None; principal := None; keytab := None |};
  _is_yarn := true; _is_kubernetes := false;
  _should_track_driver_status := false;
  _submit_sp := None; _yarn_application_id := None;
  _kubernetes_driver_pod := None; _kubernetes_application_id := None;
  _driver_id := None; _driver_status := None; _spark_exit_code := None;
  _env := None |}.

Definition no_krb (p : option string) : option string := p.

(** A Kubernetes connection in cluster deploy mode. *)
Definition k8s_conn : Connection := {|
  host := "k8s://https://k8s-master"; port := Some 443;
  extra_dejson := {[ "deploy-mode" := Some "cluster"; "namespace" := Some "mynamespace" ]}
|}.

Definition k8s_hook : Hook :=
  Eval vm_compute in
    constructed (init default_args no_krb true (Some k8s_conn) "/tmp" "u0" NoFault ∅)
                blank_hook.

(** A standalone cluster on the REST port, in cluster deploy mode. *)
Definition standalone_conn : Connection := {|
  host := "spark://host"; port := Some 6066;
  extra_dejson := {[ "deploy-mode" := Some "cluster" ]}
|}.

Definition standalone_hook : Hook :=
  Eval vm_compute in
    constructed (init default_args no_krb true (Some standalone_conn) "/tmp" "u0" NoFault ∅)
                blank_hook.

(** A YARN connection in cluster deploy mode. *)
Definition yarn_conn : Connection := {|
  host := "yarn"; port := None;
  extra_dejson := {[ "deploy-mode" := Some "cluster"; "queue" := Some "root.default" ]}
|}.

Definition yarn_hook : Hook :=
  Eval vm_compute in
    constructed (init default_args no_krb true (Some yarn_conn) "/tmp" "u0" NoFault ∅)
                blank_hook.

(** The standalone hook after a submission that found its driver. *)
Definition tracking_hook : Hook :=
  set_driver_status (Some "SUBMITTED")
    (set_driver_id (Some "driver-001") standalone_hook).

(** Status checks: one that exits 1 without output, one that reports a
    running driver, one that reports a finished driver. *)
Definition check_fails : popen_outcome := Launched [] 1.
Definition check_running : popen_outcome :=
  Launched ["{"; "  " +:+ quoted "driverState" +:+ " : " +:+ quoted "RUNNING" +:+ ","; "}"] 0.
Definition check_finished : popen_outcome :=
  Launched ["{"; "  " +:+ finished_field; "}"] 0.

(** Ten failed checks in a row, then a finished driver. *)
Definition ten_failures_then_finished : list popen_outcome :=
  (repeat check_fails 10 ++ [check_finished])%list.

(** Eleven failed checks, each but the last followed by a successful
    one. *)
Definition eleven_scattered_failures : list popen_outcome :=
  (concat (repeat [check_fails; check_running] 10) ++ [check_fails])%list.

(** Constructor arguments that differ from the defaults in the fields
    a connection can also supply. *)
Definition args_with (binary yarn_queue deploy principal keytab : option string)
  : Args := {|
  _conf := []; _conn_id := "spark_default";
  _files := None; _py_files := None; _archives := None;
  _driver_class_path := None; _jars := None; _java_class := None;
  _packages := None; _exclude_packages := None; _repositories := None;
  _total_executor_cores := None; _executor_cores := None;
  _executor_memory := None; _driver_memory := None;
  _keytab := keytab; _principal := principal; _use_krb5ccache := false;
  _proxy_user := None; _name := "default-name"; _num_executors := None;
  _status_poll_interval := 1; _application_args := None; _env_vars := None;
  _verbose := false; arg_spark_binary := binary; _properties_file := None;
  _yarn_queue := yarn_queue; _deploy_mode := deploy
|}.

(** A connection whose extras carry a keytab (the base64 text of [ABC])
    and a principal. *)
Definition kerberos_conn : Connection := {|
  host := "yarn"; port := None;
  extra_dejson := {[ "keytab" := Some "QUJD"; "principal" := Some "bob";
                     "queue" := Some "root.etl" ]}
|}.

(** A connection whose extras name a binary outside the allowed set. *)
Definition custom_binary_conn : Connection := {|
  host := "yarn"; port := None;
  extra_dejson := {[ "spark-binary" := Some "custom-spark-submit" ]}
|}.

(** Hooks in the middle of a submission. *)
Definition running_tracking_hook : Hook :=
  set_submit_sp (Some Running) tracking_hook.

Definition running_k8s_hook : Hook :=
  set_submit_sp (Some Running)
    (set_kubernetes_driver_pod (Some "spark-pi-0a1b2c-driver") k8s_hook).

Definition running_yarn_hook : Hook :=
  set_submit_sp (Some Running)
    (set_yarn_application_id (Some "application_1700000000000_0001") yarn_hook).

(** Outcomes of the teardown steps: every step answers, the commands exit
    with code 1 and the pod delete raises [ApiException]. *)
Definition failing_world : KillWorld := {|
  w_driver_kill := Launched [] 1;
  w_renew := None;
  w_ccache := Some "/tmp/airflow_krb5_ccache";
  w_yarn_kill := Launched [] 1;
  w_k8s := ApiFails
|}.

(** The spark-submit binary cannot be started for the driver kill. *)
Definition no_binary_world : KillWorld := {|
  w_driver_kill := LaunchFails;
  w_renew := None;
  w_ccache := Some "/tmp/airflow_krb5_ccache";
  w_yarn_kill := Launched [] 0;
  w_k8s := PodDeleted "ok"
|}.

(** The yarn command line tool cannot be started. *)
Definition no_yarn_world : KillWorld := {|
  w_driver_kill := Launched [] 0;
  w_renew := None;
  w_ccache := Some "/tmp/airflow_krb5_ccache";
  w_yarn_kill := LaunchFails;
  w_k8s := PodDeleted "ok"
|}.

(** The Kubernetes client fails with something else than [ApiException]. *)
Definition unreachable_k8s_world : KillWorld := {|
  w_driver_kill := Launched [] 0;
  w_renew := None;
  w_ccache := Some "/tmp/airflow_krb5_ccache";
  w_yarn_kill := Launched [] 0;
  w_k8s := ClientFails (OtherException "urllib3.exceptions.MaxRetryError")
|}.

(** The state of [submit] on the Kubernetes hook when the process has
    ended, for a log that reports exit code 1, and for a log without an
    exit code. *)
Definition launched (r : outcome (list string * Z) * St) : list string * Z * St :=
  match r with
  | (Ok (cmd, returncode), st) => (cmd, returncode, st)
  | (_, st) => ([], 0, st)
  end.

Definition k8s_log_exit_1 : list string :=
  ["INFO LoggingPodStatusWatcherImpl: State changed";
   "   termination reason: Error";
   "   exit code: 1"].

Definition k8s_log_no_exit : list string :=
  ["INFO LoggingPodStatusWatcherImpl: State changed";
   "   pod name: spark-pi-0a1b2c-driver"].

Definition k8s_launch_exit_1 : list string * Z * St :=
  Eval vm_compute in
    launched (submit_launch None "app.py" (Launched k8s_log_exit_1 0) (start k8s_hook)).

Definition built (r : outcome (list string) * St) : list string * St :=
  match r with
  | (Ok cmd, st) => (cmd, st)
  | (_, st) => ([], st)
  end.

Definition k8s_built : list string * St :=
  Eval vm_compute in
    built (_build_spark_submit_command None "app.py" (start k8s_hook)).

(** Status responses: the literal line of the specification, and a JSON
    object printed on one line. *)
Definition status_line_with_dots : string :=
  "... " +:+ finished_field +:+ " ...".

Definition status_on_one_line : string :=
  "{ " +:+ quoted "action" +:+ " : " +:+ quoted "SubmissionStatusResponse" +:+ ", " +:+
  finished_field +:+ " " +:+ quoted "success" +:+ " : true }".

(** A response as the REST server prints it, and one without a state. *)
Definition finished_response_head : list string :=
  ["{"; "  " +:+ quoted "action" +:+ " : " +:+ quoted "SubmissionStatusResponse" +:+ ","].

Definition finished_response_tail : list string :=
  ["  " +:+ quoted "submissionId" +:+ " : " +:+ quoted "driver-001" +:+ ",";
   "  " +:+ quoted "success" +:+ " : true"; "}"].

Definition stateless_response : list string :=
  ["{"; "  " +:+ quoted "submissionId" +:+ " : " +:+ quoted "driver-001" +:+ ",";
   "  " +:+ quoted "success" +:+ " : false"; "}"].

(** A file system with nothing in the temporary directory. *)
Definition empty_fs : gmap string string := ∅.

End Fixtures.

(** ** Further definitions used in the statements *)

Module Terms.

Import PyStr Spark Specs Fixtures.

(** An entry of the log, as opposed to an action on the outside. *)
Definition is_log (e : event) : bool :=
  match e with EvLog _ => true | _ => false end.

(** The command of the standalone hook for [app.py]. *)
Definition standalone_built : list string * St :=
  Eval vm_compute in
    built (_build_spark_submit_command None "app.py" (start standalone_hook)).

(** The parts of the command line that depend on the target: the
    settings made from the environment variables, the namespace setting
    and the ticket-cache setting. *)
Definition env_part (h : Hook) : list string :=
  if nonempty (_env_vars (args h)) && (_is_kubernetes h || _is_yarn h) then
    env_tokens (if _is_yarn h then "spark.yarn.appMasterEnv."
                else "spark.kubernetes.driverEnv.")
               (default [] (_env_vars (args h)))
  else [].

Definition ns_part (h : Hook) : list string :=
  if _is_kubernetes h && truthy (namespace (_connection h))
  then ["--conf";
        "spark.kubernetes.namespace=" +:+ default "" (namespace (_connection h))]
  else [].

Definition ccache_part (h : Hook) : list string :=
  if _use_krb5ccache (args h)
  then ["--conf"; "spark.kerberos.renewal.credentials=ccache"] else [].

(** Whether the builder keeps the environment variables for the
    environment of the process. *)
Definition env_kept (h : Hook) : bool :=
  nonempty (_env_vars (args h)) && (_is_yarn h || negb (_is_kubernetes h)).

(** Constructor arguments with environment variables, and with the
    ticket cache switched on. *)
Definition with_env_vars (v : option (list (string * string))) (a : Args) : Args :=
  {| _conf := _conf a; _conn_id := _conn_id a; _files := _files a;
     _py_files := _py_files a; _archives := _archives a;
     _driver_class_path := _driver_class_path a; _jars := _jars a;
     _java_class := _java_class a; _packages := _packages a;
     _exclude_packages := _exclude_packages a;
     _repositories := _repositories a;
     _total_executor_cores := _total_executor_cores a;
     _executor_cores := _executor_cores a;
     _executor_memory := _executor_memory a;
     _driver_memory := _driver_memory a; _keytab := _keytab a;
     _principal := _principal a;
     _use_krb5ccache := _use_krb5ccache a; _proxy_user := _proxy_user a;
     _name := _name a; _num_executors := _num_executors a;
     _status_poll_interval := _status_poll_interval a;
     _application_args := _application_args a; _env_vars := v;
     _verbose := _verbose a; arg_spark_binary := arg_spark_binary a;
     _properties_file := _properties_file a; _yarn_queue := _yarn_queue a;
     _deploy_mode := _deploy_mode a |}.

Definition with_krb5ccache (a : Args) : Args :=
  {| _conf := _conf a; _conn_id := _conn_id a; _files := _files a;
     _py_files := _py_files a; _archives := _archives a;
     _driver_class_path := _driver_class_path a; _jars := _jars a;
     _java_class := _java_class a; _packages := _packages a;
     _exclude_packages := _exclude_packages a;
     _repositories := _repositories a;
     _total_executor_cores := _total_executor_cores a;
     _executor_cores := _executor_cores a;
     _executor_memory := _executor_memory a;
     _driver_memory := _driver_memory a; _keytab := _keytab a;
     _principal := _principal a;
     _use_krb5ccache := true; _proxy_user := _proxy_user a;
     _name := _name a; _num_executors := _num_executors a;
     _status_poll_interval := _status_poll_interval a;
     _application_args := _application_args a; _env_vars := _env_vars a;
     _verbose := _verbose a; arg_spark_binary := arg_spark_binary a;
     _properties_file := _properties_file a; _yarn_queue := _yarn_queue a;
     _deploy_mode := _deploy_mode a |}.

(** The hook constructed without environment variables. *)
Definition without_env_vars (h : Hook) : Hook :=
  {| args := with_env_vars None (args h);
     self_spark_binary := self_spark_binary h;
     _connection := _connection h; _is_yarn := _is_yarn h;
     _is_kubernetes := _is_kubernetes h;
     _should_track_driver_status := _should_track_driver_status h;
     _submit_sp := _submit_sp h; _yarn_application_id := _yarn_application_id h;
     _kubernetes_driver_pod := _kubernetes_driver_pod h;
     _kubernetes_application_id := _kubernetes_application_id h;
     _driver_id := _driver_id h; _driver_status := _driver_status h;
     _spark_exit_code := _spark_exit_code h; _env := _env h |}.

Definition stage_env : option (list (string * string)) := Some [("STAGE", "prod")].

Definition standalone_env_hook : Hook :=
  Eval vm_compute in
    constructed (init (with_env_vars stage_env default_args) no_krb true
                      (Some standalone_conn) "/tmp" "u0" NoFault ∅)
                blank_hook.

Definition k8s_env_hook : Hook :=
  Eval vm_compute in
    constructed (init (with_env_vars stage_env default_args) no_krb true
                      (Some k8s_conn) "/tmp" "u0" NoFault ∅)
                blank_hook.

Definition k8s_env_built : list string * St :=
  Eval vm_compute in
    built (_build_spark_submit_command None "app.py" (start k8s_env_hook)).

Definition ccache_hook : Hook :=
  Eval vm_compute in
    constructed (init (with_krb5ccache default_args) no_krb true
                      (Some yarn_conn) "/tmp" "u0" NoFault ∅)
                blank_hook.

(** A Kubernetes connection without a deploy mode. *)
Definition k8s_client_conn : Connection := {|
  host := "k8s://https://k8s-master"; port := Some 443;
  extra_dejson := {[ "namespace" := Some "mynamespace" ]}
|}.

Definition k8s_client_hook : Hook :=
  Eval vm_compute in
    constructed (init default_args no_krb true (Some k8s_client_conn)
                      "/tmp" "u0" NoFault ∅)
                blank_hook.

Definition k8s_client_built : list string * St :=
  Eval vm_compute in
    built (_build_spark_submit_command None "app.py" (start k8s_client_hook)).

(** The YARN hook after its submit process has ended. *)
Definition exited_yarn_hook : Hook :=
  set_submit_sp (Some (Exited 0))
    (set_yarn_application_id (Some "application_1700000000000_0001") yarn_hook).

(** A connection that still names a Spark home. *)
Definition spark_home_conn : Connection := {|
  host := "yarn"; port := None;
  extra_dejson := {[ "spark-home" := Some "/opt/spark" ]}
|}.

(** Constructor arguments with a configuration. *)
Definition with_conf (v : list (string * string)) (a : Args) : Args :=
  {| _conf := v; _conn_id := _conn_id a; _files := _files a;
     _py_files := _py_files a; _archives := _archives a;
     _driver_class_path := _driver_class_path a; _jars := _jars a;
     _java_class := _java_class a; _packages := _packages a;
     _exclude_packages := _exclude_packages a;
     _repositories := _repositories a;
     _total_executor_cores := _total_executor_cores a;
     _executor_cores := _executor_cores a;
     _executor_memory := _executor_memory a;
     _driver_memory := _driver_memory a; _keytab := _keytab a;
     _principal := _principal a;
     _use_krb5ccache := _use_krb5ccache a; _proxy_user := _proxy_user a;
     _name := _name a; _num_executors := _num_executors a;
     _status_poll_interval := _status_poll_interval a;
     _application_args := _application_args a; _env_vars := _env_vars a;
     _verbose := _verbose a; arg_spark_binary := arg_spark_binary a;
     _properties_file := _properties_file a; _yarn_queue := _yarn_queue a;
     _deploy_mode := _deploy_mode a |}.

Definition k8s_conf_args : Args :=
  with_conf [("spark.kubernetes.namespace", "jobs")] default_args.

Definition k8s_conf_hook : Hook :=
  Eval vm_compute in
    constructed (init k8s_conf_args no_krb true (Some k8s_conn)
                      "/tmp" "u0" NoFault ∅)
                blank_hook.




(** A connection whose extras set the binary to [null]. *)
Definition null_binary_conn : Connection := {|
  host := "yarn"; port := None;
  extra_dejson := {[ "spark-binary" := None ]}
|}.

Definition null_binary_hook : Hook :=
  Eval vm_compute in
    constructed (init default_args no_krb true (Some null_binary_conn)
                      "/tmp" "u0" NoFault ∅)
                blank_hook.

(** A temporary directory that holds a file of somebody else. *)
Definition other_file_fs : gmap string string := {[ "/tmp/other" := "data" ]}.

(** *** Texts, for the statements about masking *)

(** The text holds [secret] or [password], in any letter case. *)
Fixpoint has_keyword (s : string) : bool :=
  match kw_at s with
  | Some _ => true
  | None =>
      match s with
      | String _ s' => has_keyword s'
      | EmptyString => false
      end
  end.

(** A key: text without a blank and without an equals sign. *)
Fixpoint key_text (k : string) : bool :=
  match k with
  | EmptyString => true
  | String c k' => negb (sepc c) && key_text k'
  end.

(** A value that does not start with a quote. *)
Definition unquoted (v : string) : bool :=
  match v with
  | String c _ => negb (is_quote c)
  | EmptyString => true
  end.

(** Text that is empty or ends with a blank. *)
Fixpoint ends_blank (s : string) : bool :=
  match s with
  | EmptyString => true
  | String c EmptyString => is_space c
  | String _ s' => ends_blank s'
  end.

(** The text before and after a token in a joined command line. *)
Definition joined_before (tokens : list string) : string :=
  match tokens with
  | [] => EmptyString
  | _ => join " " tokens +:+ " "
  end.

Definition joined_after (tokens : list string) : string :=
  match tokens with
  | [] => EmptyString
  | _ => " " +:+ join " " tokens
  end.

(** *** Tracking, for the statements about what the polling loop touches *)

(** The hook [h'] is the hook [h] with another driver status. *)
Definition only_driver_status (h h' : Hook) : Prop :=
  h' = set_driver_status (_driver_status h') h.

(** What tracking may do: write to the log, sleep for the poll interval
    of the hook, and start the status command of the hook without an
    environment. *)
Definition tracking_event (h : Hook) (e : event) : bool :=
  match e with
  | EvLog _ => true
  | EvSleep seconds => bool_decide (seconds = _status_poll_interval (args h))
  | EvPopen tokens env =>
      bool_decide (env = None) &&
      match fst (run _build_track_driver_status_command h) with
      | Ok cmd => bool_decide (all_tokens cmd = Some tokens)
      | _ => false
      end
  | _ => false
  end.

(** From [st] to [st'] only the driver status changes, and the events
    added all satisfy [P]. *)
Definition moves (P : event -> bool) (st st' : St) : Prop :=
  only_driver_status (self st) (self st') /\
  exists tr, trace st' = (trace st ++ tr)%list /\ Forall (fun e => P e = true) tr.

End Terms.

(** * Properties *)

(** ** The matcher only moves forward *)

Section MatcherFacts.

Import Re.

Lemma prefix_match_length ic p s s' :
  prefix_match ic p s = Some s' -> (String.length s' <= String.length s)%nat.
Proof.
  revert s. induction p as [|a p IH]; intros s H; simpl in H.
  - inversion H. lia.
  - destruct s as [|b s]; [discriminate|].
    destruct (chr_match ic a b); [|discriminate].
    apply IH in H. simpl. lia.
Qed.

Lemma orelse_Some {A} (x y : option A) v :
  orelse x y = Some v -> x = Some v \/ y = Some v.
Proof. destruct x; simpl; intros H; [left|right]; assumption. Qed.

Lemma star_loop_shrinks greedy body k :
  (forall s g k' x, body s g k' = Some x ->
     exists s' g', k' s' g' = Some x /\ (String.length s' <= String.length s)%nat) ->
  forall fuel s g x, star_loop greedy body k fuel s g = Some x ->
     exists s' g', k s' g' = Some x /\ (String.length s' <= String.length s)%nat.
Proof.
  intros Hbody. induction fuel as [|fuel IH]; intros s g x H; simpl in H.
  - exists s, g. split; [assumption|lia].
  - assert (Hcases :
      body s g (fun s' g' =>
                  if (String.length s' <? String.length s)%nat
                  then star_loop greedy body k fuel s' g' else None) = Some x
      \/ k s g = Some x).
    { destruct greedy; apply orelse_Some in H; tauto. }
    destruct Hcases as [Hb|Hk].
    + apply Hbody in Hb. destruct Hb as (s1 & g1 & Hb & Hlen).
      destruct (String.length s1 <? String.length s)%nat; [|discriminate].
      apply IH in Hb. destruct Hb as (s2 & g2 & Hk & Hlen2).
      exists s2, g2. split; [assumption|lia].
    + exists s, g. split; [assumption|lia].
Qed.

(** A successful match hands the continuation a suffix that is no longer
    than the input, and a shorter one when the pattern is consuming. *)
Lemma m_shrinks ic r :
  forall s g k x, m ic r s g k = Some x ->
    exists s' g', k s' g' = Some x /\
      (String.length s' <= String.length s)%nat /\
      (consuming r = true -> (String.length s' < String.length s)%nat).
Proof.
  induction r as [|c|p|r1 IH1 r2 IH2|r1 IH1 r2 IH2|gr r1 IH1|n r1 IH1|n|r1 IH1|];
    intros s g k x H; simpl in H.
  - exists s, g. repeat split; [assumption|lia|discriminate].
  - destruct s as [|a s]; [discriminate|].
    destruct (chr_match ic c a); [|discriminate].
    exists s, g. simpl. repeat split; [assumption|lia|lia].
  - destruct s as [|a s]; [discriminate|].
    destruct (p a); [|discriminate].
    exists s, g. simpl. repeat split; [assumption|lia|lia].
  - apply IH1 in H. destruct H as (s1 & g1 & H & Hle1 & Hlt1).
    apply IH2 in H. destruct H as (s2 & g2 & H & Hle2 & Hlt2).
    exists s2, g2. split; [assumption|]. split; [lia|].
    simpl. intros Hc. apply orb_true_iff in Hc. destruct Hc as [Hc|Hc].
    + specialize (Hlt1 Hc). lia.
    + specialize (Hlt2 Hc). lia.
  - apply orelse_Some in H. destruct H as [H|H].
    + apply IH1 in H. destruct H as (s1 & g1 & H & Hle & Hlt).
      exists s1, g1. repeat split; try assumption.
      simpl. intros Hc. apply andb_true_iff in Hc. tauto.
    + apply IH2 in H. destruct H as (s1 & g1 & H & Hle & Hlt).
      exists s1, g1. repeat split; try assumption.
      simpl. intros Hc. apply andb_true_iff in Hc. tauto.
  - apply star_loop_shrinks in H.
    + destruct H as (s1 & g1 & H & Hle). exists s1, g1.
      repeat split; [assumption|assumption|discriminate].
    + intros s0 g0 k' x0 Hb. apply IH1 in Hb.
      destruct Hb as (s1 & g1 & Hb & Hle & _). eauto.
  - apply IH1 in H. destruct H as (s1 & g1 & H & Hle & Hlt).
    eexists _, _. split; [exact H|]. split; [assumption|exact Hlt].
  - destruct (get n g) as [t|]; [|discriminate].
    destruct (prefix_match ic t s) as [s1|] eqn:Hp; [|discriminate].
    apply prefix_match_length in Hp.
    exists s1, g. repeat split; [assumption|assumption|discriminate].
  - destruct (m ic r1 s g _); [discriminate|].
    exists s, g. repeat split; [assumption|lia|discriminate].
  - destruct s; [|discriminate].
    exists EmptyString, g. repeat split; [assumption|lia|discriminate].
Qed.

Lemma consumed_nonempty s s' :
  (String.length s' < String.length s)%nat -> consumed s s' <> EmptyString.
Proof.
  unfold consumed. intros H. destruct s as [|c s]; simpl in *; [lia|].
  destruct (S (String.length s) - String.length s')%nat eqn:E; [lia|].
  simpl. discriminate.
Qed.

Lemma match_here_nonempty ic r s mo :
  consuming r = true -> match_here ic r s = Some mo -> m_whole mo <> EmptyString.
Proof.
  unfold match_here. intros Hc H.
  destruct (m ic r s [] _) as [[s' g']|] eqn:Hm; [|discriminate].
  inversion H; subst; clear H. simpl.
  apply m_shrinks in Hm. destruct Hm as (s1 & g1 & Hk & _ & Hlt).
  inversion Hk; subst. apply consumed_nonempty. auto.
Qed.

(** [re.search] with a consuming pattern never returns an empty match. *)
Lemma search_nonempty ic r s mo :
  consuming r = true -> search ic r s = Some mo -> m_whole mo <> EmptyString.
Proof.
  intros Hc. revert mo. induction s as [|c s IH]; intros mo H; simpl in H.
  - destruct (match_here ic r EmptyString) eqn:E; [|discriminate].
    inversion H; subst. eapply match_here_nonempty; eauto.
  - destruct (match_here ic r (String c s)) eqn:E.
    + inversion H; subst. eapply match_here_nonempty; eauto.
    + destruct (search ic r s) as [mo'|]; [|discriminate].
      simpl in H. inversion H; subst. simpl. apply IH. reflexivity.
Qed.

End MatcherFacts.

(** ** Submission: what the log classifier and the command builder keep *)

Section Submission.

Import PyStr Spark Specs.

Lemma same_target_refl h : same_target h h.
Proof. repeat split. Qed.

Lemma same_target_trans h1 h2 h3 :
  same_target h1 h2 -> same_target h2 h3 -> same_target h1 h3.
Proof.
  unfold same_target. intros (?&?&?&?&?) (?&?&?&?&?).
  repeat split; congruence.
Qed.

Ltac unfold_m :=
  unfold bind, get_self, update, emit, ret, raise, pending, when in *; simpl in *.

Ltac break_search :=
  repeat match goal with
         | |- context [Re.search ?a ?b ?c] => destruct (Re.search a b c) eqn:?
         | |- context [if ?b then _ else _] =>
             lazymatch type of b with bool => destruct b eqn:? end
         end.

(** Classifying one line never raises and leaves the target alone. *)
Lemma process_submit_line_ok raw st :
  exists st', process_submit_line raw st = (Ok tt, st') /\
              same_target (self st) (self st').
Proof.
  destruct st as [h tr]. unfold process_submit_line. unfold_m.
  break_search; eexists; (split; [reflexivity|]);
    unfold same_target; simpl; repeat split; reflexivity.
Qed.


Lemma process_submit_log_ok itr : forall st,
  exists st', _process_spark_submit_log itr st = (Ok tt, st') /\
              same_target (self st) (self st').
Proof.
  induction itr as [|line rest IH]; intros st; simpl.
  - exists st. split; [reflexivity|apply same_target_refl].
  - unfold bind.
    destruct (process_submit_line_ok line st) as (st1 & -> & H1).
    destruct (IH st1) as (st2 & -> & H2).
    exists st2. split; [reflexivity|]. eapply same_target_trans; eauto.
Qed.

(** The command builder only assigns [self._env]. *)
Lemma build_command_keeps krb app st r st' :
  _build_spark_submit_command krb app st = (r, st') ->
  same_target (self st) (self st') /\
  _spark_exit_code (self st') = _spark_exit_code (self st) /\
  _driver_id (self st') = _driver_id (self st).
Proof.
  destruct st as [h tr]. unfold _build_spark_submit_command, _get_spark_binary_path.
  unfold_m. intros H.
  repeat match type of H with
         | context [if ?b then _ else _] =>
             lazymatch type of b with bool => destruct b eqn:? end
         | context [match ?o with Some _ => _ | None => _ end] =>
             destruct o eqn:?
         end;
    inversion H; subst; simpl; unfold same_target; simpl; repeat split; reflexivity.
Qed.


Lemma submit_launch_inv krb app out rc st cmd rc' st1 :
  submit_launch krb app (Launched out rc) st = (Ok (cmd, rc'), st1) ->
  rc' = rc /\ same_target (self st) (self st1).
Proof.
  unfold submit_launch. unfold bind at 1.
  destruct (_build_spark_submit_command krb app st) as [[cmd0|e|] st0] eqn:Hb;
    try discriminate.
  apply build_command_keeps in Hb as Hk. destruct Hk as (Hk & _ & _).
  unfold_m.
  match goal with
  | |- context [_process_spark_submit_log out ?s] =>
      destruct (process_submit_log_ok out s) as (st2 & Hp & H2)
  end.
  rewrite Hp. intros H. inversion H; subst; clear H. simpl.
  split; [reflexivity|].
  eapply same_target_trans; [exact Hk|].
  unfold same_target in *; simpl in *. tauto.
Qed.

(** Once the command is built and the process starts, the launch step
    returns: the log is classified from the state [after_popen] and the
    process is marked as exited. *)
Lemma submit_launch_run krb app out rc st cmd st0 :
  _build_spark_submit_command krb app st = (Ok cmd, st0) ->
  exists st2,
    _process_spark_submit_log out (after_popen cmd st0) = (Ok tt, st2) /\
    submit_launch krb app (Launched out rc) st = (Ok (cmd, rc), after_wait rc st2).
Proof.
  intros Hb. unfold submit_launch. unfold bind at 1. rewrite Hb.
  destruct (process_submit_log_ok out (after_popen cmd st0)) as (st2 & Hp & _).
  exists st2. split; [exact Hp|].
  unfold_m. unfold after_popen in Hp. rewrite Hp. reflexivity.
Qed.

(** Classifying the log only adds to the record of events. *)
Lemma process_submit_line_trace raw st st' r :
  process_submit_line raw st = (r, st') ->
  exists more, trace st' = (trace st ++ more)%list.
Proof.
  destruct st as [h tr]. unfold process_submit_line. unfold_m.
  break_search; intros H; inversion H; subst; simpl;
    rewrite <- ?app_assoc; eexists; reflexivity.
Qed.

Lemma process_submit_log_trace itr : forall st st' r,
  _process_spark_submit_log itr st = (r, st') ->
  exists more, trace st' = (trace st ++ more)%list.
Proof.
  induction itr as [|line rest IH]; intros st st' r; simpl.
  - intros H. inversion H; subst. exists []. rewrite app_nil_r. reflexivity.
  - unfold bind.
    destruct (process_submit_line line st) as [[[]|e|] st1] eqn:Hl;
      apply process_submit_line_trace in Hl; destruct Hl as (m1 & Hm1); intros H.
    + apply IH in H. destruct H as (m2 & Hm2).
      exists (m1 ++ m2)%list. rewrite Hm2, Hm1, app_assoc. reflexivity.
    + inversion H; subst. eauto.
    + inversion H; subst. eauto.
Qed.

(** The process [submit] starts is given the tokens of the command
    builder as they are; the masked form only goes to the log. *)
Lemma submit_launches_builder_output krb app out rc st cmd st1 :
  submit_launch krb app (Launched out rc) st = (Ok (cmd, rc), st1) ->
  (exists st0, _build_spark_submit_command krb app st = (Ok cmd, st0)) /\
  exists env, In (EvPopen cmd env) (trace st1).
Proof.
  unfold submit_launch. unfold bind at 1.
  destruct (_build_spark_submit_command krb app st) as [[cmd0|e|] st0] eqn:Hb;
    try discriminate.
  unfold_m.
  match goal with
  | |- context [_process_spark_submit_log out ?s] =>
      destruct (_process_spark_submit_log out s) as [[[]|e|] st2] eqn:Hp;
        try discriminate
  end.
  intros H. inversion H; subst; clear H. simpl.
  split; [eexists; reflexivity|].
  apply process_submit_log_trace in Hp. destruct Hp as (more & Hm).
  simpl in Hm. eexists. rewrite Hm.
  apply in_or_app. left. apply in_or_app. right. left. reflexivity.
Qed.

(** C1: the return-code check of [submit] raises [AirflowException] when
    the process exit code is non-zero and, on a Kubernetes target, when the
    exit code read from the log is a non-zero number, whatever the process
    exit code; with a zero process exit code and, on Kubernetes, a
    log-reported exit code of zero, the check passes and [submit] goes on
    to the tracking step. *)
Theorem submit_returncode_check h krb app out rc polls cmd st1 :
  submit_launch krb app (Launched out rc) (start h) = (Ok (cmd, rc), st1) ->
  (rc <> 0 ->
   run (submit krb app (Launched out rc) polls) h =
     (Raise (AirflowException (submit_error_msg (self st1) cmd rc)), st1)) /\
  (_is_kubernetes h = true ->
   forall n, _spark_exit_code (self st1) = Some n -> n <> 0 ->
   run (submit krb app (Launched out rc) polls) h =
     (Raise (AirflowException (submit_error_msg (self st1) cmd rc)), st1)) /\
  (rc = 0 ->
   _is_kubernetes h = false \/ _spark_exit_code (self st1) = Some 0 ->
   check_returncode cmd rc st1 = (Ok tt, st1) /\
   run (submit krb app (Launched out rc) polls) h = submit_track polls st1).
Proof.
  intros Hl.
  pose proof (submit_launch_inv _ _ _ _ _ _ _ _ Hl) as (_ & (_ & _ & _ & Hk & _)).
  simpl in Hk.
  unfold run, submit. unfold bind at 1 3 5. rewrite Hl. simpl.
  unfold check_returncode, bind, get_self, submit_failed. simpl.
  rewrite Hk. split; [|split].
  - intros Hrc. apply Z.eqb_neq in Hrc. rewrite Hrc. reflexivity.
  - intros Hk8s n Hn Hne. rewrite Hk8s, Hn.
    rewrite bool_decide_eq_false_2 by congruence.
    rewrite orb_true_r. reflexivity.
  - intros -> Hcode. simpl.
    assert (Hpass : _is_kubernetes h &&
                    negb (bool_decide (_spark_exit_code (self st1) = Some 0)) = false).
    { destruct Hcode as [-> | ->]; [reflexivity|].
      rewrite bool_decide_eq_true_2 by reflexivity. apply andb_false_r. }
    rewrite Hpass. split; reflexivity.
Qed.


(** On a Kubernetes target in cluster deploy mode a line without an exit
    code leaves the stored exit code unset. *)
Lemma exit_code_stays_unset raw st st' :
  _is_kubernetes (self st) = true ->
  deploy_mode (_connection (self st)) = Some "cluster" ->
  Re.search false exit_code_re (strip raw) = None ->
  _spark_exit_code (self st) = None ->
  process_submit_line raw st = (Ok tt, st') ->
  _spark_exit_code (self st') = None.
Proof.
  destruct st as [h tr]. simpl. intros Hk Hd Hs Hc.
  unfold process_submit_line. unfold_m. rewrite Hk, Hd, Hs.
  rewrite bool_decide_eq_true_2 by reflexivity.
  break_search; intros H; inversion H; subst; simpl; assumption.
Qed.

Lemma exit_code_stays_unset_log itr : forall st st',
  _is_kubernetes (self st) = true ->
  deploy_mode (_connection (self st)) = Some "cluster" ->
  Forall (fun line => Re.search false exit_code_re (strip line) = None) itr ->
  _spark_exit_code (self st) = None ->
  _process_spark_submit_log itr st = (Ok tt, st') ->
  _spark_exit_code (self st') = None.
Proof.
  induction itr as [|line rest IH]; intros st st' Hk Hd Hall Hc; simpl.
  - intros H. inversion H; subst. assumption.
  - inversion Hall as [|? ? Hline Hrest]; subst.
    unfold bind.
    destruct (process_submit_line_ok line st) as (st1 & Hp & (_ & Hcn & _ & Hk1 & _)).
    rewrite Hp. intros H.
    apply (IH st1 st'); [ | | assumption | | assumption].
    + rewrite Hk1. assumption.
    + rewrite Hcn. assumption.
    + eapply exit_code_stays_unset; eauto.
Qed.

(** C10: on a Kubernetes target in cluster deploy mode, when no log line
    carries an exit code, the stored exit code is still unset after the
    process has ended and [submit] raises [AirflowException] for every
    process exit code, zero included. *)
Theorem k8s_cluster_unset_exit_code_raises h krb app out rc polls cmd st0 :
  _is_kubernetes h = true ->
  deploy_mode (_connection h) = Some "cluster" ->
  _spark_exit_code h = None ->
  Forall (fun line => Re.search false exit_code_re (strip line) = None) out ->
  _build_spark_submit_command krb app (start h) = (Ok cmd, st0) ->
  exists st1,
    submit_launch krb app (Launched out rc) (start h) = (Ok (cmd, rc), st1) /\
    _spark_exit_code (self st1) = None /\
    run (submit krb app (Launched out rc) polls) h =
      (Raise (AirflowException (submit_error_msg (self st1) cmd rc)), st1).
Proof.
  intros Hk Hd Hc Hall Hb.
  destruct (submit_launch_run krb app out rc _ _ _ Hb) as (st2 & Hp & Hl).
  apply build_command_keeps in Hb as ((_ & Hcn & _ & Hk0 & _) & Hc0 & _).
  simpl in *.
  assert (Hunset : _spark_exit_code (self st2) = None).
  { eapply exit_code_stays_unset_log; [| | exact Hall | | exact Hp]; simpl;
      congruence. }
  exists (after_wait rc st2). split; [exact Hl|]. split; [exact Hunset|].
  unfold run, submit. unfold bind at 1. rewrite Hl. simpl.
  destruct (process_submit_log_ok out (after_popen cmd st0)) as (st2' & Hp' & (_ & _ & _ & Hk2 & _)).
  rewrite Hp in Hp'. inversion Hp'; subst st2'. simpl in Hk2.
  unfold check_returncode, bind, get_self, submit_failed. simpl.
  rewrite Hunset, Hk2, Hk0, Hk.
  rewrite bool_decide_eq_false_2 by discriminate.
  rewrite orb_true_r. reflexivity.
Qed.


(** *** Driver id capture *)

Lemma truthy_nonempty d : d <> EmptyString -> truthy (Some d) = true.
Proof. destruct d; [congruence|reflexivity]. Qed.

(** A known driver id survives every further line. *)
Lemma driver_id_kept raw st st' :
  truthy (_driver_id (self st)) = true ->
  process_submit_line raw st = (Ok tt, st') ->
  _driver_id (self st') = _driver_id (self st).
Proof.
  destruct st as [h tr]. simpl. intros Ht.
  unfold process_submit_line. unfold_m. rewrite Ht. simpl.
  rewrite andb_false_r.
  break_search; intros H; inversion H; subst; reflexivity.
Qed.

Lemma driver_id_kept_log itr : forall st st',
  truthy (_driver_id (self st)) = true ->
  _process_spark_submit_log itr st = (Ok tt, st') ->
  _driver_id (self st') = _driver_id (self st).
Proof.
  induction itr as [|line rest IH]; intros st st' Ht; simpl.
  - intros H. inversion H; subst. reflexivity.
  - unfold bind.
    destruct (process_submit_line_ok line st) as (st1 & Hp & _).
    rewrite Hp. intros H.
    pose proof (driver_id_kept _ _ _ Ht Hp) as Hk.
    rewrite <- Hk. apply IH; [rewrite Hk|]; assumption.
Qed.

(** A line without a driver id does not touch the stored one. *)
Lemma driver_id_no_match raw st st' :
  Re.search false driver_id_re (strip raw) = None ->
  process_submit_line raw st = (Ok tt, st') ->
  _driver_id (self st') = _driver_id (self st).
Proof.
  destruct st as [h tr]. simpl. intros Hs.
  unfold process_submit_line. unfold_m. rewrite Hs.
  break_search; intros H; inversion H; subst; reflexivity.
Qed.

(** On a standalone target that tracks the driver, a line with a driver
    id sets it while none is known. *)
Lemma driver_id_captured raw st st' mo :
  _should_track_driver_status (self st) = true ->
  _is_yarn (self st) = false ->
  _is_kubernetes (self st) = false ->
  truthy (_driver_id (self st)) = false ->
  Re.search false driver_id_re (strip raw) = Some mo ->
  process_submit_line raw st = (Ok tt, st') ->
  _driver_id (self st') = Some (Re.m_whole mo).
Proof.
  destruct st as [h tr]. simpl. intros Ht Hy Hk Hd Hs.
  unfold process_submit_line. unfold_m. rewrite Ht, Hy, Hk, Hd, Hs. simpl.
  intros H; inversion H; subst; reflexivity.
Qed.

(** C6: on a standalone-cluster target with driver-status tracking the
    first line that carries a driver id decides the stored driver id; the
    lines after it cannot overwrite it. *)
Theorem driver_id_first_match_wins h pre line post d :
  _should_track_driver_status h = true ->
  _is_yarn h = false ->
  _is_kubernetes h = false ->
  truthy (_driver_id h) = false ->
  Forall (fun l => Re.search false driver_id_re (strip l) = None) pre ->
  option_map Re.m_whole (Re.search false driver_id_re (strip line)) = Some d ->
  fst (run (_process_spark_submit_log (pre ++ line :: post)) h) = Ok tt /\
  _driver_id (self (snd (run (_process_spark_submit_log (pre ++ line :: post)) h)))
    = Some d.
Proof.
  unfold run.
  assert (Hgen : forall st,
    _should_track_driver_status (self st) = true ->
    _is_yarn (self st) = false ->
    _is_kubernetes (self st) = false ->
    truthy (_driver_id (self st)) = false ->
    Forall (fun l => Re.search false driver_id_re (strip l) = None) pre ->
    option_map Re.m_whole (Re.search false driver_id_re (strip line)) = Some d ->
    fst (_process_spark_submit_log (pre ++ line :: post) st) = Ok tt /\
    _driver_id (self (snd (_process_spark_submit_log (pre ++ line :: post) st)))
      = Some d).
  { clear h. induction pre as [|l pre IH]; intros st Ht Hy Hk Hd Hall Hm.
    - simpl. unfold bind.
      destruct (process_submit_line_ok line st) as (st1 & Hp & _). rewrite Hp.
      destruct (process_submit_log_ok post st1) as (st2 & Hq & _). rewrite Hq.
      simpl. split; [reflexivity|].
      destruct (Re.search false driver_id_re (strip line)) as [mo|] eqn:Hs;
        [|discriminate].
      simpl in Hm. inversion Hm; subst d.
      pose proof (driver_id_captured _ _ _ _ Ht Hy Hk Hd Hs Hp) as Hc.
      rewrite <- Hc. eapply driver_id_kept_log; [|exact Hq].
      rewrite Hc. apply truthy_nonempty.
      eapply search_nonempty; [|exact Hs]. reflexivity.
    - inversion Hall as [|? ? Hl Hrest]; subst.
      simpl. unfold bind.
      destruct (process_submit_line_ok l st) as (st1 & Hp & (_ & _ & Hy1 & Hk1 & Ht1)).
      rewrite Hp.
      pose proof (driver_id_no_match _ _ _ Hl Hp) as Hn.
      apply IH; try assumption; congruence. }
  intros. apply (Hgen (start h)); assumption.
Qed.

End Submission.

(** ** The status classifier *)

Section StatusLog.

Import PyStr Spark Specs.

Lemma rstrip_all_space ws : all_space ws = true -> rstrip ws = EmptyString.
Proof.
  induction ws as [|c ws IH]; simpl; [reflexivity|].
  intros H. apply andb_true_iff in H. destruct H as [Hc Hws].
  rewrite (IH Hws), Hc. reflexivity.
Qed.

Lemma lstrip_app_space ws s : all_space ws = true -> lstrip (ws +:+ s) = lstrip s.
Proof.
  induction ws as [|c ws IH]; simpl; [reflexivity|].
  intros H. apply andb_true_iff in H. destruct H as [Hc Hws].
  rewrite Hc. apply IH, Hws.
Qed.

Lemma rstrip_app_space s ws : all_space ws = true -> rstrip (s +:+ ws) = rstrip s.
Proof.
  intros H. induction s as [|c s IH]; simpl.
  - apply rstrip_all_space, H.
  - rewrite IH. reflexivity.
Qed.

Lemma strip_padded ws1 core ws2 :
  all_space ws1 = true -> all_space ws2 = true ->
  strip (ws1 +:+ core +:+ ws2) = strip (core +:+ ws2).
Proof. intros H1 H2. unfold strip. rewrite lstrip_app_space by assumption. reflexivity. Qed.

Lemma strip_finished_field ws1 ws2 :
  all_space ws1 = true -> all_space ws2 = true ->
  strip (ws1 +:+ finished_field +:+ ws2) = finished_field.
Proof.
  intros H1 H2. rewrite strip_padded by assumption.
  unfold strip.
  assert (Hl : lstrip (finished_field +:+ ws2) = finished_field +:+ ws2)
    by reflexivity.
  rewrite Hl. rewrite rstrip_app_space by assumption.
  vm_compute. reflexivity.
Qed.

Ltac unfold_m :=
  unfold bind, get_self, update, emit, ret, raise, pending, when in *; simpl in *.

(** The line of a finished driver sets the status and the flag
    [driver_found]. *)
Lemma status_line_finished ws1 ws2 flags st :
  all_space ws1 = true -> all_space ws2 = true ->
  status_line (ws1 +:+ finished_field +:+ ws2) flags st =
    (Ok (true, snd flags),
     {| self := set_driver_status (Some "FINISHED") (self st);
        trace := (trace st ++ [EvLog ("spark driver status log: " +:+ finished_field)])%list |}).
Proof.
  intros H1 H2. unfold status_line.
  rewrite strip_finished_field by assumption.
  reflexivity.
Qed.

(** Lines without a [driverState] field leave the status alone and only
    collect the [submissionId] marker. *)
Lemma status_lines_quiet itr : forall flags st,
  Forall (fun l => contains "driverState" (strip l) = false) itr ->
  status_lines itr flags st =
    (Ok (fst flags,
         existsb (fun l => contains "submissionId" (strip l)) itr || snd flags),
     {| self := self st; trace := (trace st ++ status_log_of itr)%list |}).
Proof.
  induction itr as [|raw rest IH]; intros flags st Hall; simpl.
  - unfold ret. rewrite app_nil_r. destruct flags, st; reflexivity.
  - inversion Hall as [|? ? Hraw Hrest]; subst.
    unfold bind at 1. unfold status_line. rewrite Hraw. unfold_m.
    rewrite IH by assumption. simpl.
    rewrite <- app_assoc. simpl.
    rewrite orb_assoc.
    rewrite (orb_comm (existsb _ rest)). reflexivity.
Qed.


Lemma status_lines_app a b : forall flags st,
  status_lines (a ++ b) flags st =
    bind (status_lines a flags) (status_lines b) st.
Proof.
  induction a as [|raw a IH]; intros flags st; simpl.
  - reflexivity.
  - unfold bind.
    destruct (status_line raw flags st) as [[f|e|] st1]; try reflexivity.
    rewrite IH. reflexivity.
Qed.

(** C7, as amended: a response in which the [driverState] field of a
    finished driver stands alone on its line, blanks around it aside, and
    no other line names [driverState], stores the status [FINISHED]; a
    response with a [submissionId] marker and no [driverState] line stores
    [UNKNOWN], whatever the status was. *)
Theorem status_log_classifier pre ws1 ws2 post itr st :
  all_space ws1 = true -> all_space ws2 = true ->
  Forall (fun l => contains "driverState" (strip l) = false) pre ->
  Forall (fun l => contains "driverState" (strip l) = false) post ->
  Forall (fun l => contains "driverState" (strip l) = false) itr ->
  Exists (fun l => contains "submissionId" (strip l) = true) itr ->
  (exists st',
     _process_spark_status_log (pre ++ (ws1 +:+ finished_field +:+ ws2) :: post) st
       = (Ok tt, st') /\
     _driver_status (self st') = Some "FINISHED") /\
  (exists st',
     _process_spark_status_log itr st = (Ok tt, st') /\
     _driver_status (self st') = Some "UNKNOWN").
Proof.
  intros H1 H2 Hpre Hpost Hitr Hmark. split.
  - unfold _process_spark_status_log. unfold bind at 1.
    rewrite status_lines_app. unfold bind at 1.
    rewrite status_lines_quiet by assumption. simpl status_lines.
    unfold bind at 1. rewrite status_line_finished by assumption.
    rewrite status_lines_quiet by assumption. simpl.
    unfold when, ret. rewrite andb_false_r. eexists. split; reflexivity.
  - unfold _process_spark_status_log. unfold bind at 1.
    rewrite status_lines_quiet by assumption. simpl.
    assert (Hex : existsb (fun l => contains "submissionId" (strip l)) itr = true).
    { apply existsb_exists. apply Exists_exists in Hmark.
      destruct Hmark as (l & Hin & Hl). exists l.
      split; [apply list_elem_of_In, Hin|assumption]. }
    rewrite Hex. simpl. unfold update. simpl. eexists. split; reflexivity.
Qed.

End StatusLog.

(** ** The poll loop *)

Section PollLoop.

Import PyStr Spark Specs.

Ltac unfold_m :=
  unfold bind, get_self, update, emit, ret, raise, pending, when in *; simpl in *.

(** The status classifier assigns [self._driver_status] and nothing
    else. *)
Lemma status_line_only_status raw flags st r st' :
  status_line raw flags st = (r, st') ->
  _driver_id (self st') = _driver_id (self st) /\
  _connection (self st') = _connection (self st) /\
  args (self st') = args (self st).
Proof.
  destruct st as [h tr]. unfold status_line. unfold_m.
  destruct (contains "driverState" (strip raw));
    [destruct (parse_driver_state (strip raw))|];
    intros H; inversion H; subst; simpl; auto.
Qed.

Lemma status_lines_only_status itr : forall flags st r st',
  status_lines itr flags st = (r, st') ->
  _driver_id (self st') = _driver_id (self st) /\
  _connection (self st') = _connection (self st) /\
  args (self st') = args (self st).
Proof.
  induction itr as [|raw rest IH]; intros flags st r st'; simpl.
  - intros H. inversion H; subst. auto.
  - unfold bind.
    destruct (status_line raw flags st) as [[f|e|] st1] eqn:Hl;
      apply status_line_only_status in Hl; intros H.
    + apply IH in H. destruct H as (?&?&?), Hl as (?&?&?).
      repeat split; congruence.
    + inversion H; subst. assumption.
    + inversion H; subst. assumption.
Qed.

Lemma status_log_only_status itr st r st' :
  _process_spark_status_log itr st = (r, st') ->
  _driver_id (self st') = _driver_id (self st) /\
  _connection (self st') = _connection (self st) /\
  args (self st') = args (self st).
Proof.
  unfold _process_spark_status_log. unfold bind.
  destruct (status_lines itr (false, false) st) as [[f|e|] st1] eqn:Hl;
    apply status_lines_only_status in Hl; intros H.
  - unfold when in H.
    destruct (snd f && negb (fst f)); unfold update, ret in H;
      inversion H; subst; simpl; assumption.
  - inversion H; subst. assumption.
  - inversion H; subst. assumption.
Qed.

(** With a known driver id and a binary the status-check command is
    built and all its tokens are strings. *)
Lemma build_track_ok st :
  pollable (self st) ->
  exists cmd tokens,
    _build_track_driver_status_command st = (Ok cmd, st) /\
    all_tokens cmd = Some tokens.
Proof.
  destruct st as [h tr]. unfold pollable. simpl. intros (Hid & (b & Hb)).
  unfold _build_track_driver_status_command, _get_spark_binary_path. unfold_m.
  rewrite Hid, Hb. simpl.
  destruct (_driver_id h) as [d|]; [|discriminate].
  destruct (endswith ":6066" (master (_connection h)));
    eexists _, _; split; reflexivity.
Qed.


Lemma count_failed_nonneg polls : 0 <= count_failed polls.
Proof.
  induction polls as [|child rest IH]; simpl; [lia|].
  destruct (failed child); lia.
Qed.

(** One round of the loop on a status check that keeps polling. *)
Lemma poll_loop_round out returncode rest missed st :
  pollable (self st) ->
  is_terminal (_driver_status (self st)) = false ->
  keeps_polling (Launched out returncode) ->
  exists st',
    pollable (self st') /\
    is_terminal (_driver_status (self st')) = false /\
    poll_loop (Launched out returncode :: rest) missed st =
      if negb (returncode =? 0) then
        if missed <? max_missed_job_status_reports
        then poll_loop rest (missed + 1) st'
        else (Raise (poll_error returncode), st')
      else poll_loop rest missed st'.
Proof.
  intros Hp Ht (out' & rc' & Heq & Hkeep). inversion Heq; subst out' rc'; clear Heq.
  set (st1 := {| self := self st;
                 trace := (trace st ++ [EvSleep (_status_poll_interval (args (self st)))])%list |}).
  destruct (build_track_ok st1 Hp) as (cmd & tokens & Hb & Htok).
  set (st2 := {| self := self st1;
                 trace := (trace st1 ++ [EvPopen tokens None])%list |}).
  destruct (Hkeep st2 Ht) as (st' & Hlog & Ht').
  exists st'. split; [|split; [exact Ht'|]].
  - apply status_log_only_status in Hlog. destruct Hlog as (Hid & Hcn & _).
    unfold pollable in *. simpl in *. rewrite Hid, Hcn. exact Hp.
  - simpl poll_loop. unfold bind at 1. unfold get_self at 1. rewrite Ht.
    unfold bind at 1. unfold emit at 1. fold st1.
    unfold bind at 1. rewrite Hb.
    unfold bind at 1. unfold popen. rewrite Htok.
    unfold bind at 1. unfold emit at 1. fold st2. unfold ret at 1.
    unfold bind at 1. cbn [fst snd]. rewrite Hlog. cbn [fst snd].
    destruct (negb (returncode =? 0)); [|reflexivity].
    destruct (missed <? max_missed_job_status_reports); reflexivity.
Qed.

(** In a run of status checks that keep polling, the loop gives up on a
    failed check exactly when ten failed checks have been counted before
    it; successful checks in between do not reset the count. *)
Lemma poll_loop_budget polls : forall missed st,
  0 <= missed <= max_missed_job_status_reports ->
  pollable (self st) ->
  is_terminal (_driver_status (self st)) = false ->
  Forall keeps_polling polls ->
  (missed + count_failed polls <= max_missed_job_status_reports ->
   fst (poll_loop polls missed st) = Pending) /\
  (max_missed_job_status_reports < missed + count_failed polls ->
   exists returncode, fst (poll_loop polls missed st) = Raise (poll_error returncode)).
Proof.
  unfold max_missed_job_status_reports.
  induction polls as [|child rest IH]; intros missed st Hm Hp Ht Hall.
  - simpl. unfold bind, get_self. rewrite Ht. simpl. split; [reflexivity|lia].
  - inversion Hall as [|? ? Hchild Hrest]; subst.
    destruct Hchild as (out & rc & -> & Hkeep).
    destruct (poll_loop_round out rc rest missed st Hp Ht) as (st' & Hp' & Ht' & Heq).
    { exists out, rc. split; [reflexivity|exact Hkeep]. }
    rewrite Heq. unfold max_missed_job_status_reports.
    simpl count_failed.
    destruct (negb (rc =? 0)) eqn:Hrc.
    + destruct (missed <? 10) eqn:Hlt.
      * apply Z.ltb_lt in Hlt.
        destruct (IH (missed + 1) st' ltac:(lia) Hp' Ht' Hrest) as [IH1 IH2].
        split; intros H; [apply IH1|apply IH2]; lia.
      * apply Z.ltb_ge in Hlt. split; [intros H|intros _].
        -- pose proof (count_failed_nonneg rest). lia.
        -- exists rc. reflexivity.
    + destruct (IH missed st' Hm Hp' Ht' Hrest) as [IH1 IH2].
      split; intros H; [apply IH1|apply IH2]; lia.
Qed.


(** C2, as amended: in a run of status checks that keep polling, failed
    checks are retried as long as at most ten of them have occurred since
    tracking began, and the loop raises [AirflowException] at the eleventh
    failed check; the count runs over all checks, so successful checks in
    between do not reset it. *)
Theorem poll_budget_is_cumulative h polls :
  pollable h ->
  is_terminal (_driver_status h) = false ->
  Forall keeps_polling polls ->
  (count_failed polls <= 10 ->
   fst (run (_start_driver_status_tracking polls) h) = Pending) /\
  (10 < count_failed polls ->
   exists returncode,
     fst (run (_start_driver_status_tracking polls) h) =
       Raise (poll_error returncode)).
Proof.
  intros Hp Ht Hall. unfold run, _start_driver_status_tracking.
  apply (poll_loop_budget polls 0 (start h)); try assumption.
  unfold max_missed_job_status_reports. lia.
Qed.

End PollLoop.

Section PollLoopExamples.

Import PyStr Spark Specs Fixtures.

Lemma check_fails_keeps_polling : keeps_polling check_fails.
Proof.
  exists [], 1. split; [reflexivity|]. intros st Ht.
  exists st. split; [destruct st; reflexivity|exact Ht].
Qed.

Lemma check_running_keeps_polling : keeps_polling check_running.
Proof.
  eexists _, _. split; [reflexivity|]. intros st Ht.
  eexists. split; reflexivity.
Qed.

Lemma eleven_scattered_keep_polling : Forall keeps_polling eleven_scattered_failures.
Proof.
  unfold eleven_scattered_failures. simpl.
  repeat (constructor;
          [first [apply check_fails_keeps_polling|apply check_running_keeps_polling]|]).
  constructor.
Qed.

(** The eleventh failure ends the loop although no two failures are
    consecutive. *)
Lemma poll_budget_is_cumulative_witness :
  pollable tracking_hook /\
  is_terminal (_driver_status tracking_hook) = false /\
  10 < count_failed eleven_scattered_failures /\
  exists returncode,
    fst (run (_start_driver_status_tracking eleven_scattered_failures) tracking_hook)
      = Raise (poll_error returncode).
Proof.
  assert (Hp : pollable tracking_hook) by (split; [reflexivity|eexists; reflexivity]).
  assert (Ht : is_terminal (_driver_status tracking_hook) = false) by reflexivity.
  assert (Hc : 10 < count_failed eleven_scattered_failures) by (vm_compute; reflexivity).
  split; [exact Hp|]. split; [exact Ht|]. split; [exact Hc|].
  exact (proj2 (poll_budget_is_cumulative tracking_hook eleven_scattered_failures
                  Hp Ht eleven_scattered_keep_polling) Hc).
Defined.

(** C2, counterexample: after ten consecutive failed status checks the
    loop is still polling and ends normally on a finished driver; and with
    a successful check after each failure the eleventh failure still
    raises, so the budget is not reset. *)
Lemma poll_budget_counterexample :
  fst (run (_start_driver_status_tracking ten_failures_then_finished) tracking_hook)
    = Ok tt /\
  fst (run (_start_driver_status_tracking eleven_scattered_failures) tracking_hook)
    = Raise (poll_error 1).
Proof. split; vm_compute; reflexivity. Qed.

End PollLoopExamples.


(** ** Cancellation *)

Section Cancellation.

Import PyStr Spark Specs.

Ltac unfold_m :=
  unfold bind, get_self, update, emit, ret, raise, pending, when in *; simpl in *.

Lemma all_tokens_map_Some l : all_tokens (map Some l) = Some l.
Proof. induction l as [|x l IH]; simpl; [reflexivity|]. rewrite IH. reflexivity. Qed.

Lemma kill_command_tokens h :
  is_Some (spark_binary (_connection h)) ->
  exists tokens, all_tokens (_build_spark_driver_kill_command h) = Some tokens.
Proof.
  intros (b & Hb). unfold _build_spark_driver_kill_command. rewrite Hb.
  destruct (_driver_id h) as [[|c d]|]; simpl; eexists; reflexivity.
Qed.

(** C9, as amended: when the kill commands can be started, the ticket
    renewal and the ccache lookup return, and the Kubernetes client raises
    nothing but [ApiException], [on_kill] returns normally and leaves the
    hook as it was; the exit code of the driver-kill command, the exit
    code of the YARN-kill command and the [ApiException] of the pod delete
    are logged, not raised. *)
Theorem on_kill_swallows_reported_failures h w out1 rc1 out2 rc2 ccache :
  w_driver_kill w = Launched out1 rc1 ->
  w_yarn_kill w = Launched out2 rc2 ->
  w_renew w = None ->
  w_ccache w = Some ccache ->
  (forall e, w_k8s w <> ClientFails e) ->
  is_Some (spark_binary (_connection h)) ->
  exists tr,
    run (on_kill w) h = (Ok tt, {| self := h; trace := tr |}) /\
    (_should_track_driver_status h && truthy (_driver_id h) = true ->
     In (EvLog ("Spark driver " +:+ default "" (_driver_id h) +:+
                " killed with return code: " +:+ str_of_Z rc1)) tr) /\
    (still_running (_submit_sp h) && truthy (_yarn_application_id h) = true ->
     In (EvLog ("YARN app killed with return code: " +:+ str_of_Z rc2)) tr) /\
    (still_running (_submit_sp h) && truthy (_kubernetes_driver_pod h) = true ->
     w_k8s w = ApiFails ->
     In (EvLog "Exception when attempting to kill Spark on K8s") tr).
Proof.
  intros Hd Hy Hr Hc Hk Hb.
  destruct (kill_command_tokens h Hb) as (tokens & Htok).
  unfold run, start, on_kill, delete_pod, catch_api, popen. unfold_m.
  rewrite Hd, Hy, Hr, Hc, Htok, all_tokens_map_Some.
  destruct (_should_track_driver_status h && truthy (_driver_id h));
    destruct (still_running (_submit_sp h));
    destruct (truthy (_yarn_application_id h));
    destruct (keytab (_connection h)); destruct (principal (_connection h));
    destruct (truthy (_kubernetes_driver_pod h));
    destruct (w_k8s w) as [resp| |e] eqn:Hw;
    try (exfalso; eapply Hk; reflexivity);
    simpl; eexists; (split; [reflexivity|]); simpl;
    (repeat split; intros; try discriminate; auto 20).
Qed.

End Cancellation.

(** ** Keytab materialisation *)

Section Keytab.

Import PyStr Spark Specs.

Lemma append_cancel_l (p a b : string) : p +:+ a = p +:+ b -> a = b.
Proof.
  induction p as [|c p IH]; simpl; intros H; [assumption|].
  inversion H. auto.
Qed.

(** The staging file is never the keytab file: after the directory one
    name starts with a dot, the other with [airflow_keytab-]. *)
Lemma staging_is_not_target tmp principal uuid :
  staging_path_of tmp principal uuid <> keytab_path_of tmp principal uuid.
Proof.
  unfold staging_path_of, keytab_path_of, path_join, keytab_file_name.
  intros H. apply append_cancel_l in H. simpl in H. discriminate.
Qed.

(** With a principal the target path does not depend on the random
    identifier. *)
Lemma keytab_path_of_principal tmp p uuid uuid' :
  p <> EmptyString ->
  keytab_path_of tmp (Some p) uuid = keytab_path_of tmp (Some p) uuid'.
Proof.
  intros Hp. unfold keytab_path_of, keytab_file_name.
  destruct p; [congruence|reflexivity].
Qed.

(** A call that finds the decoded keytab at the target path returns the
    path and touches nothing. *)
Lemma keytab_present tmp uuid fault fs b64 principal kt :
  Base64.b64decode b64 = Some kt ->
  fs !! keytab_path_of tmp principal uuid = Some kt ->
  _create_keytab_path_from_base64_keytab tmp uuid fault fs b64 principal =
    (Ok (keytab_path_of tmp principal uuid), fs, []).
Proof.
  intros Hd Hf. unfold _create_keytab_path_from_base64_keytab.
  rewrite Hd. rewrite bool_decide_eq_true_2 by assumption. reflexivity.
Qed.

(** A call that writes without a fault. *)
Lemma keytab_written tmp uuid fs b64 principal kt :
  Base64.b64decode b64 = Some kt ->
  fs !! keytab_path_of tmp principal uuid <> Some kt ->
  _create_keytab_path_from_base64_keytab tmp uuid NoFault fs b64 principal =
    (Ok (keytab_path_of tmp principal uuid),
     <[keytab_path_of tmp principal uuid := kt]>
       (delete (staging_path_of tmp principal uuid) fs),
     [OpWrite (staging_path_of tmp principal uuid) kt;
      OpMove (staging_path_of tmp principal uuid) (keytab_path_of tmp principal uuid)]).
Proof.
  intros Hd Hf. unfold _create_keytab_path_from_base64_keytab.
  rewrite Hd. rewrite bool_decide_eq_false_2 by assumption.
  pose proof (staging_is_not_target tmp principal uuid) as Hne.
  unfold cleanup_staging.
  rewrite lookup_insert_ne by congruence.
  rewrite delete_insert_eq. rewrite lookup_delete_eq. simpl. reflexivity.
Qed.

(** A call that meets a fault while writing. *)
Lemma keytab_fault tmp uuid fault fs b64 principal kt :
  Base64.b64decode b64 = Some kt ->
  fs !! keytab_path_of tmp principal uuid <> Some kt ->
  fault <> NoFault ->
  exists ops,
    _create_keytab_path_from_base64_keytab tmp uuid fault fs b64 principal =
      (Raise (AirflowException "Failed to save keytab"),
       delete (staging_path_of tmp principal uuid) fs, ops).
Proof.
  intros Hd Hf Hfault. unfold _create_keytab_path_from_base64_keytab.
  rewrite Hd. rewrite bool_decide_eq_false_2 by assumption.
  unfold cleanup_staging.
  destruct fault as [| |written|]; [congruence| | |].
  - destruct (fs !! staging_path_of tmp principal uuid) eqn:Hs; simpl.
    + eexists; reflexivity.
    + rewrite delete_id by assumption. eexists; reflexivity.
  - rewrite lookup_insert_eq. rewrite delete_insert_eq. eexists; reflexivity.
  - rewrite lookup_insert_eq. rewrite delete_insert_eq. eexists; reflexivity.
Qed.


(** C4: with a principal, materialising the same base64 blob twice leaves
    one keytab file at the target path.  The first call returns the path
    with the decoded keytab stored there and creates no other file; the
    second call, whatever its random identifier and whatever would go
    wrong on a write, returns the same path without any mutation of the
    files.  A call in which the write fails raises [AirflowException],
    leaves no staging file and leaves the target path exactly as it
    was. *)
Theorem keytab_materialisation_idempotent tmp uuid1 uuid2 fault2 fs b64 p kt :
  p <> EmptyString ->
  Base64.b64decode b64 = Some kt ->
  let target := keytab_path_of tmp (Some p) uuid1 in
  let staging := staging_path_of tmp (Some p) uuid1 in
  (exists fs1 ops1,
     _create_keytab_path_from_base64_keytab tmp uuid1 NoFault fs b64 (Some p)
       = (Ok target, fs1, ops1) /\
     fs1 !! target = Some kt /\
     (forall q, q <> target -> fs1 !! q = fs !! q \/ fs1 !! q = None) /\
     _create_keytab_path_from_base64_keytab tmp uuid2 fault2 fs1 b64 (Some p)
       = (Ok target, fs1, [])) /\
  (forall fault, fault <> NoFault -> fs !! target <> Some kt ->
   exists fs' ops,
     _create_keytab_path_from_base64_keytab tmp uuid1 fault fs b64 (Some p)
       = (Raise (AirflowException "Failed to save keytab"), fs', ops) /\
     fs' !! staging = None /\
     fs' !! target = fs !! target).
Proof.
  intros Hp Hd target staging.
  pose proof (staging_is_not_target tmp (Some p) uuid1) as Hne.
  fold target staging in Hne.
  assert (Hsecond : forall fs1, fs1 !! target = Some kt ->
            _create_keytab_path_from_base64_keytab tmp uuid2 fault2 fs1 b64 (Some p)
              = (Ok target, fs1, [])).
  { intros fs1 H1. unfold target in *.
    rewrite (keytab_path_of_principal tmp p uuid1 uuid2 Hp) in *.
    apply (keytab_present _ _ _ _ _ _ kt); assumption. }
  split.
  - destruct (decide (fs !! target = Some kt)) as [Hin|Hout].
    + exists fs, []. split; [apply (keytab_present _ _ _ _ _ _ kt); assumption|].
      split; [assumption|].
      split; [intros q _; left; reflexivity|apply Hsecond, Hin].
    + eexists _, _. split; [apply (keytab_written _ _ _ _ _ kt); assumption|].
      fold target staging.
      split; [apply lookup_insert_eq|].
      split.
      * intros q Hq. rewrite lookup_insert_ne by congruence.
        destruct (decide (q = staging)) as [->|Hqs].
        -- right. apply lookup_delete_eq.
        -- left. apply lookup_delete_ne. congruence.
      * apply Hsecond. apply lookup_insert_eq.
  - intros fault Hfault Hout.
    destruct (keytab_fault tmp uuid1 fault fs b64 (Some p) kt Hd Hout Hfault) as (ops & Heq).
    eexists _, _. split; [exact Heq|]. fold staging target.
    split; [apply lookup_delete_eq|].
    apply lookup_delete_ne. assumption.
Qed.

End Keytab.

(** ** Connection resolution *)

Section Resolution.

Import PyStr Spark Specs.

(** The materialiser returns a path or raises [AirflowException]. *)
Lemma create_keytab_outcomes tmp uuid fault fs b64 principal :
  let r := _create_keytab_path_from_base64_keytab tmp uuid fault fs b64 principal in
  (exists path, fst (fst r) = Ok path) \/
  (exists msg, fst (fst r) = Raise (AirflowException msg)).
Proof.
  unfold _create_keytab_path_from_base64_keytab.
  destruct (Base64.b64decode b64) as [kt|]; [|right; eexists; reflexivity].
  destruct (bool_decide _); [left; eexists; reflexivity|].
  unfold cleanup_staging.
  destruct fault; simpl;
    repeat match goal with
           | |- context [match ?x with Some _ => _ | None => _ end] => destruct x
           end; simpl; eauto.
Qed.

Lemma namespace_from_conf_keeps conf cd :
  queue (namespace_from_conf conf cd) = queue cd /\
  deploy_mode (namespace_from_conf conf cd) = deploy_mode cd /\
  spark_binary (namespace_from_conf conf cd) = spark_binary cd /\
  principal (namespace_from_conf conf cd) = principal cd /\
  keytab (namespace_from_conf conf cd) = keytab cd.
Proof.
  unfold namespace_from_conf.
  destruct (conf_get conf "spark.kubernetes.namespace"); simpl; auto.
Qed.

(** C8, as amended: when the caller supplies no binary and the
    [spark-binary] entry of the connection extras is a string outside the
    allowed set, resolution raises [RuntimeError]. *)
Theorem extras_binary_is_validated a c tmp uuid fault fs b :
  truthy (arg_spark_binary a) = false ->
  extra_dejson c !! "spark-binary" = Some (Some b) ->
  allowed_binary b = false ->
  r_out (_resolve_connection a (Some c) tmp uuid fault fs) =
    Raise (binary_error b).
Proof.
  intros Ha He Hb. unfold _resolve_connection, extra_get_default.
  rewrite Ha, He, Hb. reflexivity.
Qed.


(** What a loaded connection resolves to, field by field. *)
Lemma resolve_loaded a c tmp uuid fault fs cd :
  r_out (_resolve_connection a (Some c) tmp uuid fault fs) = Ok cd ->
  let extra := extra_dejson c in
  let principal1 :=
    match _principal a with
    | None => extra_get extra "principal"
    | Some p => Some p
    end in
  queue cd = (if truthy (_yarn_queue a) then _yarn_queue a
              else extra_get extra "queue") /\
  deploy_mode cd = (if truthy (_deploy_mode a) then _deploy_mode a
                    else extra_get extra "deploy-mode") /\
  spark_binary cd = (if truthy (arg_spark_binary a) then arg_spark_binary a
                     else extra_get_default extra "spark-binary" DEFAULT_SPARK_BINARY) /\
  principal cd = principal1 /\
  keytab cd = match _keytab a with
              | Some kt => Some kt
              | None => materialised tmp uuid fault fs principal1
                          (extra_get extra "keytab")
              end.
Proof.
  unfold _resolve_connection. cbv zeta.
  destruct (_ && _); [discriminate|].
  destruct (truthy (extra_get (extra_dejson c) "spark-home")); [discriminate|].
  destruct (_keytab a) as [kt|].
  - simpl. intros H. inversion H; subst; clear H.
    pose proof (namespace_from_conf_keeps (_conf a)) as Hk.
    repeat match goal with |- context [namespace_from_conf ?c ?d] =>
      let H := fresh in
      pose proof (Hk d) as H; simpl in H; destruct H as (-> & -> & -> & -> & ->);
      clear Hk end.
    repeat split.
  - unfold materialised.
    destruct (extra_get (extra_dejson c) "keytab") as [b64|].
    + destruct (_create_keytab_path_from_base64_keytab _ _ _ _ _ _)
        as [[[path|e|] fs'] ops]; [| destruct e |]; simpl;
        intros H; inversion H; subst; clear H;
        pose proof (namespace_from_conf_keeps (_conf a)) as Hk;
        repeat match goal with |- context [namespace_from_conf ?c ?d] =>
          let H := fresh in
          pose proof (Hk d) as H; simpl in H; destruct H as (-> & -> & -> & -> & ->);
          clear Hk end;
        repeat split.
    + simpl. intros H. inversion H; subst; clear H.
      pose proof (namespace_from_conf_keeps (_conf a)) as Hk.
      repeat match goal with |- context [namespace_from_conf ?c ?d] =>
        let H := fresh in
        pose proof (Hk d) as H; simpl in H; destruct H as (-> & -> & -> & -> & ->);
        clear Hk end.
      repeat split.
Qed.


Lemma precedence_extra_get supplied explicit extra key :
  precedence supplied explicit (extra !! key) None =
    if supplied then explicit else extra_get extra key.
Proof.
  unfold precedence, extra_get. destruct supplied; [reflexivity|].
  destruct (extra !! key); reflexivity.
Qed.

(** C3, as amended: when the connection loads and resolution returns,
    queue, deploy mode, spark binary and principal are the explicit value
    if one was supplied (a non-empty string for queue, deploy mode and
    binary; anything but [None] for principal and keytab), otherwise the
    entry of the connection extras, otherwise the default ([None]; for the
    binary [spark-submit]); the keytab is the explicit value, otherwise the
    path of the file materialised from the keytab entry of the extras,
    otherwise [None].  When the connection does not load, binary,
    principal and keytab are the explicit value or the default. *)
Theorem resolution_precedence a c tmp uuid fault fs cd :
  r_out (_resolve_connection a (Some c) tmp uuid fault fs) = Ok cd ->
  let extra := extra_dejson c in
  (queue cd =
     precedence (truthy (_yarn_queue a)) (_yarn_queue a) (extra !! "queue") None /\
   deploy_mode cd =
     precedence (truthy (_deploy_mode a)) (_deploy_mode a)
       (extra !! "deploy-mode") None /\
   spark_binary cd =
     precedence (truthy (arg_spark_binary a)) (arg_spark_binary a)
       (extra !! "spark-binary") (Some DEFAULT_SPARK_BINARY) /\
   principal cd =
     precedence (is_not_None (_principal a)) (_principal a)
       (extra !! "principal") None /\
   keytab cd =
     precedence (is_not_None (_keytab a)) (_keytab a)
       (materialised tmp uuid fault fs (principal cd) <$> extra !! "keytab")
       None) /\
  (exists cd0,
     r_out (_resolve_connection a None tmp uuid fault fs) = Ok cd0 /\
     spark_binary cd0 =
       precedence (truthy (arg_spark_binary a)) (arg_spark_binary a) None
         (Some DEFAULT_SPARK_BINARY) /\
     principal cd0 =
       precedence (is_not_None (_principal a)) (_principal a) None None /\
     keytab cd0 =
       precedence (is_not_None (_keytab a)) (_keytab a) None None).
Proof.
  intros H extra. split.
  - apply resolve_loaded in H. cbv zeta in H.
    destruct H as (Hq & Hd & Hb & Hp & Hk). fold extra in Hq, Hd, Hb, Hp, Hk.
    rewrite !precedence_extra_get.
    split; [exact Hq|]. split; [exact Hd|].
    split.
    { rewrite Hb. unfold precedence, extra_get_default.
      destruct (truthy (arg_spark_binary a)); [reflexivity|].
      destruct (extra !! "spark-binary"); reflexivity. }
    assert (Hp' : principal cd =
                  (if is_not_None (_principal a) then _principal a
                   else extra_get extra "principal")).
    { rewrite Hp. destruct (_principal a); reflexivity. }
    split; [exact Hp'|].
    rewrite Hk, Hp. unfold precedence, extra_get, materialised.
    destruct (_keytab a); [reflexivity|]. simpl.
    destruct (extra !! "keytab") as [[b64|]|]; reflexivity.
  - eexists. split; [reflexivity|]. simpl.
    pose proof (namespace_from_conf_keeps (_conf a)) as Hk.
    match goal with |- context [namespace_from_conf ?c ?d] =>
      pose proof (Hk d) as (_ & _ & -> & -> & ->) end.
    simpl. unfold precedence.
    destruct (arg_spark_binary a) as [[|? ?]|], (_principal a), (_keytab a);
      repeat split.
Qed.

End Resolution.

(** ** The statements at concrete inputs *)

Section Examples.

Import PyStr Spark Specs Fixtures.

(** *** Submission *)

(** A Kubernetes submission whose process exits with 0 while the log
    reports exit code 1. *)
Lemma submit_returncode_check_witness :
  submit_launch None "app.py" (Launched k8s_log_exit_1 0) (start k8s_hook)
    = (Ok (fst (fst k8s_launch_exit_1), 0), snd k8s_launch_exit_1) /\
  run (submit None "app.py" (Launched k8s_log_exit_1 0) []) k8s_hook
    = (Raise (AirflowException
                (submit_error_msg (self (snd k8s_launch_exit_1))
                                  (fst (fst k8s_launch_exit_1)) 0)),
       snd k8s_launch_exit_1).
Proof.
  assert (Hl : submit_launch None "app.py" (Launched k8s_log_exit_1 0) (start k8s_hook)
               = (Ok (fst (fst k8s_launch_exit_1), 0), snd k8s_launch_exit_1))
    by (vm_compute; reflexivity).
  split; [exact Hl|].
  apply (proj1 (proj2 (submit_returncode_check k8s_hook None "app.py"
                         k8s_log_exit_1 0 [] _ _ Hl)) eq_refl 1).
  - reflexivity.
  - lia.
Defined.

(** A Kubernetes submission in cluster mode whose log never mentions an
    exit code, with process exit code 0. *)
Lemma k8s_cluster_unset_exit_code_raises_witness :
  _is_kubernetes k8s_hook = true /\
  deploy_mode (_connection k8s_hook) = Some "cluster" /\
  _spark_exit_code k8s_hook = None /\
  Forall (fun line => Re.search false exit_code_re (strip line) = None)
         k8s_log_no_exit /\
  exists st1,
    _spark_exit_code (self st1) = None /\
    run (submit None "app.py" (Launched k8s_log_no_exit 0) []) k8s_hook =
      (Raise (AirflowException (submit_error_msg (self st1) (fst k8s_built) 0)), st1).
Proof.
  assert (Hall : Forall (fun line => Re.search false exit_code_re (strip line) = None)
                        k8s_log_no_exit)
    by (repeat constructor).
  assert (Hb : _build_spark_submit_command None "app.py" (start k8s_hook)
               = (Ok (fst k8s_built), snd k8s_built))
    by (vm_compute; reflexivity).
  repeat (split; [reflexivity || exact Hall|]).
  destruct (k8s_cluster_unset_exit_code_raises k8s_hook None "app.py"
              k8s_log_no_exit 0 [] _ _ eq_refl eq_refl eq_refl Hall Hb)
    as (st1 & _ & Hunset & Hrun).
  exists st1. split; [exact Hunset|exact Hrun].
Defined.

(** The two lines of the specification: the first driver id is kept. *)
Lemma driver_id_first_match_wins_witness :
  _should_track_driver_status standalone_hook = true /\
  _is_yarn standalone_hook = false /\
  _is_kubernetes standalone_hook = false /\
  truthy (_driver_id standalone_hook) = false /\
  _driver_id (self (snd (run (_process_spark_submit_log
                                ["driver-001 started"; "driver-002 started"])
                             standalone_hook)))
    = Some "driver-001".
Proof.
  repeat (split; [reflexivity|]).
  apply (driver_id_first_match_wins standalone_hook [] "driver-001 started"
           ["driver-002 started"] "driver-001");
    try reflexivity.
  constructor.
Defined.


(** *** Status classification *)

(** A response in the shape the REST server prints. *)
Lemma status_log_classifier_witness :
  all_space "  " = true /\ all_space "" = true /\
  Forall (fun l => contains "driverState" (strip l) = false) finished_response_head /\
  Forall (fun l => contains "driverState" (strip l) = false) finished_response_tail /\
  Forall (fun l => contains "driverState" (strip l) = false) stateless_response /\
  Exists (fun l => contains "submissionId" (strip l) = true) stateless_response /\
  (exists st',
     _process_spark_status_log
       (finished_response_head ++ ("  " +:+ finished_field +:+ "") :: finished_response_tail)
       (start tracking_hook) = (Ok tt, st') /\
     _driver_status (self st') = Some "FINISHED") /\
  (exists st',
     _process_spark_status_log stateless_response (start tracking_hook) = (Ok tt, st') /\
     _driver_status (self st') = Some "UNKNOWN").
Proof.
  assert (H1 : Forall (fun l => contains "driverState" (strip l) = false)
                      finished_response_head) by (repeat constructor).
  assert (H2 : Forall (fun l => contains "driverState" (strip l) = false)
                      finished_response_tail) by (repeat constructor).
  assert (H3 : Forall (fun l => contains "driverState" (strip l) = false)
                      stateless_response) by (repeat constructor).
  assert (H4 : Exists (fun l => contains "submissionId" (strip l) = true)
                      stateless_response)
    by (apply Exists_cons_tl, Exists_cons_hd; reflexivity).
  split; [reflexivity|]. split; [reflexivity|].
  split; [exact H1|]. split; [exact H2|]. split; [exact H3|]. split; [exact H4|].
  exact (status_log_classifier finished_response_head "  " "" finished_response_tail
           stateless_response (start tracking_hook) eq_refl eq_refl H1 H2 H3 H4).
Defined.

(** C7, counterexample: the status line as the specification writes it,
    and a response printed on one line, do not store [FINISHED]: the text
    after the state stays in the stored status. *)
Lemma status_line_counterexample :
  _driver_status (self (snd (run (_process_spark_status_log [status_line_with_dots])
                                 tracking_hook)))
    = Some "FINISHED ..." /\
  _driver_status (self (snd (run (_process_spark_status_log [status_on_one_line])
                                 tracking_hook)))
    = Some "SubmissionStatusResponse driverState".
Proof. split; vm_compute; reflexivity. Qed.

(** *** Cancellation *)

(** Every teardown step fails in the way the hook expects. *)
Lemma on_kill_swallows_reported_failures_witness :
  w_driver_kill failing_world = Launched [] 1 /\
  w_yarn_kill failing_world = Launched [] 1 /\
  w_renew failing_world = None /\
  w_ccache failing_world = Some "/tmp/airflow_krb5_ccache" /\
  (forall e, w_k8s failing_world <> ClientFails e) /\
  is_Some (spark_binary (_connection running_k8s_hook)) /\
  exists tr,
    run (on_kill failing_world) running_k8s_hook =
      (Ok tt, {| self := running_k8s_hook; trace := tr |}) /\
    In (EvLog "Exception when attempting to kill Spark on K8s") tr.
Proof.
  assert (Hk : forall e, w_k8s failing_world <> ClientFails e) by (intros e; discriminate).
  assert (Hb : is_Some (spark_binary (_connection running_k8s_hook)))
    by (eexists; reflexivity).
  repeat (split; [reflexivity|]). split; [exact Hk|]. split; [exact Hb|].
  destruct (on_kill_swallows_reported_failures running_k8s_hook failing_world
              [] 1 [] 1 "/tmp/airflow_krb5_ccache"
              eq_refl eq_refl eq_refl eq_refl Hk Hb)
    as (tr & Hrun & _ & _ & Hlog).
  exists tr. split; [exact Hrun|]. apply Hlog; reflexivity.
Defined.

(** C9, counterexample: [on_kill] raises when the driver-kill command
    cannot be started, when the yarn command cannot be started, and when
    the Kubernetes client fails with something else than [ApiException]. *)
Lemma on_kill_counterexample :
  fst (run (on_kill no_binary_world) running_tracking_hook) = Raise launch_error /\
  fst (run (on_kill no_yarn_world) running_yarn_hook) = Raise launch_error /\
  fst (run (on_kill unreachable_k8s_world) running_k8s_hook)
    = Raise (OtherException "urllib3.exceptions.MaxRetryError").
Proof. repeat split; vm_compute; reflexivity. Qed.


(** *** Connection resolution *)

(** No explicit value: queue, principal and keytab come from the extras,
    the keytab as the path of the materialised file. *)
Lemma resolution_precedence_witness :
  exists cd,
    r_out (_resolve_connection default_args (Some kerberos_conn)
             "/tmp" "u1" NoFault empty_fs) = Ok cd /\
    queue cd = Some "root.etl" /\
    spark_binary cd = Some "spark-submit" /\
    principal cd = Some "bob" /\
    keytab cd = Some "/tmp/airflow_keytab-bob".
Proof.
  eexists. split; [vm_compute; reflexivity|].
  match goal with
  | |- queue ?cd = _ /\ _ =>
      assert (Hr : r_out (_resolve_connection default_args (Some kerberos_conn)
                            "/tmp" "u1" NoFault empty_fs) = Ok cd)
        by (vm_compute; reflexivity);
      destruct (resolution_precedence default_args kerberos_conn
                  "/tmp" "u1" NoFault empty_fs cd Hr)
        as ((Hq & _ & Hb & Hp & Hk) & _)
  end.
  split; [rewrite Hq; vm_compute; reflexivity|].
  split; [rewrite Hb; vm_compute; reflexivity|].
  split; [rewrite Hp; vm_compute; reflexivity|].
  rewrite Hk. vm_compute. reflexivity.
Defined.

(** C3, counterexample: the keytab taken from the extras is not the value
    of the extras but the path of a file; and without a loadable
    connection an explicit queue and deploy mode are not used. *)
Lemma resolution_precedence_counterexample :
  (extra_get (extra_dejson kerberos_conn) "keytab" = Some "QUJD" /\
   option_map keytab
     (match r_out (_resolve_connection default_args (Some kerberos_conn)
                     "/tmp" "u1" NoFault empty_fs) with
      | Ok cd => Some cd | _ => None end)
     = Some (Some "/tmp/airflow_keytab-bob")) /\
  option_map (fun cd => (queue cd, deploy_mode cd))
    (match r_out (_resolve_connection
                    (args_with None (Some "prod") (Some "cluster") None None)
                    None "/tmp" "u1" NoFault empty_fs) with
     | Ok cd => Some cd | _ => None end)
    = Some (None, None).
Proof. repeat split; vm_compute; reflexivity. Qed.

(** The binary of the extras is refused. *)
Lemma extras_binary_is_validated_witness :
  truthy (arg_spark_binary default_args) = false /\
  extra_dejson custom_binary_conn !! "spark-binary" = Some (Some "custom-spark-submit") /\
  allowed_binary "custom-spark-submit" = false /\
  r_out (_resolve_connection default_args (Some custom_binary_conn)
           "/tmp" "u1" NoFault empty_fs)
    = Raise (binary_error "custom-spark-submit").
Proof.
  assert (He : extra_dejson custom_binary_conn !! "spark-binary"
               = Some (Some "custom-spark-submit")) by (vm_compute; reflexivity).
  split; [reflexivity|]. split; [exact He|]. split; [reflexivity|].
  exact (extras_binary_is_validated default_args custom_binary_conn
           "/tmp" "u1" NoFault empty_fs "custom-spark-submit" eq_refl He eq_refl).
Defined.

(** C8, counterexample: the same binary, supplied by the caller, is
    outside the allowed set and resolution returns with it. *)
Lemma explicit_binary_counterexample :
  allowed_binary "custom-spark-submit" = false /\
  option_map spark_binary
    (match r_out (_resolve_connection
                    (args_with (Some "custom-spark-submit") None None None None)
                    (Some yarn_conn) "/tmp" "u1" NoFault empty_fs) with
     | Ok cd => Some cd | _ => None end)
    = Some (Some "custom-spark-submit").
Proof. split; vm_compute; reflexivity. Qed.

(** *** Keytab materialisation *)

(** The keytab [ABC] for the principal [bob], twice. *)
Lemma keytab_materialisation_idempotent_witness :
  "bob" <> EmptyString /\
  Base64.b64decode "QUJD" = Some "ABC" /\
  exists fs1 ops1,
    _create_keytab_path_from_base64_keytab "/tmp" "u1" NoFault empty_fs "QUJD" (Some "bob")
      = (Ok "/tmp/airflow_keytab-bob", fs1, ops1) /\
    fs1 !! "/tmp/airflow_keytab-bob" = Some "ABC" /\
    _create_keytab_path_from_base64_keytab "/tmp" "u2" MoveFails fs1 "QUJD" (Some "bob")
      = (Ok "/tmp/airflow_keytab-bob", fs1, []).
Proof.
  assert (Hp : "bob" <> EmptyString) by discriminate.
  assert (Hd : Base64.b64decode "QUJD" = Some "ABC") by reflexivity.
  split; [exact Hp|]. split; [exact Hd|].
  destruct (keytab_materialisation_idempotent "/tmp" "u1" "u2" MoveFails
              empty_fs "QUJD" "bob" "ABC" Hp Hd)
    as ((fs1 & ops1 & H1 & H2 & _ & H3) & _).
  exists fs1, ops1. split; [exact H1|]. split; [exact H2|exact H3].
Defined.

(** *** Command masking *)

(** The annotation of [_mask_cmd] also allows a [str]; no caller passes
    one.  On a [str] the join runs over its characters, so the displayed
    string of the example, passed back as a [str], comes back with its
    characters separated by blanks. *)
Remark mask_cmd_of_masked_string :
  _mask_cmd (CmdList ["--conf"; "HivePassword=abc123"])
    = "--conf HivePassword=******" /\
  _mask_cmd (CmdStr (_mask_cmd (CmdList ["--conf"; "HivePassword=abc123"])))
    = "- - c o n f   H i v e P a s s w o r d = * * * * * *" /\
  _mask_cmd (CmdStr (_mask_cmd (CmdList ["--conf"; "HivePassword=abc123"])))
    <> _mask_cmd (CmdList ["--conf"; "HivePassword=abc123"]).
Proof.
  assert (H1 : _mask_cmd (CmdList ["--conf"; "HivePassword=abc123"])
               = "--conf HivePassword=******") by (vm_compute; reflexivity).
  assert (H2 : _mask_cmd (CmdStr "--conf HivePassword=******")
               = "- - c o n f   H i v e P a s s w o r d = * * * * * *")
    by (vm_compute; reflexivity).
  rewrite H1. split; [reflexivity|]. split; [exact H2|].
  rewrite H2. discriminate.
Qed.

End Examples.

(** ** Command masking: the pattern run by the matcher *)

Section MaskMatcher.

Import PyStr Re Spark Specs.

Lemma orelse_None_r {A} (x : option A) : orelse x None = x.
Proof. destruct x; reflexivity. Qed.

Lemma star_lazy_cls ic p k : forall fuel s g,
  (String.length s <= fuel)%nat ->
  star_loop false (m ic (Cls p)) k fuel s g = lazy_cls p k s g.
Proof.
  induction fuel as [|fuel IH]; intros s g Hlen.
  - destruct s; simpl in Hlen; [|lia]. simpl. rewrite orelse_None_r. reflexivity.
  - destruct s as [|c s]; simpl.
    + reflexivity.
    + destruct (p c); [|reflexivity].
      assert (Hlt : (String.length s <? S (String.length s))%nat = true)
        by (apply Nat.ltb_lt; lia).
      rewrite Hlt. rewrite IH by (simpl in Hlen; lia). reflexivity.
Qed.

Lemma star_greedy_cls ic p k : forall fuel s g,
  (String.length s <= fuel)%nat ->
  star_loop true (m ic (Cls p)) k fuel s g = greedy_cls p k s g.
Proof.
  induction fuel as [|fuel IH]; intros s g Hlen.
  - destruct s; simpl in Hlen; [|lia]. reflexivity.
  - destruct s as [|c s]; simpl.
    + reflexivity.
    + destruct (p c); [|reflexivity].
      assert (Hlt : (String.length s <? S (String.length s))%nat = true)
        by (apply Nat.ltb_lt; lia).
      rewrite Hlt. rewrite IH by (simpl in Hlen; lia). reflexivity.
Qed.

(** A literal text. *)
Lemma m_Str ic w : forall s g k,
  m ic (Str w) s g k =
    match prefix_match ic w s with
    | Some s' => k s' g
    | None => None
    end.
Proof.
  induction w as [|a w IH]; intros s g k.
  - reflexivity.
  - destruct w as [|b w].
    + simpl. destruct s as [|c s]; [reflexivity|].
      destruct (chr_match ic a c); reflexivity.
    + change (Str (String a (String b w))) with (Seq (Lit a) (Str (String b w))).
      simpl m. destruct s as [|c s]; [reflexivity|].
      simpl prefix_match. destruct (chr_match ic a c); [|reflexivity].
      rewrite IH. reflexivity.
Qed.


Lemma star_greedy_pos (body : string -> env -> cont -> option (string * env))
  (ok : env -> string -> bool) (k : cont) :
  (forall s g k', body s g k' =
     match s with
     | String c s' => if ok g s then k' s' g else None
     | EmptyString => None
     end) ->
  forall fuel s g,
  (String.length s <= fuel)%nat ->
  star_loop true body k fuel s g = greedy_pos (ok g) k s g.
Proof.
  intros Hbody. induction fuel as [|fuel IH]; intros s g Hlen.
  - destruct s; simpl in Hlen; [|lia]. reflexivity.
  - destruct s as [|c s]; simpl.
    + rewrite Hbody. reflexivity.
    + rewrite Hbody. destruct (ok g (String c s)); [|reflexivity].
      assert (Hlt : (String.length s <? S (String.length s))%nat = true)
        by (apply Nat.ltb_lt; lia).
      rewrite Hlt. rewrite IH by (simpl in Hlen; lia). reflexivity.
Qed.

Lemma value_step_body s g k' :
  m true re_value_step s g k' =
    match s with
    | String c s' => if value_ok g s then k' s' g else None
    | EmptyString => None
    end.
Proof.
  unfold re_value_step.
  change (m true (Seq (NLook (Seq (Bref 2) (Cls space))) (Cls dot)) s g k')
    with (match m true (Seq (Bref 2) (Cls space)) s g k_end with
          | Some _ => None
          | None => m true (Cls dot) s g k'
          end).
  unfold value_ok, blocked.
  destruct (m true (Seq (Bref 2) (Cls space)) s g k_end).
  - destruct s; reflexivity.
  - destruct s as [|c s]; [reflexivity|]. simpl. destruct (dot c); reflexivity.
Qed.

Lemma m_value x g k :
  m true re_value x g k = greedy_pos (value_ok g) k x g.
Proof.
  unfold re_value. cbn [m].
  apply (star_greedy_pos (m true re_value_step) value_ok k).
  - intros. apply value_step_body.
  - lia.
Qed.


(** *** Characters *)

Ltac all_chars c := destruct c as [[] [] [] [] [] [] [] []].

Lemma chr_match_equals c : chr_match true "="%char c = Ascii.eqb c "="%char.
Proof. all_chars c; reflexivity. Qed.

Lemma chr_match_apostrophe c : chr_match true "'"%char c = Ascii.eqb "'"%char c.
Proof. all_chars c; reflexivity. Qed.

Lemma chr_match_dquote c : chr_match true dquote c = Ascii.eqb dquote c.
Proof. all_chars c; reflexivity. Qed.

Lemma is_quote_cases q : is_quote q = true -> q = "'"%char \/ q = dquote.
Proof.
  unfold is_quote, one_of. simpl. intros H.
  apply orb_true_iff in H. destruct H as [H|H].
  - left. apply Ascii.eqb_eq in H. exact H.
  - right. rewrite orb_false_r in H. apply Ascii.eqb_eq in H. exact H.
Qed.

Lemma chr_match_quote q c : is_quote q = true -> chr_match true q c = Ascii.eqb q c.
Proof.
  intros H. destruct (is_quote_cases q H); subst;
    [apply chr_match_apostrophe|apply chr_match_dquote].
Qed.

Lemma nonspace_dot c : nonspace c = true -> dot c = true.
Proof.
  unfold nonspace, dot. destruct (Ascii.eqb_spec c "010"%char); [subst|reflexivity].
  discriminate.
Qed.

Lemma quote_dot q : is_quote q = true -> dot q = true.
Proof. intros H. destruct (is_quote_cases q H); subst; reflexivity. Qed.

Lemma quote_nonspace q : is_quote q = true -> nonspace q = true.
Proof. intros H. destruct (is_quote_cases q H); subst; reflexivity. Qed.

(** *** Captured text *)

Lemma consumed_same x : consumed x x = EmptyString.
Proof. unfold consumed. rewrite Nat.sub_diag. destruct x; reflexivity. Qed.

Lemma consumed_one c x : consumed (String c x) x = String c EmptyString.
Proof.
  unfold consumed. simpl String.length.
  replace (S (String.length x) - String.length x)%nat with 1%nat by lia.
  simpl. destruct x; reflexivity.
Qed.

Lemma substring_app n a b :
  n = String.length a -> String.substring 0 n (a +:+ b) = a.
Proof.
  intros ->. induction a as [|c a IH]; simpl.
  - destruct b; reflexivity.
  - rewrite IH. reflexivity.
Qed.

Lemma length_app a b :
  String.length (a +:+ b) = (String.length a + String.length b)%nat.
Proof. induction a as [|c a IH]; simpl; [reflexivity|]. rewrite IH. reflexivity. Qed.

Lemma consumed_app a b : consumed (a +:+ b) b = a.
Proof.
  unfold consumed. apply substring_app. rewrite length_app. lia.
Qed.

(** *** The value and the closing quote *)

Lemma blocked_unquoted g s :
  get 2 g = Some EmptyString ->
  blocked g s = match s with String c _ => is_space c | EmptyString => false end.
Proof.
  intros Hg. unfold blocked.
  change (m true (Seq (Bref 2) (Cls space)) s g k_end)
    with (m true (Bref 2) s g (fun s' g' => m true (Cls space) s' g' k_end)).
  cbn [m]. rewrite Hg. cbn [prefix_match].
  destruct s as [|c s]; [reflexivity|]. unfold space. destruct (is_space c); reflexivity.
Qed.

Lemma blocked_quoted q g s :
  is_quote q = true ->
  get 2 g = Some (String q EmptyString) ->
  blocked g s =
    match s with
    | String c (String d _) => Ascii.eqb q c && is_space d
    | _ => false
    end.
Proof.
  intros Hq Hg. unfold blocked.
  change (m true (Seq (Bref 2) (Cls space)) s g k_end)
    with (m true (Bref 2) s g (fun s' g' => m true (Cls space) s' g' k_end)).
  cbn [m]. rewrite Hg. cbn [prefix_match].
  destruct s as [|c s]; [reflexivity|].
  rewrite (chr_match_quote q c Hq).
  destruct (Ascii.eqb q c); [|destruct s; reflexivity].
  destruct s as [|d s]; [reflexivity|]. unfold space. simpl.
  destruct (is_space d); reflexivity.
Qed.

Lemma close_unquoted x g :
  get 2 g = Some EmptyString ->
  m true re_close x g k_end = Some (x, (3%nat, EmptyString) :: g).
Proof.
  intros Hg. unfold re_close, k_end. cbn [m]. rewrite Hg. cbn [prefix_match].
  rewrite consumed_same. reflexivity.
Qed.

Lemma close_quoted q x g :
  is_quote q = true ->
  get 2 g = Some (String q EmptyString) ->
  m true re_close x g k_end =
    match x with
    | String c x' =>
        if Ascii.eqb q c then Some (x', (3%nat, String q EmptyString) :: g) else None
    | EmptyString => None
    end.
Proof.
  intros Hq Hg. unfold re_close, k_end. cbn [m]. rewrite Hg. cbn [prefix_match].
  destruct x as [|c x]; [reflexivity|].
  rewrite (chr_match_quote q c Hq).
  destruct (Ascii.eqb_spec q c); [subst c|reflexivity].
  rewrite consumed_one. reflexivity.
Qed.


Lemma value_ok_unquoted g c s :
  get 2 g = Some EmptyString -> value_ok g (String c s) = nonspace c.
Proof.
  intros Hg. unfold value_ok. rewrite (blocked_unquoted g _ Hg).
  unfold nonspace. destruct (is_space c) eqn:Hc; [reflexivity|].
  simpl. apply nonspace_dot. unfold nonspace. rewrite Hc. reflexivity.
Qed.

(** Without an opening quote the value is the run of non-blank
    characters and group 3 is empty. *)
Lemma tail_unquoted g : get 2 g = Some EmptyString -> forall x,
  m true (Seq re_value re_close) x g k_end =
    Some (skip_nonspace x, (3%nat, EmptyString) :: g).
Proof.
  intros Hg x.
  change (m true (Seq re_value re_close) x g k_end)
    with (m true re_value x g (fun x' g' => m true re_close x' g' k_end)).
  rewrite m_value.
  induction x as [|c x IH].
  - simpl. apply close_unquoted, Hg.
  - cbn [greedy_pos skip_nonspace]. rewrite (value_ok_unquoted g c x Hg).
    destruct (nonspace c).
    + rewrite IH. reflexivity.
    + apply close_unquoted, Hg.
Qed.

Lemma value_ok_quoted q g c s :
  is_quote q = true -> get 2 g = Some (String q EmptyString) ->
  value_ok g (String c s) =
    negb (Ascii.eqb q c &&
          match s with String d _ => is_space d | EmptyString => false end) &&
    dot c.
Proof.
  intros Hq Hg. unfold value_ok. rewrite (blocked_quoted q g _ Hq Hg).
  destruct s; [rewrite andb_false_r|]; reflexivity.
Qed.

(** After an opening quote the value ends at the closing quote that
    [close_scan] finds, and group 3 is that quote. *)
Lemma tail_quoted q g :
  is_quote q = true -> get 2 g = Some (String q EmptyString) -> forall x,
  m true (Seq re_value re_close) x g k_end =
    match close_scan q x with
    | Some p => Some (p, (3%nat, String q EmptyString) :: g)
    | None => None
    end.
Proof.
  intros Hq Hg x.
  change (m true (Seq re_value re_close) x g k_end)
    with (m true re_value x g (fun x' g' => m true re_close x' g' k_end)).
  rewrite m_value.
  induction x as [|c x IH].
  - cbn [greedy_pos close_scan]. rewrite (close_quoted q _ g Hq Hg). reflexivity.
  - cbn [greedy_pos close_scan].
    rewrite (value_ok_quoted q g c x Hq Hg).
    rewrite (close_quoted q (String c x) g Hq Hg).
    destruct (Ascii.eqb_spec q c) as [Heq|Hne].
    + subst c. rewrite (quote_dot q Hq).
      destruct x as [|d x].
      * cbn [greedy_pos andb negb]. rewrite (close_quoted q _ g Hq Hg). reflexivity.
      * cbn [andb negb]. destruct (is_space d); cbn [andb negb].
        -- reflexivity.
        -- rewrite IH. destruct (close_scan q (String d x)); reflexivity.
    + cbn [andb negb]. destruct (dot c).
      * rewrite IH. destruct (close_scan q x); reflexivity.
      * reflexivity.
Qed.


(** *** The optional quote *)

Lemma quote_part s0 r :
  k_quote s0 r [] = Some (post_of r, groups_of s0 r).
Proof.
  unfold k_quote, re_quote, Opt.
  change (m true (Grp 2 (Alt (Cls (one_of ("'" +:+ dq))) Eps)) r [] (k_value s0))
    with (orelse
            (m true (Cls (one_of ("'" +:+ dq))) r []
               (fun vs g' => k_value s0 vs ((2%nat, consumed r vs) :: g')))
            (k_value s0 r [(2%nat, consumed r r)])).
  assert (Hun : k_value s0 r [(2%nat, consumed r r)] =
                Some (skip_nonspace r,
                      [(3%nat, EmptyString); (1%nat, consumed s0 r); (2%nat, consumed r r)])).
  { unfold k_value. rewrite tail_unquoted; [reflexivity|].
    simpl. rewrite consumed_same. reflexivity. }
  unfold post_of, groups_of, after_sep.
  destruct r as [|c r'].
  - simpl m. cbn [orelse]. rewrite Hun. reflexivity.
  - cbn [m]. fold (is_quote c). destruct (is_quote c) eqn:Hq.
    + unfold k_value at 1.
      rewrite (tail_quoted c _ Hq);
        [|simpl; rewrite consumed_one; reflexivity].
      destruct (close_scan c r') as [p|].
      * simpl. rewrite consumed_one. reflexivity.
      * cbn [orelse]. rewrite Hun. reflexivity.
    + cbn [orelse]. rewrite Hun. reflexivity.
Qed.


(** *** The separator *)

Lemma greedy_space_all s0 : forall s,
  greedy_cls space (k_quote s0) s [] = k_quote s0 (lstrip s) [].
Proof.
  induction s as [|c s IH]; [reflexivity|].
  cbn [greedy_cls lstrip]. change (space c) with (is_space c).
  destruct (is_space c); [|reflexivity].
  rewrite IH. rewrite quote_part. reflexivity.
Qed.

Lemma sep_part s0 s1 :
  m true re_sep s1 [] (k_quote s0) =
    match s1 with
    | String c s' =>
        if Ascii.eqb c "="%char then k_quote s0 s' []
        else if is_space c then k_quote s0 (lstrip s') []
        else None
    | EmptyString => None
    end.
Proof.
  unfold re_sep, Plus.
  change (m true (Alt (Lit "=") (Seq (Cls space) (Star true (Cls space)))) s1 [] (k_quote s0))
    with (orelse (m true (Lit "=") s1 [] (k_quote s0))
                 (m true (Cls space) s1 []
                    (fun s2 g2 => star_loop true (m true (Cls space)) (k_quote s0)
                                    (String.length s2) s2 g2))).
  destruct s1 as [|c s']; [reflexivity|].
  change (m true (Lit "=") (String c s') [] (k_quote s0))
    with (if chr_match true "="%char c then k_quote s0 s' [] else None).
  match goal with
  | |- context [m true (Cls space) (String c s') [] ?F] =>
      change (m true (Cls space) (String c s') [] F)
        with (if space c then F s' [] else None)
  end.
  cbv beta. rewrite chr_match_equals.
  destruct (Ascii.eqb c "="%char).
  - rewrite quote_part. reflexivity.
  - cbn [orelse]. change (space c) with (is_space c).
    destruct (is_space c); [|reflexivity].
    rewrite star_greedy_cls by lia. apply greedy_space_all.
Qed.

Lemma sep_scan s0 : forall s1,
  k_sep s0 s1 [] =
    match find_sep s1 with
    | Some r => k_quote s0 r []
    | None => None
    end.
Proof.
  intros s1. unfold k_sep.
  change (m true (Seq (Star false (Cls nonspace)) (Seq re_sep re_quote)) s1 [] (k_value s0))
    with (star_loop false (m true (Cls nonspace))
            (fun s2 g2 => m true re_sep s2 g2 (k_quote s0))
            (String.length s1) s1 []).
  rewrite star_lazy_cls by lia.
  induction s1 as [|c s1 IH]; [reflexivity|].
  cbn [lazy_cls find_sep]. rewrite sep_part.
  destruct (Ascii.eqb c "="%char).
  - rewrite quote_part. reflexivity.
  - change (nonspace c) with (negb (is_space c)). destruct (is_space c).
    + rewrite quote_part. reflexivity.
    + simpl. exact IH.
Qed.

(** *** The keyword *)

Lemma not_s_and_p c : chr_match true "s"%char c = true -> chr_match true "p"%char c = false.
Proof. all_chars c; intros H; try reflexivity; discriminate H. Qed.

Lemma secret_not_password s r :
  prefix_match true "secret" s = Some r -> prefix_match true "password" s = None.
Proof.
  destruct s as [|c s]; [discriminate|]. cbn [prefix_match].
  destruct (chr_match true "s"%char c) eqn:Hs; [|discriminate].
  rewrite (not_s_and_p c Hs). reflexivity.
Qed.

Lemma keyword_part s0 s :
  k_keyword s0 s [] =
    match kw_sep s with
    | Some r => k_quote s0 r []
    | None => None
    end.
Proof.
  unfold k_keyword, re_keyword.
  change (m true (Seq (Alt (Str "secret") (Str "password"))
                    (Seq (Star false (Cls nonspace)) (Seq re_sep re_quote)))
            s [] (k_value s0))
    with (orelse (m true (Str "secret") s [] (k_sep s0))
                 (m true (Str "password") s [] (k_sep s0))).
  rewrite !m_Str. unfold kw_sep, kw_at.
  destruct (prefix_match true "secret" s) as [s1|] eqn:H1.
  - rewrite (secret_not_password s s1 H1). rewrite sep_scan.
    destruct (find_sep s1); [rewrite quote_part|]; reflexivity.
  - cbn [orelse]. destruct (prefix_match true "password" s) as [s1|]; [|reflexivity].
    apply sep_scan.
Qed.

Lemma key_part s0 : forall s,
  lazy_cls nonspace (k_keyword s0) s [] =
    match key_scan s with
    | Some r => k_quote s0 r []
    | None => None
    end.
Proof.
  induction s as [|c s IH].
  - cbn [lazy_cls key_scan]. rewrite keyword_part.
    destruct (kw_sep EmptyString); [rewrite quote_part|]; reflexivity.
  - cbn [lazy_cls key_scan]. rewrite keyword_part.
    destruct (kw_sep (String c s)); [rewrite quote_part; reflexivity|].
    cbn [orelse]. destruct (nonspace c); [exact IH|reflexivity].
Qed.

(** *** A match at the head of the text *)

Lemma mask_re_here s :
  m true mask_re s [] k_end =
    match key_scan s with
    | Some r => Some (post_of r, groups_of s r)
    | None => None
    end.
Proof.
  change (m true mask_re s [] k_end)
    with (star_loop false (m true (Cls nonspace)) (k_keyword s)
            (String.length s) s []).
  rewrite star_lazy_cls by lia. rewrite key_part.
  destruct (key_scan s); [apply quote_part|reflexivity].
Qed.


Lemma match_here_mask s :
  match_here true mask_re s =
    match key_scan s with
    | Some r => Some (MObj EmptyString (consumed s (post_of r)) (groups_of s r) (post_of r))
    | None => None
    end.
Proof.
  unfold match_here.
  change (m true mask_re s [] (fun s' g' => Some (s', g')))
    with (m true mask_re s [] k_end).
  rewrite mask_re_here. destruct (key_scan s); reflexivity.
Qed.

(** *** The leftmost match *)

Lemma search_mask : forall s,
  search true mask_re s =
    match find_match s with
    | Some (pre, ms, r) =>
        Some (MObj pre (consumed ms (post_of r)) (groups_of ms r) (post_of r))
    | None => None
    end.
Proof.
  induction s as [|c s IH]; cbn [search find_match]; rewrite match_here_mask.
  - destruct (key_scan EmptyString); reflexivity.
  - destruct (key_scan (String c s)); [reflexivity|].
    rewrite IH. destruct (find_match s) as [[[pre ms] r]|]; reflexivity.
Qed.

Lemma mask_repl_groups pre ms r :
  mask_repl (MObj pre (consumed ms (post_of r)) (groups_of ms r) (post_of r))
    = masked_match ms r.
Proof. reflexivity. Qed.


(** *** Texts and their parts *)

Lemma sapp_assoc (a b c : string) : (a +:+ b) +:+ c = a +:+ (b +:+ c).
Proof.
  induction a as [|x a IH]; [reflexivity|].
  change (String x ((a +:+ b) +:+ c) = String x (a +:+ (b +:+ c))).
  rewrite IH. reflexivity.
Qed.

Lemma sapp_cons c (a b : string) : String c a +:+ b = String c (a +:+ b).
Proof. reflexivity. Qed.

Lemma sapp_nil_l (b : string) : EmptyString +:+ b = b.
Proof. reflexivity. Qed.

Lemma sapp_nil_r (a : string) : a +:+ EmptyString = a.
Proof.
  induction a as [|x a IH]; [reflexivity|].
  change (String x (a +:+ EmptyString) = String x a).
  rewrite IH. reflexivity.
Qed.

Lemma key_scan_unfold s :
  key_scan s =
    match kw_sep s with
    | Some r => Some r
    | None =>
        match s with
        | String c s' => if nonspace c then key_scan s' else None
        | EmptyString => None
        end
    end.
Proof. destruct s; reflexivity. Qed.

Lemma find_match_unfold s :
  find_match s =
    match key_scan s with
    | Some r => Some (EmptyString, s, r)
    | None =>
        match s with
        | String c s' =>
            match find_match s' with
            | Some (pre, ms, r) => Some (String c pre, ms, r)
            | None => None
            end
        | EmptyString => None
        end
    end.
Proof. destruct s; reflexivity. Qed.

(** *** Keywords stop at a separator *)

Lemma sepc_lower d : sepc d = true -> lower d = d /\ is_lower d = false.
Proof. all_chars d; intros H; try discriminate H; split; reflexivity. Qed.

Lemma lower_is_lower p : is_lower p = true -> lower p = p.
Proof. all_chars p; intros H; try discriminate H; reflexivity. Qed.

Lemma chr_match_sepc p d :
  sepc d = true -> is_lower p = true -> chr_match true p d = false.
Proof.
  intros Hd Hp. unfold chr_match.
  destruct (sepc_lower d Hd) as [Hl Hn].
  rewrite Hl, (lower_is_lower p Hp).
  destruct (Ascii.eqb_spec p d); [subst; congruence|reflexivity].
Qed.

Lemma prefix_match_sepc w d :
  sepc d = true ->
  forallb is_lower (list_ascii_of_string w) = true ->
  forall a Y,
    prefix_match true w (a +:+ String d Y) =
      option_map (fun a' => a' +:+ String d Y) (prefix_match true w a).
Proof.
  intros Hd. induction w as [|p w IH]; intros Hw a Y.
  - reflexivity.
  - simpl in Hw. apply andb_true_iff in Hw. destruct Hw as [Hp Hw].
    destruct a as [|c a].
    + change (prefix_match true (String p w) (EmptyString +:+ String d Y))
        with (if chr_match true p d then prefix_match true w Y else None).
      rewrite (chr_match_sepc p d Hd Hp). reflexivity.
    + change (prefix_match true (String p w) (String c a +:+ String d Y))
        with (if chr_match true p c then prefix_match true w (a +:+ String d Y)
              else None).
      change (prefix_match true (String p w) (String c a))
        with (if chr_match true p c then prefix_match true w a else None).
      destruct (chr_match true p c); [apply IH, Hw|reflexivity].
Qed.

Lemma kw_at_sepc d a Y :
  sepc d = true ->
  kw_at (a +:+ String d Y) = option_map (fun a' => a' +:+ String d Y) (kw_at a).
Proof.
  intros Hd. unfold kw_at.
  rewrite !(prefix_match_sepc _ d Hd) by reflexivity.
  destruct (prefix_match true "secret" a); [reflexivity|].
  destruct (prefix_match true "password" a); reflexivity.
Qed.

Lemma find_sep_sepc d : sepc d = true -> forall a Y,
  find_sep (a +:+ String d Y) <> None.
Proof.
  intros Hd. induction a as [|c a IH]; intros Y.
  - change (find_sep (String d Y) <> None). cbn [find_sep].
    unfold sepc in Hd. destruct (Ascii.eqb d "="%char); [discriminate|].
    simpl in Hd. rewrite Hd. discriminate.
  - change (find_sep (String c (a +:+ String d Y)) <> None). cbn [find_sep].
    destruct (Ascii.eqb c "="%char); [discriminate|].
    destruct (is_space c); [discriminate|]. apply IH.
Qed.

(** A keyword with its separator that fails before a separator character
    fails whatever follows that character. *)
Lemma kw_sep_None_stable d a Y Y' :
  sepc d = true ->
  kw_sep (a +:+ String d Y) = None -> kw_sep (a +:+ String d Y') = None.
Proof.
  intros Hd. unfold kw_sep. rewrite !(kw_at_sepc d a _ Hd).
  destruct (kw_at a) as [a'|]; cbn [option_map]; [|reflexivity].
  intros H. exfalso. exact (find_sep_sepc d Hd a' Y H).
Qed.


(** *** The key part of a match *)

Lemma prefix_match_split ic w : forall s r,
  prefix_match ic w s = Some r ->
  exists t, s = t +:+ r /\ forall X, prefix_match ic w (t +:+ X) = Some X.
Proof.
  induction w as [|p w IH]; intros s r H.
  - inversion H; subst. exists EmptyString. split; reflexivity.
  - destruct s as [|c s]; [discriminate|]. cbn [prefix_match] in H.
    destruct (chr_match ic p c) eqn:Hc; [|discriminate].
    destruct (IH s r H) as (t & -> & Ht).
    exists (String c t). split; [reflexivity|].
    intros X. change (prefix_match ic (String p w) (String c (t +:+ X)) = Some X).
    cbn [prefix_match]. rewrite Hc. apply Ht.
Qed.

Lemma kw_at_split s r :
  kw_at s = Some r ->
  exists t, s = t +:+ r /\ forall X, kw_at (t +:+ X) = Some X.
Proof.
  unfold kw_at. destruct (prefix_match true "secret" s) as [r1|] eqn:H1.
  - intros H. inversion H; subst.
    destruct (prefix_match_split _ _ _ _ H1) as (t & -> & Ht).
    exists t. split; [reflexivity|]. intros X. rewrite Ht. reflexivity.
  - intros H2.
    destruct (prefix_match_split _ _ _ _ H2) as (t & -> & Ht).
    exists t. split; [reflexivity|]. intros X.
    destruct (prefix_match true "secret" (t +:+ X)) as [r1|] eqn:H3; [|apply Ht].
    exfalso. apply secret_not_password in H3. rewrite Ht in H3. discriminate.
Qed.

Lemma lstrip_split s :
  exists sp, s = sp +:+ lstrip s /\ all_space sp = true.
Proof.
  induction s as [|c s IH].
  - exists EmptyString. split; reflexivity.
  - cbn [lstrip]. destruct (is_space c) eqn:Hc.
    + destruct IH as (sp & Hs & Hsp). exists (String c sp).
      split; [rewrite sapp_cons, <- Hs; reflexivity|simpl; rewrite Hc; exact Hsp].
    + exists EmptyString. split; reflexivity.
Qed.

Lemma lstrip_hns X : hns X = true -> lstrip X = X.
Proof. destruct X as [|c X]; [reflexivity|]. simpl. destruct (is_space c); [discriminate|reflexivity]. Qed.

Lemma hns_lstrip s : hns (lstrip s) = true.
Proof.
  induction s as [|c s IH]; [reflexivity|]. cbn [lstrip].
  destruct (is_space c) eqn:Hc; [exact IH|]. simpl. rewrite Hc. reflexivity.
Qed.

Lemma find_sep_split : forall s1 r,
  find_sep s1 = Some r ->
  exists k1 d k2,
    s1 = (k1 +:+ String d k2) +:+ r /\ sepc d = true /\
    (Ascii.eqb d "="%char = true \/ hns r = true) /\
    forall X, hns X = true -> find_sep ((k1 +:+ String d k2) +:+ X) = Some X.
Proof.
  induction s1 as [|c s1 IH]; intros r H; [discriminate|].
  cbn [find_sep] in H.
  destruct (Ascii.eqb c "="%char) eqn:He.
  - inversion H; subst. exists EmptyString, c, EmptyString.
    split; [reflexivity|]. split; [unfold sepc; rewrite He; reflexivity|].
    split; [left; exact He|].
    intros X _. change (find_sep (String c X) = Some X). cbn [find_sep].
    rewrite He. reflexivity.
  - destruct (is_space c) eqn:Hc.
    + inversion H; subst.
      destruct (lstrip_split s1) as (sp & Hs & Hsp).
      exists EmptyString, c, sp.
      split; [rewrite sapp_nil_l, !sapp_cons, <- Hs; reflexivity|].
      split; [unfold sepc; rewrite Hc; apply orb_true_r|].
      split; [right; apply hns_lstrip|].
      intros X HX. change (find_sep (String c (sp +:+ X)) = Some X).
      cbn [find_sep]. rewrite He, Hc.
      rewrite lstrip_app_space by exact Hsp. rewrite lstrip_hns by exact HX.
      reflexivity.
    + destruct (IH r H) as (k1 & d & k2 & -> & Hd & Hr & HX).
      exists (String c k1), d, k2.
      split; [reflexivity|]. split; [exact Hd|]. split; [exact Hr|].
      intros X Hh.
      change (find_sep (String c ((k1 +:+ String d k2) +:+ X)) = Some X).
      cbn [find_sep]. rewrite He, Hc. apply HX, Hh.
Qed.

Lemma kw_sep_split s r :
  kw_sep s = Some r ->
  exists kp, s = kp +:+ r /\
    (exists k1 d k2, kp = k1 +:+ String d k2 /\ sepc d = true) /\
    (forall X, hns X = true -> kw_sep (kp +:+ X) = Some X).
Proof.
  unfold kw_sep. destruct (kw_at s) as [s1|] eqn:Hk; [|discriminate].
  intros Hf.
  destruct (kw_at_split s s1 Hk) as (t & -> & Ht).
  destruct (find_sep_split s1 r Hf) as (k1 & d & k2 & -> & Hd & _ & HX).
  exists (t +:+ (k1 +:+ String d k2)).
  split; [symmetry; apply sapp_assoc|].
  split.
  - exists (t +:+ k1), d, k2. split; [symmetry; apply sapp_assoc|exact Hd].
  - intros X Hh. rewrite sapp_assoc. rewrite Ht. apply HX, Hh.
Qed.

Lemma key_scan_split : forall ms r,
  key_scan ms = Some r -> exists kp, ms = kp +:+ r /\ KeyPart kp.
Proof.
  induction ms as [|c ms IH]; intros r H; rewrite key_scan_unfold in H.
  - destruct (kw_sep EmptyString) as [r'|] eqn:Hk; [|discriminate].
    inversion H; subst.
    destruct (kw_sep_split _ _ Hk) as (kp & Hs & Hd & HX).
    exists kp. split; [exact Hs|]. split; [exact Hd|].
    intros X Hh. rewrite key_scan_unfold, (HX X Hh). reflexivity.
  - destruct (kw_sep (String c ms)) as [r'|] eqn:Hk.
    + inversion H; subst.
      destruct (kw_sep_split _ _ Hk) as (kp & Hs & Hd & HX).
      exists kp. split; [exact Hs|]. split; [exact Hd|].
      intros X Hh. rewrite key_scan_unfold, (HX X Hh). reflexivity.
    + destruct (nonspace c) eqn:Hc; [|discriminate].
      destruct (IH r H) as (kp & -> & (k1 & d & k2 & -> & Hd) & HX).
      exists (String c (k1 +:+ String d k2)).
      split; [reflexivity|]. split.
      * exists (String c k1), d, k2. split; [reflexivity|exact Hd].
      * intros X Hh.
        change (key_scan (String c ((k1 +:+ String d k2) +:+ X)) = Some X).
        rewrite key_scan_unfold.
        assert (Hn : kw_sep (String c ((k1 +:+ String d k2) +:+ X)) = None).
        { rewrite sapp_assoc.
          change (kw_sep (String c k1 +:+ String d (k2 +:+ X)) = None).
          apply (kw_sep_None_stable d (String c k1) (k2 +:+ r) _ Hd).
          rewrite sapp_assoc in Hk. exact Hk. }
        rewrite Hn, Hc. apply HX, Hh.
Qed.


(** *** The text before a match *)

Lemma space_sepc d : is_space d = true -> sepc d = true.
Proof. intros H. unfold sepc. rewrite H. apply orb_true_r. Qed.

(** A scan that fails before a blank fails whatever follows the blank. *)
Lemma key_scan_None_space d Y Y' :
  is_space d = true -> forall b,
  key_scan (b +:+ String d Y) = None -> key_scan (b +:+ String d Y') = None.
Proof.
  intros Hd. induction b as [|c b IH].
  - rewrite !sapp_nil_l. intros _. rewrite key_scan_unfold.
    assert (Hk : kw_sep (String d Y') = None).
    { unfold kw_sep.
      pose proof (kw_at_sepc d EmptyString Y' (space_sepc d Hd)) as Hk.
      rewrite sapp_nil_l in Hk. rewrite Hk. reflexivity. }
    rewrite Hk. unfold nonspace. rewrite Hd. reflexivity.
  - rewrite !sapp_cons. intros H. rewrite key_scan_unfold in H.
    rewrite key_scan_unfold.
    destruct (kw_sep (String c (b +:+ String d Y))) eqn:Hk; [discriminate|].
    assert (Hk' : kw_sep (String c (b +:+ String d Y')) = None).
    { apply (kw_sep_None_stable d (String c b) Y Y' (space_sepc d Hd)). exact Hk. }
    rewrite Hk'. destruct (nonspace c); [apply IH, H|reflexivity].
Qed.

(** Over non-blank text the scan reaches a key part that follows. *)
Lemma key_scan_run Z z : key_scan Z = Some z -> forall b,
  all_nonspace b = true -> key_scan (b +:+ Z) <> None.
Proof.
  intros HZ. induction b as [|c b IH]; intros Hb.
  - rewrite sapp_nil_l, HZ. discriminate.
  - rewrite sapp_cons, key_scan_unfold.
    destruct (kw_sep (String c (b +:+ Z))); [discriminate|].
    simpl in Hb. apply andb_true_iff in Hb. destruct Hb as [Hc Hb].
    rewrite Hc. apply IH, Hb.
Qed.

Lemma split_at_space b :
  all_nonspace b = true \/
  exists b1 d b2, b = b1 +:+ String d b2 /\ is_space d = true.
Proof.
  induction b as [|c b IH]; [left; reflexivity|].
  destruct (is_space c) eqn:Hc.
  - right. exists EmptyString, c, b. split; [reflexivity|exact Hc].
  - destruct IH as [Hb|(b1 & d & b2 & -> & Hd)].
    + left. simpl. unfold nonspace. rewrite Hc. exact Hb.
    + right. exists (String c b1), d, b2. split; [reflexivity|exact Hd].
Qed.

(** The leftmost match stays the leftmost match when the text after its
    key part is replaced by text that does not start with a blank. *)
Lemma find_match_replace : forall s pre ms r,
  find_match s = Some (pre, ms, r) ->
  s = pre +:+ ms /\ key_scan ms = Some r /\
  forall kp X, ms = kp +:+ r -> KeyPart kp -> hns X = true ->
    find_match (pre +:+ kp +:+ X) = Some (pre, kp +:+ X, X).
Proof.
  induction s as [|c s IH]; intros pre ms r H; rewrite find_match_unfold in H.
  - destruct (key_scan EmptyString) as [r0|] eqn:Hk; [|discriminate].
    inversion H; subst. split; [reflexivity|]. split; [exact Hk|].
    intros kp X _ (_ & HX) Hh. rewrite sapp_nil_l, find_match_unfold.
    rewrite (HX X Hh). reflexivity.
  - destruct (key_scan (String c s)) as [r0|] eqn:Hk.
    + inversion H; subst. split; [reflexivity|]. split; [exact Hk|].
      intros kp X _ (_ & HX) Hh. rewrite sapp_nil_l, find_match_unfold.
      rewrite (HX X Hh). reflexivity.
    + destruct (find_match s) as [[[pre' ms'] r']|] eqn:Hf; [|discriminate].
      inversion H; subst; clear H.
      destruct (IH pre' ms r eq_refl) as (Hs & Hms & Hrep).
      split; [rewrite sapp_cons, <- Hs; reflexivity|]. split; [exact Hms|].
      intros kp X Hkp HK Hh.
      rewrite sapp_cons, find_match_unfold.
      assert (Hn : key_scan (String c (pre' +:+ kp +:+ X)) = None).
      { destruct (split_at_space (String c pre')) as [Hall|(b1 & d & b2 & Hb & Hd)].
        - exfalso.
          apply (key_scan_run ms r Hms (String c pre') Hall).
          rewrite sapp_cons, <- Hs. exact Hk.
        - rewrite <- sapp_cons, Hb, sapp_assoc, sapp_cons.
          apply (key_scan_None_space d (b2 +:+ ms) _ Hd).
          rewrite <- sapp_cons, <- sapp_assoc, <- Hb, sapp_cons, <- Hs. exact Hk. }
      rewrite Hn. rewrite (Hrep kp X Hkp HK Hh). reflexivity.
Qed.


(** *** The value of a match *)

Lemma all_nonspace_dot v : all_nonspace v = true -> all_dot v = true.
Proof.
  induction v as [|c v IH]; [reflexivity|]. simpl. intros H.
  apply andb_true_iff in H. destruct H as [Hc Hv].
  rewrite (nonspace_dot c Hc), (IH Hv). reflexivity.
Qed.

Lemma skip_nonspace_split r :
  exists v, r = v +:+ skip_nonspace r /\ all_nonspace v = true /\
            stops (skip_nonspace r) = true.
Proof.
  induction r as [|c r IH].
  - exists EmptyString. repeat split.
  - cbn [skip_nonspace]. destruct (nonspace c) eqn:Hc.
    + destruct IH as (v & Hr & Hv & Hs). exists (String c v).
      split; [rewrite sapp_cons, <- Hr; reflexivity|].
      split; [simpl; rewrite Hc; exact Hv|exact Hs].
    + exists EmptyString. split; [reflexivity|]. split; [reflexivity|].
      simpl. unfold nonspace in Hc. destruct (is_space c); [reflexivity|discriminate].
Qed.

Lemma close_scan_split q : is_quote q = true -> forall x p,
  close_scan q x = Some p ->
  exists v, x = v +:+ String q p /\ all_dot v = true /\
            (stops p = true \/ close_scan q p = None).
Proof.
  intros Hq. induction x as [|c x IH]; intros p H; [discriminate|].
  cbn [close_scan] in H.
  destruct (Ascii.eqb_spec q c) as [Heq|Hne].
  - subst c. destruct x as [|d x].
    + inversion H; subst. exists EmptyString. repeat split. left. reflexivity.
    + destruct (is_space d) eqn:Hd.
      * inversion H; subst. exists EmptyString. repeat split.
        left. simpl. exact Hd.
      * destruct (close_scan q (String d x)) as [p'|] eqn:Hc.
        -- inversion H; subst.
           destruct (IH p eq_refl) as (v & Hx & Hv & Hp).
           exists (String q v).
           split; [rewrite sapp_cons, <- Hx; reflexivity|].
           split; [simpl; rewrite (quote_dot q Hq); exact Hv|exact Hp].
        -- inversion H; subst. exists EmptyString. repeat split.
           right. exact Hc.
  - destruct (dot c) eqn:Hc; [|discriminate].
    destruct (IH p H) as (v & Hx & Hv & Hp).
    exists (String c v).
    split; [rewrite sapp_cons, <- Hx; reflexivity|].
    split; [simpl; rewrite Hc; exact Hv|exact Hp].
Qed.

(** The shape of the text after the separator: an optional quote, the
    value, the closing quote, the text after the match. *)
Lemma after_sep_shape r :
  exists qo v g3 post,
    after_sep r = (v +:+ g3 +:+ post, post, g3) /\
    r = qo +:+ v +:+ g3 +:+ post /\
    all_dot v = true /\
    ((qo = EmptyString /\ g3 = EmptyString /\ stops post = true) \/
     (exists q, is_quote q = true /\ qo = String q EmptyString /\
                g3 = String q EmptyString /\
                (stops post = true \/ close_scan q post = None))).
Proof.
  assert (Hun : exists qo v g3 post,
            (r, skip_nonspace r, EmptyString) = (v +:+ g3 +:+ post, post, g3) /\
            r = qo +:+ v +:+ g3 +:+ post /\ all_dot v = true /\
            ((qo = EmptyString /\ g3 = EmptyString /\ stops post = true) \/
             (exists q, is_quote q = true /\ qo = String q EmptyString /\
                        g3 = String q EmptyString /\
                        (stops post = true \/ close_scan q post = None)))).
  { destruct (skip_nonspace_split r) as (v & Hr & Hv & Hs).
    exists EmptyString, v, EmptyString, (skip_nonspace r).
    rewrite !sapp_nil_l. rewrite <- Hr.
    split; [reflexivity|]. split; [reflexivity|].
    split; [apply all_nonspace_dot, Hv|]. left. repeat split. exact Hs. }
  unfold after_sep. destruct r as [|c r']; [exact Hun|].
  destruct (is_quote c) eqn:Hq; [|exact Hun].
  destruct (close_scan c r') as [p|] eqn:Hc; [|exact Hun].
  destruct (close_scan_split c Hq r' p Hc) as (v & Hx & Hv & Hp).
  exists (String c EmptyString), v, (String c EmptyString), p.
  split; [rewrite Hx; reflexivity|]. split; [rewrite Hx; reflexivity|].
  split; [exact Hv|]. right. exists c. repeat split; assumption.
Qed.


(** *** The substitution, match by match *)

Lemma post_of_shorter ms r :
  key_scan ms = Some r -> (String.length (post_of r) < String.length ms)%nat.
Proof.
  intros H.
  destruct (key_scan_split _ _ H) as (kp & -> & (k1 & d & k2 & -> & _) & _).
  destruct (after_sep_shape r) as (qo & v & g3 & post & Ha & Hr & _).
  unfold post_of. rewrite Ha. cbn [fst snd]. rewrite Hr.
  rewrite !length_app. simpl String.length. lia.
Qed.

Lemma find_match_shorter s pre ms r :
  find_match s = Some (pre, ms, r) ->
  (String.length (post_of r) < String.length s)%nat.
Proof.
  intros H. destruct (find_match_replace _ _ _ _ H) as (-> & Hk & _).
  pose proof (post_of_shorter _ _ Hk). rewrite length_app. lia.
Qed.

Lemma sub_aux_step f s :
  sub_aux (S f) true mask_re mask_repl s =
    match find_match s with
    | Some (pre, ms, r) =>
        pre +:+ masked_match ms r +:+ sub_aux f true mask_re mask_repl (post_of r)
    | None => s
    end.
Proof.
  cbn [sub_aux]. rewrite search_mask.
  destruct (find_match s) as [[[pre ms] r]|] eqn:Hf; [|reflexivity].
  cbn [m_pre m_whole m_post]. rewrite mask_repl_groups.
  destruct (find_match_replace _ _ _ _ Hf) as (_ & Hk & _).
  pose proof (consumed_nonempty _ _ (post_of_shorter _ _ Hk)) as Hne.
  destruct (consumed ms (post_of r)); [congruence|]. reflexivity.
Qed.

(** Fuel beyond the length of the text changes nothing. *)
Lemma sub_aux_fuel : forall n s f f',
  (String.length s <= n)%nat ->
  (String.length s < f)%nat -> (String.length s < f')%nat ->
  sub_aux f true mask_re mask_repl s = sub_aux f' true mask_re mask_repl s.
Proof.
  induction n as [|n IH]; intros s f f' Hn Hf Hf';
    (destruct f as [|f]; [lia|]); (destruct f' as [|f']; [lia|]);
    rewrite !sub_aux_step;
    destruct (find_match s) as [[[pre ms] r]|] eqn:E; try reflexivity;
    pose proof (find_match_shorter _ _ _ _ E) as Hl.
  - lia.
  - f_equal. f_equal. apply IH; lia.
Qed.

Lemma mask_text_unfold s :
  mask_text s =
    match find_match s with
    | Some (pre, ms, r) => pre +:+ masked_match ms r +:+ mask_text (post_of r)
    | None => s
    end.
Proof.
  unfold mask_text, sub. rewrite sub_aux_step.
  destruct (find_match s) as [[[pre ms] r]|] eqn:E; [|reflexivity].
  pose proof (find_match_shorter _ _ _ _ E) as Hl.
  f_equal. f_equal.
  apply (sub_aux_fuel (String.length (post_of r))); lia.
Qed.

(** The parts of a text with a match, and of its masked form. *)
Lemma mask_text_parts s :
  (find_match s = None /\ mask_text s = s) \/
  exists pre kp qo v g3 post,
    s = pre +:+ kp +:+ qo +:+ v +:+ g3 +:+ post /\
    mask_text s = pre +:+ kp +:+ qo +:+ "******" +:+ g3 +:+ mask_text post /\
    find_match s =
      Some (pre, kp +:+ qo +:+ v +:+ g3 +:+ post, qo +:+ v +:+ g3 +:+ post) /\
    KeyPart kp /\ all_dot v = true /\
    (String.length post < String.length s)%nat /\
    ((qo = EmptyString /\ g3 = EmptyString /\ stops post = true) \/
     (exists q, is_quote q = true /\ qo = String q EmptyString /\
                g3 = String q EmptyString /\
                (stops post = true \/ close_scan q post = None))).
Proof.
  rewrite mask_text_unfold.
  destruct (find_match s) as [[[pre ms] r]|] eqn:Hf; [right|left; split; reflexivity].
  destruct (find_match_replace _ _ _ _ Hf) as (Hs & Hk & _).
  destruct (key_scan_split _ _ Hk) as (kp & Hms & HK).
  destruct (after_sep_shape r) as (qo & v & g3 & post & Ha & Hr & Hv & Hq).
  exists pre, kp, qo, v, g3, post.
  subst s ms. rewrite Hr in Ha. subst r.
  split; [reflexivity|]. split.
  { unfold masked_match, post_of. rewrite Ha. cbn [fst snd].
    rewrite <- (sapp_assoc kp qo (v +:+ g3 +:+ post)), consumed_app.
    rewrite !sapp_assoc. reflexivity. }
  split; [reflexivity|]. split; [exact HK|]. split; [exact Hv|].
  split; [|exact Hq].
  destruct HK as ((k1 & d & k2 & -> & _) & _).
  rewrite !length_app. simpl String.length. lia.
Qed.

(** *** What masking keeps *)

Lemma mask_text_head s : head (mask_text s) = head s.
Proof.
  destruct (mask_text_parts s)
    as [[_ ->]|(pre & kp & qo & v & g3 & post & Hs & HM & _ & HK & _)];
    [reflexivity|].
  rewrite HM, Hs.
  destruct pre as [|c pre]; [|reflexivity]. rewrite !sapp_nil_l.
  destruct HK as ((k1 & d & k2 & -> & _) & _).
  destruct k1; reflexivity.
Qed.

Lemma stops_head s :
  stops s = match head s with Some c => is_space c | None => true end.
Proof. destruct s; reflexivity. Qed.

Lemma mask_text_stops s : stops (mask_text s) = stops s.
Proof. rewrite !stops_head, mask_text_head. reflexivity. Qed.

(** No closing quote on the line: the first line of the text holds no [q]. *)
Lemma close_None_congr q a : forall y y',
  close_scan q (a +:+ y) = None ->
  (close_scan q y = None -> close_scan q y' = None) ->
  close_scan q (a +:+ y') = None.
Proof.
  induction a as [|c a IH]; intros y y' H Hy.
  - rewrite sapp_nil_l in *. apply Hy, H.
  - rewrite sapp_cons in *. cbn [close_scan] in *.
    destruct (Ascii.eqb q c).
    + exfalso. destruct (a +:+ y) as [|d t]; [discriminate|].
      destruct (is_space d); [discriminate|].
      destruct (close_scan q (String d t)); discriminate.
    + destruct (dot c); [|reflexivity]. apply (IH y y' H Hy).
Qed.

Lemma close_None_drop q v : forall y,
  all_dot v = true -> close_scan q (v +:+ y) = None -> close_scan q y = None.
Proof.
  induction v as [|c v IH]; intros y Hv H.
  - exact H.
  - rewrite sapp_cons in H. cbn [close_scan] in H.
    simpl in Hv. apply andb_true_iff in Hv. destruct Hv as [Hc Hv].
    destruct (Ascii.eqb q c).
    + exfalso. destruct (v +:+ y) as [|d t]; [discriminate|].
      destruct (is_space d); [discriminate|].
      destruct (close_scan q (String d t)); discriminate.
    + rewrite Hc in H. apply (IH y Hv H).
Qed.

Lemma close_scan_stars q y :
  is_quote q = true -> close_scan q ("******" +:+ y) = close_scan q y.
Proof. intros Hq. destruct (is_quote_cases q Hq) as [-> | ->]; reflexivity. Qed.

(** Masking puts no closing quote on a line that has none. *)
Lemma close_None_mask q : is_quote q = true -> forall n x,
  (String.length x <= n)%nat ->
  close_scan q x = None -> close_scan q (mask_text x) = None.
Proof.
  intros Hq. induction n as [|n IH]; intros x Hn Hc;
    destruct (mask_text_parts x)
      as [[_ ->]|(pre & kp & qo & v & g3 & post & Hs & HM & _ & HK & Hv & Hl & _)];
    try exact Hc.
  - lia.
  - rewrite HM. rewrite Hs in Hc.
    apply (close_None_congr q pre _ _ Hc). intros H1.
    apply (close_None_congr q kp _ _ H1). intros H2.
    apply (close_None_congr q qo _ _ H2). intros H3.
    apply close_None_drop in H3; [|exact Hv].
    rewrite close_scan_stars by exact Hq.
    apply (close_None_congr q g3 _ _ H3). intros H4.
    apply IH; [lia|exact H4].
Qed.

(** *** The value of a masked match *)

Lemma skip_nonspace_stops Y : stops Y = true -> skip_nonspace Y = Y.
Proof.
  destruct Y as [|c Y]; [reflexivity|]. simpl. intros H.
  unfold nonspace. rewrite H. reflexivity.
Qed.

Lemma after_sep_masked_unquoted Y :
  stops Y = true ->
  after_sep ("******" +:+ Y) = ("******" +:+ Y, Y, EmptyString).
Proof.
  intros H.
  change (after_sep ("******" +:+ Y))
    with ("******" +:+ Y, skip_nonspace Y, EmptyString).
  rewrite (skip_nonspace_stops Y H). reflexivity.
Qed.

Lemma after_sep_masked_quoted q Y :
  is_quote q = true ->
  (stops Y = true \/ close_scan q Y = None) ->
  after_sep (String q ("******" +:+ String q Y))
    = ("******" +:+ String q Y, Y, String q EmptyString).
Proof.
  intros Hq H. unfold after_sep. rewrite Hq.
  rewrite (close_scan_stars q (String q Y) Hq).
  cbn [close_scan]. rewrite Ascii.eqb_refl.
  destruct Y as [|d Y]; [reflexivity|].
  destruct H as [H|H].
  - simpl in H. rewrite H. reflexivity.
  - destruct (is_space d); [reflexivity|]. rewrite H. reflexivity.
Qed.

(** *** Masking a masked text *)

(** The substitution of [_mask_cmd] changes nothing in a text that it has
    already masked. *)
Theorem mask_text_idempotent : forall s,
  mask_text (mask_text s) = mask_text s.
Proof.
  assert (H : forall n s, (String.length s <= n)%nat ->
                mask_text (mask_text s) = mask_text s).
  { induction n as [|n IH]; intros s Hn;
      destruct (mask_text_parts s)
        as [[_ HM]|(pre & kp & qo & v & g3 & post & Hs & HM & Hf & HK & Hv & Hl & Hq)].
    - rewrite HM. exact HM.
    - lia.
    - rewrite HM. exact HM.
    - assert (IHp : mask_text (mask_text post) = mask_text post)
        by (apply IH; lia).
      assert (HX : hns (qo +:+ "******" +:+ g3 +:+ mask_text post) = true).
      { destruct Hq as [(-> & _)|(q & Hq1 & -> & _)]; [reflexivity|].
        simpl. exact (quote_nonspace q Hq1). }
      assert (HaX : after_sep (qo +:+ "******" +:+ g3 +:+ mask_text post)
                    = ("******" +:+ g3 +:+ mask_text post, mask_text post, g3)).
      { destruct Hq as [(-> & -> & Hst)|(q & Hq1 & -> & -> & Hst)].
        - rewrite !sapp_nil_l. apply after_sep_masked_unquoted.
          rewrite mask_text_stops. exact Hst.
        - apply (after_sep_masked_quoted q (mask_text post) Hq1).
          destruct Hst as [Hst|Hst].
          + left. rewrite mask_text_stops. exact Hst.
          + right. apply (close_None_mask q Hq1 (String.length post)); [lia|exact Hst]. }
      destruct (find_match_replace _ _ _ _ Hf) as (_ & _ & Hrep).
      specialize (Hrep kp _ eq_refl HK HX).
      rewrite HM.
      rewrite (mask_text_unfold
                 (pre +:+ kp +:+ qo +:+ "******" +:+ g3 +:+ mask_text post)).
      rewrite Hrep. unfold masked_match, post_of. rewrite HaX. cbn [fst snd].
      rewrite <- (sapp_assoc kp qo ("******" +:+ g3 +:+ mask_text post)).
      rewrite consumed_app. rewrite IHp. rewrite !sapp_assoc. reflexivity. }
  intros s. apply (H (String.length s)). lia.
Qed.

(** Masking the masked command, passed as a command of one token, gives
    the masked command. *)
Corollary mask_cmd_of_masked_tokens connection_cmd :
  _mask_cmd (CmdList [_mask_cmd connection_cmd]) = _mask_cmd connection_cmd.
Proof. unfold _mask_cmd at 1. cbn [join_cmd join]. apply mask_text_idempotent. Qed.

End MaskMatcher.

(** ** Submission and tracking: when [submit] returns *)

Section Tracking.

Import PyStr Spark Specs Fixtures Terms.

Ltac unfold_m :=
  unfold bind, get_self, update, emit, ret, raise, pending, when in *; simpl in *.

(** The loop leaves only at a terminal status. *)
Lemma poll_loop_terminal polls : forall missed st st',
  poll_loop polls missed st = (Ok tt, st') ->
  is_terminal (_driver_status (self st')) = true.
Proof.
  induction polls as [|child rest IH]; intros missed st st'.
  - simpl poll_loop. unfold bind, get_self.
    destruct (is_terminal (_driver_status (self st))) eqn:Ht.
    + unfold ret. intros H. inversion H; subst. exact Ht.
    + unfold pending. discriminate.
  - simpl poll_loop. unfold bind at 1. unfold get_self at 1.
    destruct (is_terminal (_driver_status (self st))) eqn:Ht.
    + unfold ret. intros H. inversion H; subst. exact Ht.
    + unfold bind at 1. unfold emit at 1.
      unfold bind at 1.
      destruct (_build_track_driver_status_command _) as [[cmd|e|] st1];
        try discriminate.
      unfold bind at 1.
      destruct (popen cmd None child st1) as [[res|e|] st2]; try discriminate.
      unfold bind at 1.
      destruct (_process_spark_status_log (fst res) st2) as [[[]|e|] st3];
        try discriminate.
      destruct (negb (snd res =? 0));
        [destruct (missed <? max_missed_job_status_reports)|];
        [apply IH|discriminate|apply IH].
Qed.

(** X1: when [_start_driver_status_tracking] returns, the stored driver
    status is one of FINISHED, UNKNOWN, KILLED, FAILED and ERROR. *)
Theorem tracking_returns_at_terminal_status polls h :
  fst (run (_start_driver_status_tracking polls) h) = Ok tt ->
  is_terminal
    (_driver_status (self (snd (run (_start_driver_status_tracking polls) h))))
    = true.
Proof.
  unfold run, _start_driver_status_tracking.
  destruct (poll_loop polls 0 (start h)) as [[[]|e|] st'] eqn:H; simpl;
    try discriminate.
  intros _. eapply poll_loop_terminal; eauto.
Qed.

Lemma tracking_returns_at_terminal_status_witness :
  fst (run (_start_driver_status_tracking ten_failures_then_finished) tracking_hook)
    = Ok tt /\
  is_terminal
    (_driver_status
       (self (snd (run (_start_driver_status_tracking ten_failures_then_finished)
                       tracking_hook)))) = true.
Proof.
  assert (H : fst (run (_start_driver_status_tracking ten_failures_then_finished)
                       tracking_hook) = Ok tt) by (vm_compute; reflexivity).
  split; [exact H|].
  exact (tracking_returns_at_terminal_status ten_failures_then_finished
           tracking_hook H).
Defined.

Lemma submit_launch_needs_child krb app st r st1 :
  submit_launch krb app LaunchFails st = (Ok r, st1) -> False.
Proof.
  unfold submit_launch. unfold bind at 1.
  destruct (_build_spark_submit_command krb app st) as [[cmd0|e|] st0];
    unfold_m; discriminate.
Qed.

Lemma bind_eq {A B} (c : M A) (k : A -> M B) st :
  bind c k st =
    match c st with
    | (Ok a, st') => k a st'
    | (Raise e, st') => (Raise e, st')
    | (Pending, st') => (Pending, st')
    end.
Proof. reflexivity. Qed.

Lemma check_returncode_state cmd rc st r st' :
  check_returncode cmd rc st = (r, st') -> st' = st.
Proof.
  unfold check_returncode. rewrite bind_eq. unfold get_self.
  destruct (submit_failed rc _ _); unfold raise, ret; intros H;
    inversion H; reflexivity.
Qed.

Lemma submit_track_returns polls st st' :
  submit_track polls st = (Ok tt, st') ->
  _should_track_driver_status (self st) = false \/
  _driver_status (self st') = Some "FINISHED".
Proof.
  unfold submit_track. rewrite bind_eq. unfold get_self.
  destruct (_should_track_driver_status (self st)) eqn:Ht; [|left; reflexivity].
  destruct (_driver_id (self st)) as [d|]; [|unfold raise; discriminate].
  rewrite bind_eq. unfold update. rewrite bind_eq.
  match goal with
  | |- context [_start_driver_status_tracking polls ?s] =>
      destruct (_start_driver_status_tracking polls s) as [[[]|e|] st2];
        try discriminate
  end.
  rewrite bind_eq. unfold get_self.
  destruct (bool_decide (_driver_status (self st2) = Some "FINISHED")) eqn:Hb;
    unfold ret, raise; [|discriminate].
  intros H. inversion H; subst. right.
  apply bool_decide_eq_true_1 in Hb. exact Hb.
Qed.

(** X2: [submit] returns normally only for a target whose driver is not
    tracked, or with the driver status FINISHED. *)
Theorem submit_returns_only_when_finished krb app child polls h :
  fst (run (submit krb app child polls) h) = Ok tt ->
  _should_track_driver_status h = false \/
  _driver_status (self (snd (run (submit krb app child polls) h)))
    = Some "FINISHED".
Proof.
  unfold run, submit. rewrite bind_eq.
  destruct (submit_launch krb app child (start h)) as [[[cmd rc]|e|] st1] eqn:Hl;
    cbn [fst snd]; try discriminate.
  destruct child as [out rc0|]; [|exfalso; eapply submit_launch_needs_child; eauto].
  apply submit_launch_inv in Hl. destruct Hl as (_ & (_ & _ & _ & _ & Htr)).
  simpl in Htr.
  rewrite bind_eq.
  destruct (check_returncode cmd rc st1) as [[[]|e|] st1'] eqn:Hc;
    cbn [fst snd]; try discriminate.
  apply check_returncode_state in Hc. subst st1'.
  destruct (submit_track polls st1) as [[[]|e|] st2] eqn:Hs;
    cbn [fst snd]; try discriminate.
  intros _. apply submit_track_returns in Hs.
  destruct Hs as [Hs|Hs]; [left; congruence|right; exact Hs].
Qed.

Lemma submit_returns_only_when_finished_witness :
  fst (run (submit None "app.py" (Launched ["driver-001 started"] 0) [check_finished])
           standalone_hook) = Ok tt /\
  _driver_status
    (self (snd (run (submit None "app.py" (Launched ["driver-001 started"] 0)
                       [check_finished]) standalone_hook))) = Some "FINISHED".
Proof.
  assert (H : fst (run (submit None "app.py" (Launched ["driver-001 started"] 0)
                          [check_finished]) standalone_hook) = Ok tt)
    by (vm_compute; reflexivity).
  split; [exact H|].
  destruct (submit_returns_only_when_finished None "app.py"
              (Launched ["driver-001 started"] 0) [check_finished]
              standalone_hook H) as [Hf|Hf]; [discriminate Hf|exact Hf].
Defined.

Lemma driver_id_no_match_log itr : forall st st',
  Forall (fun line => Re.search false driver_id_re (strip line) = None) itr ->
  _process_spark_submit_log itr st = (Ok tt, st') ->
  _driver_id (self st') = _driver_id (self st).
Proof.
  induction itr as [|line rest IH]; intros st st' Hall; simpl.
  - intros H. inversion H; subst. reflexivity.
  - inversion Hall as [|? ? Hline Hrest]; subst.
    unfold bind.
    destruct (process_submit_line_ok line st) as (st1 & Hp & _).
    rewrite Hp. intros H.
    rewrite (IH st1 st' Hrest H). eapply driver_id_no_match; eauto.
Qed.

(** X3: on a target whose driver is tracked, when no line of the output
    carries a driver id, [submit] raises [AirflowException] after the
    process has ended with exit code 0: no driver id is known. *)
Theorem submit_without_driver_id_raises h krb app out polls cmd st0 :
  _should_track_driver_status h = true ->
  _is_kubernetes h = false ->
  _driver_id h = None ->
  Forall (fun line => Re.search false driver_id_re (strip line) = None) out ->
  _build_spark_submit_command krb app (start h) = (Ok cmd, st0) ->
  exists st1,
    run (submit krb app (Launched out 0) polls) h =
      (Raise (AirflowException
                "No driver id is known: something went wrong when executing the spark submit command"),
       st1).
Proof.
  intros Ht Hk Hd Hall Hb.
  destruct (submit_launch_run krb app out 0 _ _ _ Hb) as (st2 & Hp & Hl).
  apply build_command_keeps in Hb as ((_ & _ & _ & Hk0 & Ht0) & _ & Hd0).
  simpl in *.
  destruct (process_submit_log_ok out (after_popen cmd st0))
    as (st2' & Hp' & (_ & _ & _ & Hk2 & Ht2)).
  rewrite Hp in Hp'. inversion Hp'; subst st2'. simpl in Hk2, Ht2.
  pose proof (driver_id_no_match_log out _ _ Hall Hp) as Hid. simpl in Hid.
  exists (after_wait 0 st2).
  unfold run, submit. unfold bind at 1. rewrite Hl. simpl.
  unfold check_returncode, bind, get_self, submit_failed. simpl.
  rewrite Hk2, Hk0, Hk. simpl.
  unfold submit_track, bind, get_self. simpl.
  rewrite Ht2, Ht0, Ht, Hid, Hd0, Hd. reflexivity.
Qed.

Lemma submit_without_driver_id_raises_witness :
  _should_track_driver_status standalone_hook = true /\
  _is_kubernetes standalone_hook = false /\
  _driver_id standalone_hook = None /\
  exists st1,
    run (submit None "app.py" (Launched ["Submitting application"] 0) [])
        standalone_hook =
      (Raise (AirflowException
                "No driver id is known: something went wrong when executing the spark submit command"),
       st1).
Proof.
  repeat (split; [reflexivity|]).
  apply (submit_without_driver_id_raises standalone_hook None "app.py"
           ["Submitting application"] [] (fst standalone_built)
           (snd standalone_built)); try reflexivity.
  repeat constructor.
Defined.

End Tracking.

(** ** The command line: what is built, and what stops a submission
    before any process is started *)

Section CommandLine.

Import PyStr Spark Specs Fixtures Terms.

Ltac unfold_m :=
  unfold bind, get_self, update, emit, ret, raise, pending, when in *; simpl in *.

(** When the builder raises, [submit] raises the same exception in the
    same state. *)
Lemma submit_stops_with_builder krb app child polls st e st0 :
  _build_spark_submit_command krb app st = (Raise e, st0) ->
  submit krb app child polls st = (Raise e, st0).
Proof.
  intros Hb. unfold submit, submit_launch. rewrite !bind_eq, Hb. reflexivity.
Qed.

(** X4: environment variables are refused on a standalone target in
    cluster deploy mode: [submit] raises [AirflowException] and nothing
    has been started or logged. *)
Theorem env_vars_refused_in_standalone_cluster h krb app child polls :
  nonempty (_env_vars (args h)) = true ->
  _is_yarn h = false ->
  _is_kubernetes h = false ->
  deploy_mode (_connection h) = Some "cluster" ->
  run (submit krb app child polls) h =
    (Raise (AirflowException
              "SparkSubmitHook env_vars is not supported in standalone-cluster mode."),
     start h).
Proof.
  intros Hn Hy Hk Hd. unfold run. apply submit_stops_with_builder.
  unfold _build_spark_submit_command. unfold_m.
  rewrite Hn, Hy, Hk, Hd. reflexivity.
Qed.

Lemma env_vars_refused_in_standalone_cluster_witness :
  nonempty (_env_vars (args standalone_env_hook)) = true /\
  _is_yarn standalone_env_hook = false /\
  _is_kubernetes standalone_env_hook = false /\
  deploy_mode (_connection standalone_env_hook) = Some "cluster" /\
  run (submit None "app.py" (Launched [] 0) []) standalone_env_hook =
    (Raise (AirflowException
              "SparkSubmitHook env_vars is not supported in standalone-cluster mode."),
     start standalone_env_hook).
Proof.
  repeat (split; [reflexivity|]).
  apply (env_vars_refused_in_standalone_cluster standalone_env_hook None "app.py"
           (Launched [] 0) []); reflexivity.
Defined.

(** X5: with [use_krb5ccache] and no value in [KRB5CCNAME], [submit]
    raises [AirflowException] and nothing has been started or logged. *)
Theorem ccache_needs_KRB5CCNAME h krb app child polls :
  _use_krb5ccache (args h) = true ->
  truthy krb = false ->
  exists msg st',
    run (submit krb app child polls) h = (Raise (AirflowException msg), st') /\
    trace st' = [].
Proof.
  intros Hu Hk.
  assert (Hb : exists msg st',
            _build_spark_submit_command krb app (start h)
              = (Raise (AirflowException msg), st') /\ trace st' = []).
  { unfold _build_spark_submit_command. unfold_m. rewrite Hu, Hk. simpl.
    destruct (nonempty (_env_vars (args h))); simpl;
      [destruct (_is_kubernetes h); destruct (_is_yarn h); simpl;
       try destruct (bool_decide (deploy_mode (_connection h) = Some "cluster"));
       simpl|];
      eexists _, _; split; reflexivity. }
  destruct Hb as (msg & st' & Hb & Ht).
  exists msg, st'. split; [|exact Ht].
  unfold run. apply submit_stops_with_builder. exact Hb.
Qed.

Lemma ccache_needs_KRB5CCNAME_witness :
  _use_krb5ccache (args ccache_hook) = true /\
  truthy None = false /\
  exists msg st',
    run (submit None "app.py" (Launched [] 0) []) ccache_hook
      = (Raise (AirflowException msg), st') /\
    trace st' = [].
Proof.
  repeat (split; [reflexivity|]).
  apply (ccache_needs_KRB5CCNAME ccache_hook None "app.py" (Launched [] 0) []);
    reflexivity.
Defined.

(** The command line of a builder that returns, part by part, and what
    the builder leaves behind. *)
Lemma builder_result h krb app cmd st0 :
  _build_spark_submit_command krb app (start h) = (Ok cmd, st0) ->
  exists binary,
    spark_binary (_connection h) = Some binary /\
    cmd = (binary :: ["--master"; master (_connection h)] ++
           conf_tokens (_conf (args h)) ++ env_part h ++ ns_part h ++
           option_tokens_1 h ++ ccache_part h ++ option_tokens_2 h app)%list /\
    self st0 = (if env_kept h then set_env (_env_vars (args h)) h else h) /\
    trace st0 = [EvLog ("Spark-Submit cmd: " +:+ _mask_cmd (CmdList cmd))] /\
    (nonempty (_env_vars (args h)) = true -> _is_yarn h = false ->
     _is_kubernetes h = false -> deploy_mode (_connection h) <> Some "cluster").
Proof.
  unfold _build_spark_submit_command, _get_spark_binary_path.
  unfold env_part, ns_part, ccache_part, env_kept. unfold_m.
  destruct (nonempty (_env_vars (args h))); simpl;
    destruct (_is_yarn h); destruct (_is_kubernetes h); simpl;
    try (destruct (bool_decide (deploy_mode (_connection h) = Some "cluster")) eqn:Hd;
         simpl);
    destruct (_use_krb5ccache (args h)); simpl;
    try (destruct (truthy krb); simpl);
    destruct (spark_binary (_connection h)) as [binary|]; simpl;
    intros H; inversion H; subst; clear H;
    exists binary; (split; [reflexivity|]); (split; [reflexivity|]);
    (split; [try reflexivity; destruct h; reflexivity|]); (split; [reflexivity|]);
    intros; try discriminate;
    match goal with
    | Hd : bool_decide _ = false |- _ => exact (bool_decide_eq_false_1 _ Hd)
    end.
Qed.

(** Without environment variables the builder returns the same command
    line with the part made from them left out. *)
Lemma builder_without_env_vars h krb app cmd st0 :
  _build_spark_submit_command krb app (start h) = (Ok cmd, st0) ->
  exists binary,
    spark_binary (_connection h) = Some binary /\
    fst (run (_build_spark_submit_command krb app) (without_env_vars h)) =
      Ok (binary :: ["--master"; master (_connection h)] ++
          conf_tokens (_conf (args h)) ++ ns_part h ++
          option_tokens_1 h ++ ccache_part h ++ option_tokens_2 h app)%list.
Proof.
  unfold run, _build_spark_submit_command, _get_spark_binary_path.
  unfold ns_part, ccache_part. unfold_m.
  destruct (nonempty (_env_vars (args h))); simpl;
    destruct (_is_yarn h); destruct (_is_kubernetes h); simpl;
    try (destruct (bool_decide (deploy_mode (_connection h) = Some "cluster"));
         simpl);
    destruct (_use_krb5ccache (args h)); simpl;
    try (destruct (truthy krb); simpl);
    destruct (spark_binary (_connection h)) as [binary|]; simpl;
    intros H; inversion H; subst; clear H;
    exists binary; split; reflexivity.
Qed.

(** X6: where the environment variables of the hook go.  The command
    line is the one built without them, with, on YARN, one pair [--conf
    spark.yarn.appMasterEnv.KEY=VALUE] for each variable put in right
    after the settings of the configuration, and the variables are also
    kept for the environment of the process; on Kubernetes the pairs are
    [--conf spark.kubernetes.driverEnv.KEY=VALUE] and nothing is kept
    for the environment of the process; on any other target the command
    line is the one built without them, they are kept for the
    environment of the process, and the deploy mode is not [cluster]. *)
Theorem env_vars_routing h krb app cmd st0 :
  nonempty (_env_vars (args h)) = true ->
  _build_spark_submit_command krb app (start h) = (Ok cmd, st0) ->
  exists binary tail,
    let head := ([binary; "--master"; master (_connection h)] ++
                 conf_tokens (_conf (args h)))%list in
    let pairs := fun tmpl =>
      flat_map (fun kv => ["--conf"; tmpl +:+ fst kv +:+ "=" +:+ snd kv])
               (default [] (_env_vars (args h))) in
    spark_binary (_connection h) = Some binary /\
    fst (run (_build_spark_submit_command krb app) (without_env_vars h)) =
      Ok (head ++ tail)%list /\
    (_is_yarn h = true ->
     cmd = (head ++ pairs "spark.yarn.appMasterEnv." ++ tail)%list /\
     _env (self st0) = _env_vars (args h)) /\
    (_is_yarn h = false -> _is_kubernetes h = true ->
     cmd = (head ++ pairs "spark.kubernetes.driverEnv." ++ tail)%list /\
     _env (self st0) = _env h) /\
    (_is_yarn h = false -> _is_kubernetes h = false ->
     cmd = (head ++ tail)%list /\
     _env (self st0) = _env_vars (args h) /\
     deploy_mode (_connection h) <> Some "cluster").
Proof.
  intros Hn Hb.
  destruct (builder_result h krb app cmd st0 Hb) as (binary & Hbin & Hc & Hs & _ & Hd).
  destruct (builder_without_env_vars h krb app cmd st0 Hb) as (binary' & Hbin' & Hw).
  assert (binary' = binary) by congruence. subst binary'.
  exists binary,
    (ns_part h ++ option_tokens_1 h ++ ccache_part h ++ option_tokens_2 h app)%list.
  cbv zeta. split; [exact Hbin|].
  split; [rewrite Hw, <- app_assoc; reflexivity|].
  unfold env_kept in Hs. unfold env_part in Hc. rewrite Hn in Hs, Hc.
  split; [|split].
  - intros Hy. rewrite Hy, orb_true_r in Hc. rewrite Hy in Hs.
    cbn [andb orb] in Hs, Hc. rewrite Hs, Hc, <- app_assoc.
    split; reflexivity.
  - intros Hy Hk. rewrite Hy, Hk in Hc, Hs.
    cbn [andb orb negb] in Hs, Hc. rewrite Hs, Hc, <- app_assoc.
    split; reflexivity.
  - intros Hy Hk. rewrite Hy, Hk in Hc, Hs.
    cbn [andb orb negb] in Hs, Hc. rewrite Hs, Hc, <- app_assoc.
    split; [reflexivity|]. split; [reflexivity|]. apply Hd; assumption.
Qed.

Lemma env_vars_routing_witness :
  nonempty (_env_vars (args k8s_env_hook)) = true /\
  fst (run (_build_spark_submit_command None "app.py") k8s_env_hook)
    = Ok (fst k8s_env_built) /\
  exists tail,
    fst (run (_build_spark_submit_command None "app.py")
             (without_env_vars k8s_env_hook)) =
      Ok (["spark-submit"; "--master"; "k8s://https://k8s-master:443"] ++ tail)%list /\
    fst k8s_env_built =
      (["spark-submit"; "--master"; "k8s://https://k8s-master:443"] ++
       ["--conf"; "spark.kubernetes.driverEnv.STAGE=prod"] ++ tail)%list /\
    _env (self (snd k8s_env_built)) = None.
Proof.
  assert (Hn : nonempty (_env_vars (args k8s_env_hook)) = true) by reflexivity.
  assert (Hb : _build_spark_submit_command None "app.py" (start k8s_env_hook)
               = (Ok (fst k8s_env_built), snd k8s_env_built))
    by (vm_compute; reflexivity).
  split; [exact Hn|]. split; [unfold run; rewrite Hb; reflexivity|].
  destruct (env_vars_routing k8s_env_hook None "app.py" _ _ Hn Hb)
    as (binary & tail & Hbin & Hw & _ & Hk & _).
  assert (binary = "spark-submit") by (vm_compute in Hbin; congruence).
  subst binary. exists tail.
  destruct (Hk eq_refl eq_refl) as (Hc & He).
  split; [exact Hw|]. split; [exact Hc|exact He].
Defined.

(** The last flags and the application. *)
Lemma option_tokens_2_shape h application :
  exists flags,
    option_tokens_2 h application =
      (flags ++ application ::
       (if nonempty (_application_args (args h))
        then default [] (_application_args (args h)) else []))%list.
Proof.
  unfold option_tokens_2.
  exists (flag_str "--proxy-user" (_proxy_user (args h)) ++
          flag_str "--name" (Some (_name (args h))) ++
          flag_str "--class" (_java_class (args h)) ++
          (if _verbose (args h) then ["--verbose"] else []) ++
          flag_str "--queue" (queue (_connection h)) ++
          flag_str "--deploy-mode" (deploy_mode (_connection h)))%list.
  rewrite <- !app_assoc. reflexivity.
Qed.

(** X7: the command line starts with the binary, [--master] and the
    master, followed by one [--conf key=value] pair for each entry of the
    configuration; it ends with the application followed by the
    application arguments; and the only thing the builder records is the
    log entry with the masked command line. *)
Theorem build_command_shape h krb app cmd st0 :
  _build_spark_submit_command krb app (start h) = (Ok cmd, st0) ->
  exists binary options,
    spark_binary (_connection h) = Some binary /\
    cmd = ([binary; "--master"; master (_connection h)] ++
           conf_tokens (_conf (args h)) ++ options ++
           app :: (if nonempty (_application_args (args h))
                   then default [] (_application_args (args h)) else []))%list /\
    trace st0 = [EvLog ("Spark-Submit cmd: " +:+ _mask_cmd (CmdList cmd))].
Proof.
  intros Hb.
  destruct (builder_result h krb app cmd st0 Hb) as (binary & Hbin & Hc & _ & Ht & _).
  destruct (option_tokens_2_shape h app) as (flags & Hf).
  exists binary,
    (env_part h ++ ns_part h ++ option_tokens_1 h ++ ccache_part h ++ flags)%list.
  split; [exact Hbin|]. split; [|exact Ht].
  rewrite Hc, Hf. rewrite <- !app_assoc. reflexivity.
Qed.

Lemma build_command_shape_witness :
  exists binary options,
    spark_binary (_connection k8s_hook) = Some binary /\
    fst k8s_built =
      ([binary; "--master"; master (_connection k8s_hook)] ++
       conf_tokens (_conf (args k8s_hook)) ++ options ++
       "app.py" :: (if nonempty (_application_args (args k8s_hook))
                    then default [] (_application_args (args k8s_hook))
                    else []))%list /\
    trace (snd k8s_built) =
      [EvLog ("Spark-Submit cmd: " +:+ _mask_cmd (CmdList (fst k8s_built)))].
Proof.
  apply (build_command_shape k8s_hook None "app.py" (fst k8s_built) (snd k8s_built)).
  vm_compute. reflexivity.
Defined.

End CommandLine.

(** ** The log classifiers: identifiers, exit codes and malformed lines *)

Section Logs.

Import PyStr Spark Specs Fixtures Terms.

Ltac unfold_m :=
  unfold bind, get_self, update, emit, ret, raise, pending, when in *; simpl in *.

Ltac break_search :=
  repeat match goal with
         | |- context [Re.search ?a ?b ?c] => destruct (Re.search a b c) eqn:?
         | |- context [if ?b then _ else _] =>
             lazymatch type of b with bool => destruct b eqn:? end
         end.

Lemma process_submit_log_app a b st :
  _process_spark_submit_log (a ++ b) st =
    bind (_process_spark_submit_log a) (fun _ => _process_spark_submit_log b) st.
Proof.
  revert st. induction a as [|line a IH]; intros st; simpl.
  - reflexivity.
  - rewrite !bind_eq.
    destruct (process_submit_line line st) as [[[]|e|] st1]; try reflexivity.
    rewrite IH, bind_eq. reflexivity.
Qed.

(** *** The YARN application id *)

Lemma yarn_id_set raw st st' mo :
  _is_yarn (self st) = true ->
  deploy_mode (_connection (self st)) = Some "cluster" ->
  Re.search false yarn_app_re (strip raw) = Some mo ->
  process_submit_line raw st = (Ok tt, st') ->
  _yarn_application_id (self st') = Some (Re.m_whole mo).
Proof.
  destruct st as [h tr]. simpl. intros Hy Hd Hs.
  unfold process_submit_line. unfold_m. rewrite Hy, Hd, Hs.
  rewrite bool_decide_eq_true_2 by reflexivity. simpl.
  intros H. inversion H; subst. reflexivity.
Qed.

Lemma yarn_id_no_match raw st st' :
  _is_yarn (self st) = true ->
  deploy_mode (_connection (self st)) = Some "cluster" ->
  Re.search false yarn_app_re (strip raw) = None ->
  process_submit_line raw st = (Ok tt, st') ->
  _yarn_application_id (self st') = _yarn_application_id (self st).
Proof.
  destruct st as [h tr]. simpl. intros Hy Hd Hs.
  unfold process_submit_line. unfold_m. rewrite Hy, Hd, Hs.
  rewrite bool_decide_eq_true_2 by reflexivity. simpl.
  intros H. inversion H; subst. reflexivity.
Qed.

Lemma yarn_id_no_match_log itr : forall st st',
  _is_yarn (self st) = true ->
  deploy_mode (_connection (self st)) = Some "cluster" ->
  Forall (fun l => Re.search false yarn_app_re (strip l) = None) itr ->
  _process_spark_submit_log itr st = (Ok tt, st') ->
  _yarn_application_id (self st') = _yarn_application_id (self st).
Proof.
  induction itr as [|line rest IH]; intros st st' Hy Hd Hall; simpl.
  - intros H. inversion H; subst. reflexivity.
  - inversion Hall as [|? ? Hline Hrest]; subst.
    rewrite bind_eq.
    destruct (process_submit_line_ok line st) as (st1 & Hp & (_ & Hcn & Hy1 & _)).
    rewrite Hp. intros H.
    rewrite (IH st1 st'); try assumption; try congruence.
    eapply yarn_id_no_match; eauto.
Qed.

(** X8: on YARN in cluster deploy mode the application id is the one of
    the last line of the output that carries one: every such line
    overwrites the stored id. *)
Theorem yarn_application_id_last_match_wins h pre line post d :
  _is_yarn h = true ->
  deploy_mode (_connection h) = Some "cluster" ->
  option_map Re.m_whole (Re.search false yarn_app_re (strip line)) = Some d ->
  Forall (fun l => Re.search false yarn_app_re (strip l) = None) post ->
  fst (run (_process_spark_submit_log (pre ++ line :: post)) h) = Ok tt /\
  _yarn_application_id
    (self (snd (run (_process_spark_submit_log (pre ++ line :: post)) h)))
    = Some d.
Proof.
  intros Hy Hd Hm Hall. unfold run.
  rewrite process_submit_log_app, bind_eq.
  destruct (process_submit_log_ok pre (start h)) as (st1 & Hp & (_ & Hcn & Hy1 & _)).
  rewrite Hp. simpl _process_spark_submit_log. rewrite bind_eq.
  destruct (process_submit_line_ok line st1) as (st2 & Hl & (_ & Hcn2 & Hy2 & _)).
  rewrite Hl.
  destruct (process_submit_log_ok post st2) as (st3 & Hq & _).
  rewrite Hq. cbn [fst snd]. split; [reflexivity|].
  simpl in Hcn, Hy1.
  destruct (Re.search false yarn_app_re (strip line)) as [mo|] eqn:Hs;
    [|discriminate].
  simpl in Hm. inversion Hm; subst d.
  rewrite (yarn_id_no_match_log post st2 st3); try assumption; try congruence.
  eapply yarn_id_set; [| |exact Hs|exact Hl]; congruence.
Qed.

Lemma yarn_application_id_last_match_wins_witness :
  _is_yarn yarn_hook = true /\
  deploy_mode (_connection yarn_hook) = Some "cluster" /\
  _yarn_application_id
    (self (snd (run (_process_spark_submit_log
                       ["Submitted application_1700000000000_0001";
                        "Submitted application_1700000000000_0002";
                        "state: RUNNING"]) yarn_hook)))
    = Some "application_1700000000000_0002".
Proof.
  repeat (split; [reflexivity|]).
  apply (yarn_application_id_last_match_wins yarn_hook
           ["Submitted application_1700000000000_0001"]
           "Submitted application_1700000000000_0002" ["state: RUNNING"]
           "application_1700000000000_0002");
    try reflexivity.
  repeat constructor.
Defined.

(** *** The exit code on Kubernetes outside cluster deploy mode *)

Lemma k8s_line_sets_zero raw st st' :
  _is_kubernetes (self st) = true ->
  deploy_mode (_connection (self st)) <> Some "cluster" ->
  process_submit_line raw st = (Ok tt, st') ->
  _spark_exit_code (self st') = Some 0.
Proof.
  destruct st as [h tr]. simpl. intros Hk Hd.
  unfold process_submit_line. unfold_m. rewrite Hk.
  rewrite bool_decide_eq_false_2 by assumption. rewrite andb_false_r.
  break_search; intros H; inversion H; subst; reflexivity.
Qed.

Lemma k8s_log_sets_zero itr : forall st st',
  _is_kubernetes (self st) = true ->
  deploy_mode (_connection (self st)) <> Some "cluster" ->
  itr <> [] \/ _spark_exit_code (self st) = Some 0 ->
  _process_spark_submit_log itr st = (Ok tt, st') ->
  _spark_exit_code (self st') = Some 0.
Proof.
  induction itr as [|line rest IH]; intros st st' Hk Hd Hor; simpl.
  - intros H. inversion H; subst. destruct Hor as [Hor|Hor]; [congruence|exact Hor].
  - rewrite bind_eq.
    destruct (process_submit_line_ok line st) as (st1 & Hp & (_ & Hcn & _ & Hk1 & _)).
    rewrite Hp. intros H.
    apply (IH st1 st'); try congruence.
    right. eapply k8s_line_sets_zero; eauto.
Qed.

(** X9: on Kubernetes outside cluster deploy mode every line of the
    output sets the stored exit code to 0, so after any output the check
    of [submit] depends on the exit code of the process alone and
    [submit] goes on to tracking when it is 0; a process that prints
    nothing leaves the stored exit code unset, and [submit] raises
    [AirflowException] whatever the exit code of the process. *)
Theorem k8s_client_mode_exit_code h krb app out rc polls cmd st0 :
  _is_kubernetes h = true ->
  deploy_mode (_connection h) <> Some "cluster" ->
  _build_spark_submit_command krb app (start h) = (Ok cmd, st0) ->
  exists st1,
    submit_launch krb app (Launched out rc) (start h) = (Ok (cmd, rc), st1) /\
    (out <> [] ->
     _spark_exit_code (self st1) = Some 0 /\
     (rc = 0 ->
      run (submit krb app (Launched out rc) polls) h = submit_track polls st1)) /\
    (out = [] -> _spark_exit_code h = None ->
     run (submit krb app (Launched out rc) polls) h =
       (Raise (AirflowException (submit_error_msg (self st1) cmd rc)), st1)).
Proof.
  intros Hk Hd Hb.
  destruct (submit_launch_run krb app out rc _ _ _ Hb) as (st2 & Hp & Hl).
  apply build_command_keeps in Hb as ((_ & Hcn & _ & Hk0 & _) & Hc0 & _).
  simpl in *.
  destruct (process_submit_log_ok out (after_popen cmd st0))
    as (st2' & Hp' & (_ & _ & _ & Hk2 & _)).
  rewrite Hp in Hp'. inversion Hp'; subst st2'. simpl in Hk2.
  exists (after_wait rc st2). split; [exact Hl|].
  assert (Hrun : run (submit krb app (Launched out rc) polls) h =
                 bind (check_returncode cmd rc) (fun _ => submit_track polls)
                      (after_wait rc st2)).
  { unfold run, submit. rewrite bind_eq, Hl. reflexivity. }
  split.
  - intros Hne.
    assert (Hz : _spark_exit_code (self st2) = Some 0).
    { apply (k8s_log_sets_zero out (after_popen cmd st0) st2); simpl;
        [congruence|congruence|left; exact Hne|exact Hp]. }
    split; [exact Hz|]. intros ->. rewrite Hrun.
    unfold check_returncode. rewrite !bind_eq. unfold get_self, submit_failed.
    simpl. rewrite Hz. rewrite bool_decide_eq_true_2 by reflexivity.
    rewrite andb_false_r. reflexivity.
  - intros -> Hnone. rewrite Hrun.
    simpl in Hp. unfold ret in Hp. inversion Hp; subst st2.
    unfold check_returncode. rewrite !bind_eq. unfold get_self, submit_failed.
    simpl. rewrite Hc0, Hnone, Hk0, Hk.
    rewrite bool_decide_eq_false_2 by discriminate.
    rewrite orb_true_r. reflexivity.
Qed.

Lemma k8s_client_mode_exit_code_witness :
  _is_kubernetes k8s_client_hook = true /\
  deploy_mode (_connection k8s_client_hook) <> Some "cluster" /\
  exists st1,
    _spark_exit_code k8s_client_hook = None /\
    run (submit None "app.py" (Launched [] 0) []) k8s_client_hook =
      (Raise (AirflowException
                (submit_error_msg (self st1) (fst k8s_client_built) 0)), st1).
Proof.
  assert (Hd : deploy_mode (_connection k8s_client_hook) <> Some "cluster")
    by discriminate.
  assert (Hb : _build_spark_submit_command None "app.py" (start k8s_client_hook)
               = (Ok (fst k8s_client_built), snd k8s_client_built))
    by (vm_compute; reflexivity).
  split; [reflexivity|]. split; [exact Hd|].
  destruct (k8s_client_mode_exit_code k8s_client_hook None "app.py" [] 0 []
              _ _ eq_refl Hd Hb) as (st1 & _ & _ & Hempty).
  exists st1. split; [reflexivity|]. exact (Hempty eq_refl eq_refl).
Defined.

(** *** Malformed and unrecognised status responses *)

Lemma strip_prefix_contains sep s :
  contains sep s = false -> strip_prefix sep s = None.
Proof.
  destruct s as [|c s]; simpl; unfold startswith;
    destruct (strip_prefix sep _); [discriminate|reflexivity|discriminate|reflexivity].
Qed.

Lemma append_cons_assoc acc c s :
  (acc +:+ String c EmptyString) +:+ s = acc +:+ String c s.
Proof. rewrite sapp_assoc. reflexivity. Qed.

(** A text without the separator is not split. *)
Lemma split_without_separator sep : forall fuel acc s,
  contains sep s = false -> split_aux fuel sep acc s = [acc +:+ s].
Proof.
  induction fuel as [|fuel IH]; intros acc s H; simpl; [reflexivity|].
  rewrite (strip_prefix_contains sep s H).
  destruct s as [|c s].
  - rewrite sapp_nil_r. reflexivity.
  - rewrite IH.
    + rewrite append_cons_assoc. reflexivity.
    + simpl in H. destruct (startswith sep (String c s)); [discriminate|exact H].
Qed.

Lemma parse_without_separator line :
  contains " : " line = false -> parse_driver_state line = None.
Proof.
  intros H. unfold parse_driver_state, split.
  rewrite split_without_separator by exact H. reflexivity.
Qed.

(** X10: a line of the status response that names [driverState] and
    does not hold the separator of a printed JSON field, a colon between
    two blanks, makes the classifier raise [IndexError]. *)
Theorem status_line_without_separator_raises pre raw post h :
  Forall (fun l => contains "driverState" (strip l) = false) pre ->
  contains "driverState" (strip raw) = true ->
  contains " : " (strip raw) = false ->
  fst (run (_process_spark_status_log (pre ++ raw :: post)) h) = Raise IndexError.
Proof.
  intros Hpre Hd Hs. unfold run, _process_spark_status_log.
  rewrite bind_eq, status_lines_app, bind_eq.
  rewrite status_lines_quiet by exact Hpre.
  simpl status_lines. rewrite bind_eq.
  unfold status_line. rewrite Hd, (parse_without_separator _ Hs).
  reflexivity.
Qed.

Lemma status_line_without_separator_raises_witness :
  contains "driverState" (strip (quoted "driverState" +:+ ":" +:+ quoted "RUNNING"))
    = true /\
  contains " : " (strip (quoted "driverState" +:+ ":" +:+ quoted "RUNNING")) = false /\
  fst (run (_process_spark_status_log
              ["{"; quoted "driverState" +:+ ":" +:+ quoted "RUNNING"; "}"])
           tracking_hook) = Raise IndexError.
Proof.
  repeat (split; [reflexivity|]).
  apply (status_line_without_separator_raises ["{"]
           (quoted "driverState" +:+ ":" +:+ quoted "RUNNING") ["}"] tracking_hook);
    try reflexivity.
  repeat constructor.
Defined.

(** X11: a status response without a [driverState] line and without a
    [submissionId] marker, such as the error output of the status command,
    leaves the hook as it was: the stored driver status is not touched
    and each line is logged. *)
Theorem unrecognised_status_response_keeps_status itr st :
  Forall (fun l => contains "driverState" (strip l) = false) itr ->
  Forall (fun l => contains "submissionId" (strip l) = false) itr ->
  _process_spark_status_log itr st =
    (Ok tt, {| self := self st; trace := (trace st ++ status_log_of itr)%list |}).
Proof.
  intros Hd Hs. unfold _process_spark_status_log.
  rewrite bind_eq, status_lines_quiet by exact Hd. cbn [fst snd].
  assert (Hex : existsb (fun l => contains "submissionId" (strip l)) itr = false).
  { clear Hd. induction Hs as [|l rest Hl Hrest IH]; simpl; [reflexivity|].
    rewrite Hl, IH. reflexivity. }
  rewrite Hex. reflexivity.
Qed.

Lemma unrecognised_status_response_keeps_status_witness :
  _process_spark_status_log ["curl: (7) Failed to connect"] (start tracking_hook) =
    (Ok tt,
     {| self := tracking_hook;
        trace := [EvLog "spark driver status log: curl: (7) Failed to connect"] |}).
Proof.
  apply (unrecognised_status_response_keeps_status
           ["curl: (7) Failed to connect"] (start tracking_hook));
    repeat constructor.
Defined.

End Logs.

(** ** Cancellation: what [on_kill] touches *)

Section Kill.

Import PyStr Spark Specs Fixtures Terms.

Ltac unfold_m :=
  unfold bind, get_self, update, emit, ret, raise, pending, when in *; simpl in *.

(** *** Steps that leave the hook alone *)

Lemma bind_keeps {A B} (c : M A) (k : A -> M B) :
  (forall st r st', c st = (r, st') -> self st' = self st) ->
  (forall a st r st', k a st = (r, st') -> self st' = self st) ->
  forall st r st', bind c k st = (r, st') -> self st' = self st.
Proof.
  intros Hc Hk st r st'. rewrite bind_eq.
  destruct (c st) as [[a|e|] st1] eqn:E; intros H.
  - rewrite (Hk _ _ _ _ H). eapply Hc, E.
  - inversion H; subst. eapply Hc, E.
  - inversion H; subst. eapply Hc, E.
Qed.

Lemma emit_keeps e : forall st r st', emit e st = (r, st') -> self st' = self st.
Proof. intros st r st' H. inversion H; subst. reflexivity. Qed.

Lemma ret_keeps {A} (a : A) : forall st r st', ret a st = (r, st') -> self st' = self st.
Proof. intros st r st' H. inversion H; subst. reflexivity. Qed.

Lemma raise_keeps {A} e :
  forall st (r : outcome A) st', raise e st = (r, st') -> self st' = self st.
Proof. intros st r st' H. inversion H; subst. reflexivity. Qed.

Lemma get_self_keeps : forall st r st', get_self st = (r, st') -> self st' = self st.
Proof. intros st r st' H. inversion H; subst. reflexivity. Qed.

Lemma popen_keeps cmd env child :
  forall st r st', popen cmd env child st = (r, st') -> self st' = self st.
Proof.
  unfold popen. destruct (all_tokens cmd); [|apply raise_keeps].
  destruct child; [|apply raise_keeps].
  apply bind_keeps; [apply emit_keeps|intros; eapply ret_keeps; eauto].
Qed.

Lemma when_keeps b (c : M unit) :
  (forall st r st', c st = (r, st') -> self st' = self st) ->
  forall st r st', when b c st = (r, st') -> self st' = self st.
Proof. intros Hc. unfold when. destruct b; [exact Hc|apply ret_keeps]. Qed.

Lemma catch_api_keeps {A} (c handler : M A) :
  (forall st r st', c st = (r, st') -> self st' = self st) ->
  (forall st r st', handler st = (r, st') -> self st' = self st) ->
  forall st r st', catch_api c handler st = (r, st') -> self st' = self st.
Proof.
  intros Hc Hh st r st'. unfold catch_api.
  destruct (c st) as [[a|e|] st1] eqn:E; intros H;
    try (inversion H; subst; eapply Hc, E).
  destruct e; try (inversion H; subst; eapply Hc, E).
  rewrite (Hh _ _ _ H). eapply Hc, E.
Qed.

Ltac keeps :=
  repeat first
    [ apply emit_keeps | apply ret_keeps | apply raise_keeps | apply get_self_keeps
    | apply popen_keeps
    | apply bind_keeps; [|intros ?; cbv beta zeta]
    | apply when_keeps
    | apply catch_api_keeps
    | match goal with
      | |- forall st r st', (match ?x with _ => _ end) st = _ -> _ => destruct x
      end ].

(** X12: [on_kill] never assigns an attribute of the hook, whatever the
    outside answers and whether it returns or raises. *)
Theorem on_kill_keeps_hook w h :
  self (snd (run (on_kill w) h)) = h.
Proof.
  unfold run.
  destruct (on_kill w (start h)) as [r st'] eqn:E. cbn [snd].
  change h with (self (start h)). revert E.
  generalize (start h). intros st. revert st r st'.
  unfold on_kill, delete_pod. keeps.
Qed.

(** X13: once the submit process has ended, or when none was started,
    [on_kill] sends no kill signal, renews no ticket, starts no YARN kill
    and deletes no pod: besides log entries, the only thing it does is to
    start the driver-kill command, without an environment. *)
Theorem on_kill_after_exit_only_kills_driver w h :
  still_running (_submit_sp h) = false ->
  forall e, In e (trace (snd (run (on_kill w) h))) ->
    is_log e = true \/
    exists cmd,
      all_tokens (_build_spark_driver_kill_command h) = Some cmd /\
      e = EvPopen cmd None.
Proof.
  intros Hs.
  unfold run, start, on_kill, popen, bind, get_self, emit, ret, raise, when.
  cbn [self trace fst snd app]. rewrite Hs.
  destruct (_should_track_driver_status h && truthy (_driver_id h));
    [destruct (all_tokens (_build_spark_driver_kill_command h)) as [cmd|] eqn:Hc;
     [destruct (w_driver_kill w)|]|];
    cbn [self trace fst snd app]; intros e He; simpl in He;
    repeat (destruct He as [<-|He];
            [first [left; reflexivity
                   |right; eexists; split; reflexivity]|]);
    contradiction.
Qed.

Lemma on_kill_after_exit_only_kills_driver_witness :
  still_running (_submit_sp exited_yarn_hook) = false /\
  forall e, In e (trace (snd (run (on_kill failing_world) exited_yarn_hook))) ->
    is_log e = true \/
    exists cmd,
      all_tokens (_build_spark_driver_kill_command exited_yarn_hook) = Some cmd /\
      e = EvPopen cmd None.
Proof.
  split; [reflexivity|].
  apply (on_kill_after_exit_only_kills_driver failing_world exited_yarn_hook).
  reflexivity.
Defined.

(** *** The YARN kill command *)

Lemma split_ws_word : forall w acc,
  all_nonspace w = true -> acc +:+ w <> EmptyString ->
  split_ws_aux acc w = [acc +:+ w].
Proof.
  induction w as [|c w IH]; intros acc Hw Hne.
  - rewrite sapp_nil_r in *. simpl. destruct acc; [congruence|reflexivity].
  - simpl in Hw. apply andb_true_iff in Hw. destruct Hw as [Hc Hw].
    simpl. unfold Re.nonspace in Hc. destruct (is_space c); [discriminate|].
    rewrite IH; [|exact Hw|].
    + rewrite sapp_assoc. reflexivity.
    + rewrite sapp_assoc. destruct acc; discriminate.
Qed.

Lemma yarn_kill_tokens id :
  all_nonspace id = true -> id <> EmptyString ->
  split_ws ("yarn application -kill " +:+ id) = ["yarn"; "application"; "-kill"; id].
Proof.
  intros Hw Hne. unfold split_ws.
  change (split_ws_aux EmptyString ("yarn application -kill " +:+ id))
    with ("yarn" :: "application" :: "-kill" :: split_ws_aux EmptyString id).
  rewrite (split_ws_word id EmptyString Hw Hne). reflexivity.
Qed.

(** Steps that only add to the record of events. *)
Lemma bind_extends {A B} (c : M A) (k : A -> M B) :
  (forall st r st', c st = (r, st') -> exists more, trace st' = (trace st ++ more)%list) ->
  (forall a st r st', k a st = (r, st') ->
     exists more, trace st' = (trace st ++ more)%list) ->
  forall st r st', bind c k st = (r, st') ->
    exists more, trace st' = (trace st ++ more)%list.
Proof.
  intros Hc Hk st r st'. rewrite bind_eq.
  destruct (c st) as [[a|e|] st1] eqn:E; intros H;
    destruct (Hc _ _ _ E) as (m1 & Hm1).
  - destruct (Hk _ _ _ _ H) as (m2 & Hm2).
    exists (m1 ++ m2)%list. rewrite Hm2, Hm1, app_assoc. reflexivity.
  - inversion H; subst. eauto.
  - inversion H; subst. eauto.
Qed.

Lemma emit_extends e :
  forall st r st', emit e st = (r, st') ->
    exists more, trace st' = (trace st ++ more)%list.
Proof. intros st r st' H. inversion H; subst. simpl. eauto. Qed.

Lemma raise_extends {A} e :
  forall st (r : outcome A) st', raise e st = (r, st') ->
    exists more, trace st' = (trace st ++ more)%list.
Proof. intros st r st' H. inversion H; subst. exists []. rewrite app_nil_r. reflexivity. Qed.

Lemma ret_extends {A} (a : A) :
  forall st r st', ret a st = (r, st') ->
    exists more, trace st' = (trace st ++ more)%list.
Proof. intros st r st' H. inversion H; subst. exists []. rewrite app_nil_r. reflexivity. Qed.

Lemma catch_api_extends {A} (c handler : M A) :
  (forall st r st', c st = (r, st') -> exists more, trace st' = (trace st ++ more)%list) ->
  (forall st r st', handler st = (r, st') ->
     exists more, trace st' = (trace st ++ more)%list) ->
  forall st r st', catch_api c handler st = (r, st') ->
    exists more, trace st' = (trace st ++ more)%list.
Proof.
  intros Hc Hh st r st'. unfold catch_api.
  destruct (c st) as [[a|e|] st1] eqn:E; intros H;
    destruct (Hc _ _ _ E) as (m1 & Hm1);
    try (inversion H; subst; eauto; fail).
  destruct e; try (inversion H; subst; eauto; fail).
  destruct (Hh _ _ _ H) as (m2 & Hm2).
  exists (m1 ++ m2)%list. rewrite Hm2, Hm1, app_assoc. reflexivity.
Qed.

Lemma pod_part_extends w h :
  forall st r st',
    when (truthy (_kubernetes_driver_pod h))
      (emit (EvLog ("Killing pod " +:+ default "" (_kubernetes_driver_pod h) +:+
                    " on Kubernetes")) ;;
       delete_pod w h) st = (r, st') ->
    exists more, trace st' = (trace st ++ more)%list.
Proof.
  unfold when. destruct (truthy (_kubernetes_driver_pod h)); [|apply ret_extends].
  apply bind_extends; [apply emit_extends|intros _].
  unfold delete_pod. apply catch_api_extends; [|apply emit_extends].
  destruct (w_k8s w).
  - apply bind_extends; [apply emit_extends|intros _; apply emit_extends].
  - apply bind_extends; [apply emit_extends|intros _; apply raise_extends].
  - apply raise_extends.
Qed.

(** [on_kill] up to the YARN kill command. *)
Lemma on_kill_to_yarn w h app_id out rc :
  _should_track_driver_status h && truthy (_driver_id h) = false ->
  still_running (_submit_sp h) = true ->
  _yarn_application_id h = Some app_id ->
  all_nonspace app_id = true -> app_id <> EmptyString ->
  w_yarn_kill w = Launched out rc ->
  (keytab (_connection h) = None \/ principal (_connection h) = None ->
   exists a b l2,
     on_kill w (start h) =
       when (truthy (_kubernetes_driver_pod h))
         (emit (EvLog ("Killing pod " +:+ default "" (_kubernetes_driver_pod h) +:+
                       " on Kubernetes")) ;;
          delete_pod w h)
         {| self := h;
            trace := [a; b] ++ EvKillProcess ::
                     EvPopen ["yarn"; "application"; "-kill"; app_id]
                             (Some (default [] (_env h))) :: l2 |}) /\
  (forall kt pr ccache,
   keytab (_connection h) = Some kt -> principal (_connection h) = Some pr ->
   w_renew w = None -> w_ccache w = Some ccache ->
   exists a b l2,
     on_kill w (start h) =
       when (truthy (_kubernetes_driver_pod h))
         (emit (EvLog ("Killing pod " +:+ default "" (_kubernetes_driver_pod h) +:+
                       " on Kubernetes")) ;;
          delete_pod w h)
         {| self := h;
            trace := [a; b] ++ EvKillProcess :: EvRenew pr kt ::
                     EvPopen ["yarn"; "application"; "-kill"; app_id]
                             (Some [("KRB5CCNAME", ccache)]) :: l2 |}).
Proof.
  intros Ht Hs Hid Hw Hne Hy.
  assert (Htr : truthy (Some app_id) = true)
    by (destruct app_id; [congruence|reflexivity]).
  unfold on_kill, popen, bind, get_self, emit, raise. unfold when at 1 2 3.
  unfold ret.
  cbn [start self trace fst snd app].
  rewrite Ht, Hs, Hid, Htr, all_tokens_map_Some, Hy.
  cbn [default from_option id]. rewrite (yarn_kill_tokens app_id Hw Hne).
  split.
  - intros Hno.
    destruct (keytab (_connection h)) as [kt|];
      [destruct (principal (_connection h)) as [pr|];
       [destruct Hno; discriminate|]|];
      cbn [self trace fst snd app]; eexists _, _, _; reflexivity.
  - intros kt pr ccache -> -> -> ->. cbn [self trace fst snd app].
    eexists _, _, _; reflexivity.
Qed.

(** X14: while the submit process runs and a YARN application id is
    known, [on_kill] sends the kill signal and then starts
    [yarn application -kill] with the id.  Without a keytab or without a
    principal the command gets the environment variables kept by the
    builder; with both, the ticket is renewed first and the command gets
    [KRB5CCNAME] only. *)
Theorem on_kill_yarn_command w h app_id out rc :
  _should_track_driver_status h && truthy (_driver_id h) = false ->
  still_running (_submit_sp h) = true ->
  _yarn_application_id h = Some app_id ->
  all_nonspace app_id = true -> app_id <> EmptyString ->
  w_yarn_kill w = Launched out rc ->
  (keytab (_connection h) = None \/ principal (_connection h) = None ->
   exists tr1 tr2,
     trace (snd (run (on_kill w) h)) =
       (tr1 ++ EvKillProcess ::
        EvPopen ["yarn"; "application"; "-kill"; app_id] (Some (default [] (_env h)))
        :: tr2)%list) /\
  (forall kt pr ccache,
   keytab (_connection h) = Some kt -> principal (_connection h) = Some pr ->
   w_renew w = None -> w_ccache w = Some ccache ->
   exists tr1 tr2,
     trace (snd (run (on_kill w) h)) =
       (tr1 ++ EvKillProcess :: EvRenew pr kt ::
        EvPopen ["yarn"; "application"; "-kill"; app_id] (Some [("KRB5CCNAME", ccache)])
        :: tr2)%list).
Proof.
  intros Ht Hs Hid Hw Hne Hy.
  destruct (on_kill_to_yarn w h app_id out rc Ht Hs Hid Hw Hne Hy) as [H1 H2].
  unfold run. split.
  - intros Hno. destruct (H1 Hno) as (a & b & l2 & ->).
    match goal with
    | |- context [when ?c ?body ?st] =>
        destruct (when c body st) as [r st'] eqn:E;
          apply pod_part_extends in E; destruct E as (more & Hm)
    end.
    cbn [snd]. rewrite Hm. cbn [trace].
    exists [a; b], (l2 ++ more)%list. rewrite <- app_assoc. reflexivity.
  - intros kt pr ccache Hk Hp Hr Hc.
    destruct (H2 kt pr ccache Hk Hp Hr Hc) as (a & b & l2 & ->).
    match goal with
    | |- context [when ?c ?body ?st] =>
        destruct (when c body st) as [r st'] eqn:E;
          apply pod_part_extends in E; destruct E as (more & Hm)
    end.
    cbn [snd]. rewrite Hm. cbn [trace].
    exists [a; b], (l2 ++ more)%list. rewrite <- app_assoc. reflexivity.
Qed.

Lemma on_kill_yarn_command_witness :
  exists tr1 tr2,
    trace (snd (run (on_kill failing_world) running_yarn_hook)) =
      (tr1 ++ EvKillProcess ::
       EvPopen ["yarn"; "application"; "-kill"; "application_1700000000000_0001"]
               (Some [])
       :: tr2)%list.
Proof.
  apply (proj1 (on_kill_yarn_command failing_world running_yarn_hook
                  "application_1700000000000_0001" [] 1
                  eq_refl eq_refl eq_refl eq_refl ltac:(discriminate) eq_refl)).
  left. reflexivity.
Defined.

End Kill.

(** ** Construction: what a hook starts from *)

Section Construction.

Import PyStr Spark Specs Fixtures Terms.

(** X15: when the connection cannot be loaded, the constructor still
    returns a hook, for every argument list: its master is [yarn], it is
    in YARN mode, not in Kubernetes mode and does not track a driver; its
    binary is the one the caller supplied, or [spark-submit]; no file is
    touched and the fallback is logged. *)
Theorem connection_failure_defaults_to_yarn a krb kube tmp uuid fault fs :
  exists h,
    init a krb kube None tmp uuid fault fs =
      (Ok h, fs, [log_fallback (_conn_id a) "yarn"]) /\
    master (_connection h) = "yarn" /\
    _is_yarn h = true /\ _is_kubernetes h = false /\
    _should_track_driver_status h = false /\
    spark_binary (_connection h) =
      Some (if truthy (arg_spark_binary a) then default "" (arg_spark_binary a)
            else DEFAULT_SPARK_BINARY).
Proof.
  unfold init, _resolve_connection, namespace_from_conf. cbn [r_out r_fs r_log _conf].
  destruct (conf_get (_conf a) "spark.kubernetes.namespace");
    eexists; (split; [reflexivity|]); repeat split.
Qed.

(** X16: a connection whose extras carry a non-empty [spark-home] is
    refused: the constructor raises [RuntimeError], whatever the other
    arguments, and no file is touched. *)
Theorem spark_home_extra_is_refused a krb kube c tmp uuid fault fs :
  truthy (extra_get (extra_dejson c) "spark-home") = true ->
  exists msg,
    init a krb kube (Some c) tmp uuid fault fs = (Raise (RuntimeError msg), fs, []).
Proof.
  intros Hh. unfold init, _resolve_connection. cbv zeta.
  cbn [_conf arg_spark_binary _yarn_queue _deploy_mode _principal _keytab _conn_id].
  destruct (negb (truthy (arg_spark_binary a)) && _); [eexists; reflexivity|].
  rewrite Hh. eexists. reflexivity.
Qed.

Lemma spark_home_extra_is_refused_witness :
  truthy (extra_get (extra_dejson spark_home_conn) "spark-home") = true /\
  exists msg,
    init default_args no_krb true (Some spark_home_conn) "/tmp" "u0" NoFault empty_fs
      = (Raise (RuntimeError msg), empty_fs, []).
Proof.
  split; [reflexivity|].
  apply (spark_home_extra_is_refused default_args no_krb true spark_home_conn
           "/tmp" "u0" NoFault empty_fs).
  reflexivity.
Defined.

(** What the resolver returns is the dictionary of the [try] block with
    the namespace of the configuration put on top. *)
Lemma resolve_ok_form a conn tmp uuid fault fs cd :
  r_out (_resolve_connection a conn tmp uuid fault fs) = Ok cd ->
  exists cd0,
    cd = namespace_from_conf (_conf a) cd0 /\
    namespace cd0 = match conn with
                    | Some c => extra_get (extra_dejson c) "namespace"
                    | None => None
                    end.
Proof.
  unfold _resolve_connection. cbv zeta.
  destruct conn as [c|]; [|simpl; intros H; inversion H; eexists; split; reflexivity].
  destruct (negb (truthy (arg_spark_binary a)) && _); [discriminate|].
  destruct (truthy (extra_get (extra_dejson c) "spark-home")); [discriminate|].
  destruct (_keytab a) as [kt|];
    [simpl; intros H; inversion H; eexists; split; reflexivity|].
  destruct (extra_get (extra_dejson c) "keytab") as [b64|];
    [|simpl; intros H; inversion H; eexists; split; reflexivity].
  destruct (_create_keytab_path_from_base64_keytab _ _ _ _ _ _) as [[[p|e|] fs'] ops];
    [| destruct e |]; simpl; intros H; inversion H; eexists; split; reflexivity.
Qed.

(** X17: the namespace of a constructed hook is the value of
    [spark.kubernetes.namespace] in the configuration when the key is
    there, whatever the connection says; otherwise it is the [namespace]
    entry of the extras of a loaded connection, and nothing without
    one. *)
Theorem conf_namespace_overrides a krb kube conn tmp uuid fault fs h fs' log :
  init a krb kube conn tmp uuid fault fs = (Ok h, fs', log) ->
  namespace (_connection h) =
    match conf_get (_conf a) "spark.kubernetes.namespace" with
    | Some ns => Some ns
    | None => match conn with
              | Some c => extra_get (extra_dejson c) "namespace"
              | None => None
              end
    end.
Proof.
  unfold init.
  destruct (r_out (_resolve_connection _ conn tmp uuid fault fs)) as [cd|e|] eqn:Hr;
    try discriminate.
  apply resolve_ok_form in Hr. destruct Hr as (cd0 & -> & Hns).
  cbn [_conf] in *.
  destruct (contains "k8s" _ && negb kube); [discriminate|].
  intros H. inversion H; subst; clear H. cbn [_connection].
  unfold namespace_from_conf.
  destruct (conf_get (_conf a) "spark.kubernetes.namespace"); [reflexivity|exact Hns].
Qed.

Lemma conf_namespace_overrides_witness :
  namespace (_connection k8s_conf_hook) = Some "jobs".
Proof.
  apply (conf_namespace_overrides k8s_conf_args no_krb true (Some k8s_conn)
           "/tmp" "u0" NoFault empty_fs k8s_conf_hook empty_fs []).
  vm_compute. reflexivity.
Defined.

(** X18: when the import of the Kubernetes client module failed, the
    constructor never returns a hook in Kubernetes mode.  Where it
    returns such a hook with the module imported, without it it raises
    [NameError], the name [kube_client] being unbound, and not the
    [RuntimeError] written under the test; the files and the log are
    those of the resolver.  A hook that is not in Kubernetes mode is
    constructed all the same. *)
Theorem kubernetes_needs_client a krb conn tmp uuid fault fs :
  (forall h fs' log,
     init a krb true conn tmp uuid fault fs = (Ok h, fs', log) ->
     init a krb false conn tmp uuid fault fs =
       if _is_kubernetes h then (Raise kube_name_error, fs', log)
       else (Ok h, fs', log)) /\
  (forall h fs' log,
     init a krb false conn tmp uuid fault fs = (Ok h, fs', log) ->
     _is_kubernetes h = false).
Proof.
  unfold init.
  destruct (r_out (_resolve_connection _ conn tmp uuid fault fs)) as [cd'|e|];
    try (split; intros; discriminate).
  destruct (contains "k8s" (master cd')) eqn:Hk; cbn [andb negb]; split;
    intros h fs' log H; inversion H; subst; clear H; cbn [_is_kubernetes];
    rewrite ?Hk; reflexivity.
Qed.

Lemma kubernetes_needs_client_witness :
  init default_args no_krb true (Some k8s_conn) "/tmp" "u0" NoFault empty_fs
    = (Ok k8s_hook, empty_fs, []) /\
  _is_kubernetes k8s_hook = true /\
  init default_args no_krb false (Some k8s_conn) "/tmp" "u0" NoFault empty_fs
    = (Raise kube_name_error, empty_fs, []).
Proof.
  assert (H : init default_args no_krb true (Some k8s_conn) "/tmp" "u0" NoFault
                   empty_fs = (Ok k8s_hook, empty_fs, []))
    by (vm_compute; reflexivity).
  split; [exact H|]. split; [reflexivity|].
  exact (proj1 (kubernetes_needs_client default_args no_krb (Some k8s_conn)
                  "/tmp" "u0" NoFault empty_fs) k8s_hook empty_fs [] H).
Defined.

(** Without a binary the builder raises before it records anything. *)
Lemma builder_needs_binary h krb app :
  spark_binary (_connection h) = None ->
  exists e st',
    _build_spark_submit_command krb app (start h) = (Raise e, st') /\
    trace st' = [].
Proof.
  intros Hb. unfold _build_spark_submit_command, _get_spark_binary_path.
  unfold bind, get_self, update, emit, ret, raise. cbn [self trace start].
  rewrite Hb.
  destruct (nonempty (_env_vars (args h)) && (_is_kubernetes h || _is_yarn h));
    [destruct (_is_yarn h)|
     destruct (nonempty (_env_vars (args h)) &&
               negb (bool_decide (deploy_mode (_connection h) = Some "cluster")));
     [|destruct (nonempty (_env_vars (args h)) &&
                 bool_decide (deploy_mode (_connection h) = Some "cluster"))]];
    cbn [self trace];
    (destruct (_use_krb5ccache (args h)); [destruct (negb (truthy krb))|]);
    cbn [self trace]; eexists _, _; split; reflexivity.
Qed.

(** X19: a [spark-binary] entry of the extras that is [null] passes the
    check of the resolver when the caller supplies no binary: the hook is
    constructed with no binary at all, and every [submit] on it raises
    before anything is started or logged. *)
Theorem null_binary_extra_fails_at_submit a krb_p kube c tmp uuid fault fs h fs' log :
  truthy (arg_spark_binary a) = false ->
  extra_dejson c !! "spark-binary" = Some None ->
  init a krb_p kube (Some c) tmp uuid fault fs = (Ok h, fs', log) ->
  spark_binary (_connection h) = None /\
  forall krb app child polls,
    exists e st',
      run (submit krb app child polls) h = (Raise e, st') /\ trace st' = [].
Proof.
  intros Ha He Hi.
  assert (Hb : spark_binary (_connection h) = None).
  { revert Hi. unfold init.
    destruct (r_out (_resolve_connection _ (Some c) tmp uuid fault fs))
      as [cd|e|] eqn:Hr; try discriminate.
    apply resolve_loaded in Hr. cbv zeta in Hr.
    destruct Hr as (_ & _ & Hbin & _). cbn [arg_spark_binary] in Hbin.
    rewrite Ha in Hbin. unfold extra_get_default in Hbin. rewrite He in Hbin.
    destruct (contains "k8s" (master cd) && negb kube); [discriminate|].
    intros H. inversion H; subst; clear H. exact Hbin. }
  split; [exact Hb|]. intros krb app child polls.
  destruct (builder_needs_binary h krb app Hb) as (e & st' & Hbuild & Ht).
  exists e, st'. split; [|exact Ht].
  unfold run. apply submit_stops_with_builder. exact Hbuild.
Qed.

Lemma null_binary_extra_fails_at_submit_witness :
  spark_binary (_connection null_binary_hook) = None /\
  forall krb app child polls,
    exists e st',
      run (submit krb app child polls) null_binary_hook = (Raise e, st') /\
      trace st' = [].
Proof.
  apply (null_binary_extra_fails_at_submit default_args no_krb true
           null_binary_conn "/tmp" "u0" NoFault empty_fs null_binary_hook
           empty_fs []).
  - reflexivity.
  - reflexivity.
  - vm_compute. reflexivity.
Defined.

End Construction.

(** ** Keytab files: which paths a call touches *)

Section KeytabFiles.

Import PyStr Spark Specs Fixtures Terms.

(** The files after a call: as before, without the staging file, or with
    the keytab at the target path and without the staging file. *)
Lemma keytab_files_after tmp uuid fault fs b64 p :
  let r := _create_keytab_path_from_base64_keytab tmp uuid fault fs b64 p in
  let target := keytab_path_of tmp p uuid in
  let staging := staging_path_of tmp p uuid in
  snd (fst r) = fs \/
  snd (fst r) = delete staging fs \/
  exists kt, snd (fst r) = <[target := kt]> (delete staging fs).
Proof.
  cbv zeta.
  destruct (Base64.b64decode b64) as [kt|] eqn:Hd.
  - destruct (decide (fs !! keytab_path_of tmp p uuid = Some kt)) as [Hf|Hf].
    + rewrite (keytab_present tmp uuid fault fs b64 p kt Hd Hf). left. reflexivity.
    + assert (Hcase : fault = NoFault \/ fault <> NoFault)
        by (destruct fault; [left; reflexivity|right; discriminate..]).
      destruct Hcase as [->|Hfault].
      * rewrite (keytab_written tmp uuid fs b64 p kt Hd Hf).
        right. right. exists kt. reflexivity.
      * destruct (keytab_fault tmp uuid fault fs b64 p kt Hd Hf Hfault) as (ops & ->).
        right. left. reflexivity.
  - unfold _create_keytab_path_from_base64_keytab. rewrite Hd. left. reflexivity.
Qed.

Lemma keytab_frame tmp uuid fault fs b64 p q :
  q <> keytab_path_of tmp p uuid ->
  q <> staging_path_of tmp p uuid ->
  snd (fst (_create_keytab_path_from_base64_keytab tmp uuid fault fs b64 p)) !! q
    = fs !! q.
Proof.
  intros Ht Hs.
  destruct (keytab_files_after tmp uuid fault fs b64 p) as [-> | [-> | (kt & ->)]].
  - reflexivity.
  - apply lookup_delete_ne. congruence.
  - rewrite lookup_insert_ne by congruence. apply lookup_delete_ne. congruence.
Qed.

(** X20: whatever its outcome, a call of the keytab materialiser leaves
    every file other than its target and its staging file as it was. *)
Theorem keytab_touches_only_its_paths tmp uuid fault fs b64 p q :
  q <> keytab_path_of tmp p uuid ->
  q <> staging_path_of tmp p uuid ->
  snd (fst (_create_keytab_path_from_base64_keytab tmp uuid fault fs b64 p)) !! q
    = fs !! q.
Proof. apply keytab_frame. Qed.

Lemma keytab_touches_only_its_paths_witness :
  snd (fst (_create_keytab_path_from_base64_keytab "/tmp" "u1" MoveFails
              other_file_fs "QUJD" (Some "bob"))) !! "/tmp/other"
    = other_file_fs !! "/tmp/other".
Proof.
  apply (keytab_touches_only_its_paths "/tmp" "u1" MoveFails other_file_fs
           "QUJD" (Some "bob") "/tmp/other"); discriminate.
Defined.

Lemma path_without_principal tmp p uuid :
  truthy p = false ->
  keytab_path_of tmp p uuid = tmp +:+ "/" +:+ "airflow_keytab-" +:+ uuid.
Proof.
  intros Hp. unfold keytab_path_of, path_join, keytab_file_name.
  rewrite Hp. reflexivity.
Qed.

(** A call without a fault leaves the keytab at its target path. *)
Lemma keytab_stored tmp uuid fs b64 p kt :
  Base64.b64decode b64 = Some kt ->
  exists fs1 ops1,
    _create_keytab_path_from_base64_keytab tmp uuid NoFault fs b64 p =
      (Ok (keytab_path_of tmp p uuid), fs1, ops1) /\
    fs1 !! keytab_path_of tmp p uuid = Some kt.
Proof.
  intros Hd.
  destruct (decide (fs !! keytab_path_of tmp p uuid = Some kt)) as [Hf|Hf].
  - rewrite (keytab_present tmp uuid NoFault fs b64 p kt Hd Hf).
    eexists _, _. split; [reflexivity|exact Hf].
  - rewrite (keytab_written tmp uuid fs b64 p kt Hd Hf).
    eexists _, _. split; [reflexivity|]. apply lookup_insert_eq.
Qed.

(** X21: without a principal the name of the keytab file is made from
    the random identifier of the call, so two calls with the same base64
    text write two files: after the second call the keytab is stored at
    both paths. *)
Theorem keytab_without_principal_is_per_call tmp uuid1 uuid2 fs b64 p kt :
  truthy p = false ->
  uuid1 <> uuid2 ->
  Base64.b64decode b64 = Some kt ->
  exists fs1 ops1 fs2 ops2,
    _create_keytab_path_from_base64_keytab tmp uuid1 NoFault fs b64 p =
      (Ok (keytab_path_of tmp p uuid1), fs1, ops1) /\
    _create_keytab_path_from_base64_keytab tmp uuid2 NoFault fs1 b64 p =
      (Ok (keytab_path_of tmp p uuid2), fs2, ops2) /\
    keytab_path_of tmp p uuid1 <> keytab_path_of tmp p uuid2 /\
    fs2 !! keytab_path_of tmp p uuid1 = Some kt /\
    fs2 !! keytab_path_of tmp p uuid2 = Some kt.
Proof.
  intros Hp Hne Hd.
  destruct (keytab_stored tmp uuid1 fs b64 p kt Hd) as (fs1 & ops1 & H1 & Hs1).
  destruct (keytab_stored tmp uuid2 fs1 b64 p kt Hd) as (fs2 & ops2 & H2 & Hs2).
  assert (Hpaths : keytab_path_of tmp p uuid1 <> keytab_path_of tmp p uuid2).
  { rewrite !(path_without_principal tmp p _ Hp). intros H.
    apply append_cancel_l in H.
    apply (append_cancel_l "/") in H. apply (append_cancel_l "airflow_keytab-") in H.
    exact (Hne H). }
  assert (Hstage : keytab_path_of tmp p uuid1 <> staging_path_of tmp p uuid2).
  { unfold keytab_path_of, staging_path_of, path_join, keytab_file_name.
    rewrite Hp. intros H. apply append_cancel_l in H. simpl in H. discriminate. }
  exists fs1, ops1, fs2, ops2.
  split; [exact H1|]. split; [exact H2|]. split; [exact Hpaths|].
  split; [|exact Hs2].
  pose proof (keytab_frame tmp uuid2 NoFault fs1 b64 p
                (keytab_path_of tmp p uuid1) Hpaths Hstage) as Hfr.
  rewrite H2 in Hfr. cbn [fst snd] in Hfr. rewrite Hfr. exact Hs1.
Qed.

Lemma keytab_without_principal_is_per_call_witness :
  exists fs2,
    snd (fst (_create_keytab_path_from_base64_keytab "/tmp" "u2" NoFault
                (snd (fst (_create_keytab_path_from_base64_keytab "/tmp" "u1"
                             NoFault empty_fs "QUJD" None)))
                "QUJD" None)) = fs2 /\
    fs2 !! "/tmp/airflow_keytab-u1" = Some "ABC" /\
    fs2 !! "/tmp/airflow_keytab-u2" = Some "ABC".
Proof.
  assert (Hne : "u1" <> "u2") by discriminate.
  assert (Hd : Base64.b64decode "QUJD" = Some "ABC") by reflexivity.
  destruct (keytab_without_principal_is_per_call "/tmp" "u1" "u2" empty_fs
              "QUJD" None "ABC" eq_refl Hne Hd)
    as (fs1 & ops1 & fs2 & ops2 & H1 & H2 & _ & Ha & Hb).
  exists fs2. rewrite H1. cbn [fst snd]. rewrite H2. cbn [fst snd].
  split; [reflexivity|]. split; [exact Ha|exact Hb].
Defined.

End KeytabFiles.

(** ** Masking: what is replaced and what is kept *)

Section Masking.

Import PyStr Re Spark Specs Fixtures Terms.

(** *** Text without a keyword *)

Lemma has_keyword_unfold s :
  has_keyword s =
    match kw_at s with
    | Some _ => true
    | None => match s with
              | String _ s' => has_keyword s'
              | EmptyString => false
              end
    end.
Proof. destruct s; reflexivity. Qed.

Lemma key_scan_no_keyword : forall s, has_keyword s = false -> key_scan s = None.
Proof.
  induction s as [|c s IH]; intros H; rewrite has_keyword_unfold in H;
    rewrite key_scan_unfold; unfold kw_sep.
  - destruct (kw_at EmptyString); [discriminate|reflexivity].
  - destruct (kw_at (String c s)); [discriminate|].
    destruct (nonspace c); [apply IH, H|reflexivity].
Qed.

Lemma has_keyword_tail c s : has_keyword (String c s) = false -> has_keyword s = false.
Proof.
  rewrite has_keyword_unfold. destruct (kw_at (String c s)); [discriminate|].
  intros H. exact H.
Qed.

Lemma find_match_no_keyword : forall s, has_keyword s = false -> find_match s = None.
Proof.
  induction s as [|c s IH]; intros H; rewrite find_match_unfold;
    rewrite (key_scan_no_keyword _ H); [reflexivity|].
  rewrite (IH (has_keyword_tail c s H)). reflexivity.
Qed.

(** X22: a command line that holds neither [secret] nor [password], in
    any letter case, is displayed as it is. *)
Theorem mask_keeps_text_without_keyword tokens :
  has_keyword (join " " tokens) = false ->
  _mask_cmd (CmdList tokens) = join " " tokens.
Proof.
  intros H. unfold _mask_cmd, join_cmd.
  rewrite mask_text_unfold, (find_match_no_keyword _ H). reflexivity.
Qed.

Lemma mask_keeps_text_without_keyword_witness :
  _mask_cmd (CmdList ["spark-submit"; "--master"; "yarn"; "--conf"; "spark.ui.port=4040"])
    = "spark-submit --master yarn --conf spark.ui.port=4040".
Proof.
  apply (mask_keeps_text_without_keyword
           ["spark-submit"; "--master"; "yarn"; "--conf"; "spark.ui.port=4040"]).
  vm_compute. reflexivity.
Defined.

(** *** A key and its value *)

Lemma key_text_cons c k :
  key_text (String c k) = true -> sepc c = false /\ key_text k = true.
Proof.
  simpl. intros H. apply andb_true_iff in H. destruct H as [Hc Hk].
  split; [destruct (sepc c); [discriminate|reflexivity]|exact Hk].
Qed.

Lemma key_text_suffix : forall t k, key_text (t +:+ k) = true -> key_text k = true.
Proof.
  induction t as [|c t IH]; intros k H; [exact H|].
  rewrite sapp_cons in H. apply key_text_cons in H. apply IH, H.
Qed.

Lemma not_sepc c : sepc c = false -> Ascii.eqb c "="%char = false /\ is_space c = false.
Proof.
  unfold sepc. intros H. apply orb_false_iff in H. exact H.
Qed.

(** From the end of the keyword the separator is found at the end of
    the key. *)
Lemma find_sep_key d R :
  sepc d = true -> (d = "="%char \/ hns R = true) ->
  forall k, key_text k = true -> find_sep (k +:+ String d R) = Some R.
Proof.
  intros Hd HR. induction k as [|c k IH]; intros Hk.
  - rewrite sapp_nil_l. cbn [find_sep].
    destruct (Ascii.eqb_spec d "="%char) as [He|Hne]; [reflexivity|].
    unfold sepc in Hd. apply orb_true_iff in Hd.
    destruct Hd as [Hd|Hd];
      [apply Ascii.eqb_eq in Hd; congruence|].
    rewrite Hd. destruct HR as [HR|HR]; [congruence|].
    rewrite (lstrip_hns R HR). reflexivity.
  - apply key_text_cons in Hk. destruct Hk as [Hc Hk].
    destruct (not_sepc c Hc) as [He Hs].
    rewrite sapp_cons. cbn [find_sep]. rewrite He, Hs. apply IH, Hk.
Qed.

Lemma key_scan_key d R :
  sepc d = true -> (d = "="%char \/ hns R = true) ->
  forall k, key_text k = true -> has_keyword k = true ->
    key_scan (k +:+ String d R) = Some R.
Proof.
  intros Hd HR. induction k as [|c k IH]; intros Hk Hkw.
  - discriminate Hkw.
  - rewrite key_scan_unfold. unfold kw_sep.
    rewrite (kw_at_sepc d (String c k) R Hd).
    rewrite has_keyword_unfold in Hkw.
    destruct (kw_at (String c k)) as [k'|] eqn:Hat; cbn [option_map].
    + destruct (kw_at_split _ _ Hat) as (t & Ht & _).
      rewrite Ht in Hk. apply key_text_suffix in Hk.
      rewrite (find_sep_key d R Hd HR k' Hk). reflexivity.
    + apply key_text_cons in Hk. destruct Hk as [Hc Hk].
      destruct (not_sepc c Hc) as [_ Hs].
      rewrite sapp_cons. unfold nonspace. rewrite Hs. cbn [negb].
      apply IH; assumption.
Qed.

Lemma space_not_quote c : is_space c = true -> is_quote c = false.
Proof.
  intros H. destruct (is_quote c) eqn:Hq; [|reflexivity].
  pose proof (quote_nonspace c Hq) as Hn. unfold nonspace in Hn.
  rewrite H in Hn. discriminate.
Qed.

Lemma skip_nonspace_value : forall v post,
  all_nonspace v = true -> stops post = true -> skip_nonspace (v +:+ post) = post.
Proof.
  induction v as [|c v IH]; intros post Hv Hp.
  - rewrite sapp_nil_l. apply skip_nonspace_stops, Hp.
  - simpl in Hv. apply andb_true_iff in Hv. destruct Hv as [Hc Hv].
    rewrite sapp_cons. cbn [skip_nonspace]. rewrite Hc. apply IH; assumption.
Qed.

(** A value without a quote in front runs up to the next blank. *)
Lemma after_sep_plain v post :
  all_nonspace v = true -> unquoted v = true -> stops post = true ->
  after_sep (v +:+ post) = (v +:+ post, post, EmptyString).
Proof.
  intros Hv Hu Hp.
  assert (Hplain : after_sep (v +:+ post)
                   = (v +:+ post, skip_nonspace (v +:+ post), EmptyString)).
  { unfold after_sep. destruct v as [|c v].
    - rewrite sapp_nil_l. destruct post as [|c post]; [reflexivity|].
      simpl in Hp. rewrite (space_not_quote c Hp). reflexivity.
    - rewrite sapp_cons. simpl in Hu.
      destruct (is_quote c); [discriminate|reflexivity]. }
  rewrite Hplain, (skip_nonspace_value v post Hv Hp). reflexivity.
Qed.

Lemma value_hns v post : all_nonspace v = true -> v <> EmptyString -> hns (v +:+ post) = true.
Proof.
  destruct v as [|c v]; [congruence|]. simpl. intros H _.
  apply andb_true_iff in H. destruct H as [Hc _]. exact Hc.
Qed.

(** A key with a keyword, its separator and a plain value: the value is
    replaced, and the text after it is masked in its turn. *)
Lemma mask_text_key_value k d v post :
  has_keyword k = true -> key_text k = true -> sepc d = true ->
  d = "="%char \/ v <> EmptyString ->
  all_nonspace v = true -> unquoted v = true -> stops post = true ->
  mask_text (k +:+ String d (v +:+ post)) =
    k +:+ String d ("******" +:+ mask_text post).
Proof.
  intros Hkw Hk Hd Hdv Hv Hu Hp.
  assert (HR : d = "="%char \/ hns (v +:+ post) = true).
  { destruct Hdv as [He|Hne]; [left; exact He|right; apply value_hns; assumption]. }
  pose proof (key_scan_key d (v +:+ post) Hd HR k Hk Hkw) as Hscan.
  rewrite mask_text_unfold, find_match_unfold, Hscan.
  unfold masked_match, post_of.
  rewrite (after_sep_plain v post Hv Hu Hp). cbn [fst snd].
  replace (k +:+ String d (v +:+ post))
    with ((k +:+ String d EmptyString) +:+ (v +:+ post))
    by (rewrite sapp_assoc; reflexivity).
  rewrite consumed_app, sapp_nil_l, !sapp_assoc. reflexivity.
Qed.

(** *** The text around a key *)

Lemma ends_blank_tail c pre : ends_blank (String c pre) = true -> ends_blank pre = true.
Proof. destruct pre; [reflexivity|]. intros H. exact H. Qed.

Lemma ends_blank_split : forall pre,
  ends_blank pre = true -> pre <> EmptyString ->
  exists b d, pre = b +:+ String d EmptyString /\ is_space d = true.
Proof.
  induction pre as [|c pre IH]; intros He Hne; [congruence|].
  destruct pre as [|c' pre].
  - exists EmptyString, c. split; [reflexivity|exact He].
  - destruct (IH (ends_blank_tail c _ He)) as (b & d & Hb & Hd); [discriminate|].
    exists (String c b), d. split; [rewrite sapp_cons, <- Hb; reflexivity|exact Hd].
Qed.

(** No match starts in a text without a keyword that ends with a
    blank, whatever follows. *)
Lemma key_scan_clean pre s :
  has_keyword pre = false -> ends_blank pre = true -> pre <> EmptyString ->
  key_scan (pre +:+ s) = None.
Proof.
  intros Hk He Hne.
  destruct (ends_blank_split pre He Hne) as (b & d & Hb & Hd).
  pose proof (key_scan_no_keyword pre Hk) as Hscan. rewrite Hb in Hscan.
  rewrite Hb, sapp_assoc, sapp_cons, sapp_nil_l.
  exact (key_scan_None_space d EmptyString s Hd b Hscan).
Qed.

Lemma find_match_clean_prefix : forall pre s,
  has_keyword pre = false -> ends_blank pre = true ->
  find_match (pre +:+ s) =
    match find_match s with
    | Some (p, ms, r) => Some (pre +:+ p, ms, r)
    | None => None
    end.
Proof.
  induction pre as [|c pre IH]; intros s Hk He.
  - rewrite sapp_nil_l. destruct (find_match s) as [[[p ms] r]|]; reflexivity.
  - rewrite sapp_cons, find_match_unfold. rewrite <- sapp_cons.
    rewrite (key_scan_clean (String c pre) s Hk He) by discriminate.
    rewrite (IH s (has_keyword_tail c pre Hk) (ends_blank_tail c pre He)).
    destruct (find_match s) as [[[p ms] r]|]; reflexivity.
Qed.

Lemma mask_text_clean_prefix pre s :
  has_keyword pre = false -> ends_blank pre = true ->
  mask_text (pre +:+ s) = pre +:+ mask_text s.
Proof.
  intros Hk He.
  rewrite (mask_text_unfold (pre +:+ s)), (find_match_clean_prefix pre s Hk He).
  rewrite (mask_text_unfold s).
  destruct (find_match s) as [[[p ms] r]|]; [|reflexivity].
  rewrite !sapp_assoc. reflexivity.
Qed.

(** *** Tokens joined with blanks *)

Lemma join_cons x rest : join " " (x :: rest) = x +:+ joined_after rest.
Proof.
  destruct rest as [|y rest]; [cbn [join joined_after]; rewrite sapp_nil_r|];
    reflexivity.
Qed.

Lemma join_around : forall before x after,
  join " " (before ++ x :: after) = joined_before before +:+ x +:+ joined_after after.
Proof.
  induction before as [|b before IH]; intros x after.
  - rewrite app_nil_l, join_cons. reflexivity.
  - rewrite <- app_comm_cons, join_cons.
    assert (Hafter : joined_after (before ++ x :: after)
                     = " " +:+ join " " (before ++ x :: after))
      by (destruct before; reflexivity).
    rewrite Hafter, IH.
    destruct before as [|b' before].
    + unfold joined_before. cbn [join]. rewrite !sapp_assoc. reflexivity.
    + unfold joined_before. rewrite (join_cons b (b' :: before)).
      unfold joined_after. rewrite !sapp_assoc. reflexivity.
Qed.

Lemma has_keyword_blank : forall j,
  has_keyword j = false -> has_keyword (j +:+ " ") = false.
Proof.
  induction j as [|c j IH]; intros H; [reflexivity|].
  rewrite has_keyword_unfold in H.
  destruct (kw_at (String c j)) eqn:Hat; [discriminate|].
  rewrite has_keyword_unfold.
  rewrite (kw_at_sepc " " (String c j) EmptyString) by reflexivity.
  rewrite Hat. cbn [option_map]. rewrite sapp_cons. apply IH, H.
Qed.

Lemma ends_blank_blank : forall j, ends_blank (j +:+ " ") = true.
Proof.
  induction j as [|c j IH]; [reflexivity|].
  rewrite sapp_cons. destruct j as [|c' j]; [reflexivity|].
  rewrite sapp_cons in *. exact IH.
Qed.

Lemma joined_before_clean before :
  has_keyword (join " " before) = false ->
  has_keyword (joined_before before) = false /\ ends_blank (joined_before before) = true.
Proof.
  intros H. destruct before as [|b before]; [split; reflexivity|].
  unfold joined_before. split; [apply has_keyword_blank, H|apply ends_blank_blank].
Qed.

Lemma joined_after_stops after : stops (joined_after after) = true.
Proof. destruct after; reflexivity. Qed.

(** The tokens after a value are masked on their own. *)
Lemma mask_joined_after after :
  mask_text (joined_after after) =
    match after with
    | [] => EmptyString
    | _ => " " +:+ _mask_cmd (CmdList after)
    end.
Proof.
  destruct after as [|a after]; [reflexivity|].
  unfold joined_after, _mask_cmd, join_cmd.
  apply (mask_text_clean_prefix " "); reflexivity.
Qed.

(** X23: a token [key=value] whose key holds [secret] or [password], in
    any letter case, is displayed with six stars for the value and the key
    kept, when the tokens before it hold no keyword; the tokens after it
    are masked on their own.  The key holds no blank and no equals sign;
    the value holds no blank and does not start with a quote. *)
Theorem mask_cmd_masks_key_value before k v after :
  has_keyword (join " " before) = false ->
  has_keyword k = true -> key_text k = true ->
  all_nonspace v = true -> unquoted v = true ->
  _mask_cmd (CmdList (before ++ (k +:+ "=" +:+ v) :: after)) =
    joined_before before +:+ k +:+ "=******" +:+
    match after with
    | [] => EmptyString
    | _ => " " +:+ _mask_cmd (CmdList after)
    end.
Proof.
  intros Hb Hkw Hk Hv Hu.
  destruct (joined_before_clean before Hb) as [Hb1 Hb2].
  unfold _mask_cmd at 1. cbn [join_cmd]. rewrite join_around.
  rewrite (mask_text_clean_prefix _ _ Hb1 Hb2).
  replace ((k +:+ "=" +:+ v) +:+ joined_after after)
    with (k +:+ String "=" (v +:+ joined_after after))
    by (rewrite !sapp_assoc; reflexivity).
  rewrite (mask_text_key_value k "=" v (joined_after after) Hkw Hk eq_refl
             (or_introl eq_refl) Hv Hu (joined_after_stops after)).
  rewrite mask_joined_after. reflexivity.
Qed.

Lemma mask_cmd_masks_key_value_witness :
  _mask_cmd (CmdList (["spark-submit"; "--conf"] ++
                      ("HivePassword" +:+ "=" +:+ "abc123") :: ["app.py"; "--date"])) =
    joined_before ["spark-submit"; "--conf"] +:+ "HivePassword" +:+ "=******" +:+
    " " +:+ _mask_cmd (CmdList ["app.py"; "--date"]).
Proof.
  apply (mask_cmd_masks_key_value ["spark-submit"; "--conf"] "HivePassword"
           "abc123" ["app.py"; "--date"]); reflexivity.
Defined.

(** X24: a token that holds [secret] or [password], in any letter case,
    makes the token after it the value: it is displayed as six stars,
    when the tokens before hold no keyword; the tokens after the value
    are masked on their own.  The key holds no blank and no equals sign;
    the value is not empty, holds no blank and does not start with a
    quote. *)
Theorem mask_cmd_masks_next_token before k v after :
  has_keyword (join " " before) = false ->
  has_keyword k = true -> key_text k = true ->
  v <> EmptyString -> all_nonspace v = true -> unquoted v = true ->
  _mask_cmd (CmdList (before ++ k :: v :: after)) =
    joined_before before +:+ k +:+ " ******" +:+
    match after with
    | [] => EmptyString
    | _ => " " +:+ _mask_cmd (CmdList after)
    end.
Proof.
  intros Hb Hkw Hk Hne Hv Hu.
  destruct (joined_before_clean before Hb) as [Hb1 Hb2].
  unfold _mask_cmd at 1. cbn [join_cmd]. rewrite join_around.
  rewrite (mask_text_clean_prefix _ _ Hb1 Hb2).
  replace (k +:+ joined_after (v :: after))
    with (k +:+ String " " (v +:+ joined_after after))
    by (unfold joined_after at 2; rewrite join_cons; reflexivity).
  rewrite (mask_text_key_value k " " v (joined_after after) Hkw Hk eq_refl
             (or_intror Hne) Hv Hu (joined_after_stops after)).
  rewrite mask_joined_after. reflexivity.
Qed.

Lemma mask_cmd_masks_next_token_witness :
  _mask_cmd (CmdList (["app.py"] ++ "--db-password" :: "hunter2" :: ["--verbose"])) =
    joined_before ["app.py"] +:+ "--db-password" +:+ " ******" +:+
    " " +:+ _mask_cmd (CmdList ["--verbose"]).
Proof.
  apply (mask_cmd_masks_next_token ["app.py"] "--db-password" "hunter2" ["--verbose"]);
    try reflexivity.
  discriminate.
Defined.

(** *** A masked command line *)

(** X25: the displayed command line holds nothing the masking would
    change: run on it again, the substitution returns it as it is, and so
    does [_mask_cmd] on the list that holds it as its one token. *)
Theorem masked_command_is_a_fixed_point connection_cmd :
  mask_text (_mask_cmd connection_cmd) = _mask_cmd connection_cmd /\
  _mask_cmd (CmdList [_mask_cmd connection_cmd]) = _mask_cmd connection_cmd.
Proof.
  assert (H : mask_text (_mask_cmd connection_cmd) = _mask_cmd connection_cmd)
    by (unfold _mask_cmd; apply mask_text_idempotent).
  split; [exact H|]. unfold _mask_cmd at 1. cbn [join_cmd join]. exact H.
Qed.

End Masking.

(** ** Tracking: what the polling loop touches *)

Section TrackingFrame.

Import PyStr Spark Specs Fixtures Terms.

Lemma only_driver_status_refl h : only_driver_status h h.
Proof. unfold only_driver_status. destruct h; reflexivity. Qed.

Lemma only_driver_status_set h h' v :
  only_driver_status h h' -> only_driver_status h (set_driver_status v h').
Proof.
  unfold only_driver_status. intros H. rewrite H. destruct h; reflexivity.
Qed.

Lemma only_driver_status_trans h h1 h2 :
  only_driver_status h h1 -> only_driver_status h1 h2 -> only_driver_status h h2.
Proof.
  unfold only_driver_status. intros H1 H2. rewrite H2, H1.
  destruct h; reflexivity.
Qed.

Lemma moves_refl P st : moves P st st.
Proof.
  split; [apply only_driver_status_refl|].
  exists []. rewrite app_nil_r. split; [reflexivity|constructor].
Qed.

Lemma moves_trans P st1 st2 st3 :
  moves P st1 st2 -> moves P st2 st3 -> moves P st1 st3.
Proof.
  intros (H1 & t1 & E1 & F1) (H2 & t2 & E2 & F2). split.
  - eapply only_driver_status_trans; eauto.
  - exists (t1 ++ t2)%list. rewrite E2, E1, app_assoc.
    split; [reflexivity|]. apply Forall_app. split; assumption.
Qed.

Lemma moves_weaken (P Q : event -> bool) st st' :
  (forall e, P e = true -> Q e = true) -> moves P st st' -> moves Q st st'.
Proof.
  intros HPQ (H1 & t1 & E1 & F1). split; [exact H1|].
  exists t1. split; [exact E1|]. eapply Forall_impl; [exact F1|exact HPQ].
Qed.

Lemma moves_emit P e h tr :
  P e = true ->
  moves P {| self := h; trace := tr |} {| self := h; trace := (tr ++ [e])%list |}.
Proof.
  intros HP. split; [apply only_driver_status_refl|].
  exists [e]. split; [reflexivity|]. repeat constructor. exact HP.
Qed.

Lemma moves_set P v h tr :
  moves P {| self := h; trace := tr |}
          {| self := set_driver_status v h; trace := tr |}.
Proof.
  split; [apply only_driver_status_set, only_driver_status_refl|].
  exists []. cbn [trace]. rewrite app_nil_r. split; [reflexivity|constructor].
Qed.

(** The classifier of the status response changes the driver status and
    writes to the log, nothing else. *)
Lemma status_line_moves raw flags st r st' :
  status_line raw flags st = (r, st') -> moves is_log st st'.
Proof.
  destruct st as [h tr]. unfold status_line. rewrite bind_eq.
  destruct (contains "driverState" (strip raw)).
  - destruct (parse_driver_state (strip raw)) as [status|].
    + rewrite bind_eq. unfold update, ret, emit. rewrite bind_eq.
      intros H. inversion H; subst; clear H.
      eapply moves_trans; [apply (moves_set is_log (Some status))|].
      apply (moves_emit is_log). reflexivity.
    + unfold raise. intros H. inversion H; subst. apply moves_refl.
  - unfold ret, emit. rewrite bind_eq.
    intros H. inversion H; subst; clear H.
    apply (moves_emit is_log). reflexivity.
Qed.

Lemma status_lines_moves itr : forall flags st r st',
  status_lines itr flags st = (r, st') -> moves is_log st st'.
Proof.
  induction itr as [|raw rest IH]; intros flags st r st'; cbn [status_lines].
  - unfold ret. intros H. inversion H; subst. apply moves_refl.
  - rewrite bind_eq.
    destruct (status_line raw flags st) as [[f|e|] st1] eqn:Hl;
      apply status_line_moves in Hl; intros H.
    + eapply moves_trans; [exact Hl|]. eapply IH, H.
    + inversion H; subst. exact Hl.
    + inversion H; subst. exact Hl.
Qed.

Lemma status_log_moves itr st r st' :
  _process_spark_status_log itr st = (r, st') -> moves is_log st st'.
Proof.
  unfold _process_spark_status_log. rewrite bind_eq.
  destruct (status_lines itr (false, false) st) as [[f|e|] st1] eqn:Hl;
    apply status_lines_moves in Hl; intros H.
  - unfold when, update, ret in H.
    destruct (snd f && negb (fst f)); inversion H; subst; clear H.
    + eapply moves_trans; [exact Hl|]. destruct st1. apply moves_set.
    + exact Hl.
  - inversion H; subst. exact Hl.
  - inversion H; subst. exact Hl.
Qed.

(** The builder of the status command reads the hook and changes
    nothing; what it returns does not depend on the driver status. *)
Lemma build_track_state st r st1 :
  _build_track_driver_status_command st = (r, st1) -> st1 = st.
Proof.
  unfold _build_track_driver_status_command. rewrite bind_eq. unfold get_self.
  destruct (endswith ":6066" (master (_connection (self st))));
    [destruct (negb (truthy (_driver_id (self st))))
    |destruct (truthy (_driver_id (self st)))];
    unfold raise, ret; intros H; inversion H; reflexivity.
Qed.

Lemma build_track_of_hook h st :
  only_driver_status h (self st) ->
  fst (_build_track_driver_status_command st) =
    fst (run _build_track_driver_status_command h).
Proof.
  unfold only_driver_status, run, start. intros H.
  unfold _build_track_driver_status_command, _get_spark_binary_path.
  rewrite !bind_eq. unfold get_self. cbn [self].
  rewrite H. cbn [set_driver_status _connection _driver_id].
  destruct (endswith ":6066" (master (_connection h)));
    [destruct (negb (truthy (_driver_id h)))|destruct (truthy (_driver_id h))];
    reflexivity.
Qed.

Lemma popen_result cmd env child st r st' :
  popen cmd env child st = (r, st') ->
  st' = st \/
  exists tokens,
    all_tokens cmd = Some tokens /\
    st' = {| self := self st; trace := (trace st ++ [EvPopen tokens env])%list |}.
Proof.
  unfold popen. destruct (all_tokens cmd) as [tokens|].
  - destruct child as [out rc|].
    + rewrite bind_eq. unfold emit, ret. intros H. inversion H; subst.
      right. exists tokens. split; reflexivity.
    + unfold raise. intros H. inversion H; subst. left. reflexivity.
  - unfold raise. intros H. inversion H; subst. left. reflexivity.
Qed.

Lemma log_is_tracking h e : is_log e = true -> tracking_event h e = true.
Proof. destruct e; cbn; intros H; congruence. Qed.

(** The loop, from any state whose hook is [h] with another driver
    status. *)
Lemma poll_loop_moves h polls : forall missed st r st',
  only_driver_status h (self st) ->
  poll_loop polls missed st = (r, st') ->
  moves (tracking_event h) st st'.
Proof.
  induction polls as [|child rest IH]; intros missed [h0 tr0] r st' Hh;
    cbn [self] in Hh;
    cbn [poll_loop]; rewrite bind_eq; unfold get_self; cbn [self trace];
    destruct (is_terminal (_driver_status h0));
    try (unfold ret, pending; intros H; inversion H; subst; apply moves_refl).
  rewrite bind_eq. unfold emit. cbn [self trace].
  set (st := {| self := h0; trace := tr0 |}).
  set (st0 := {| self := h0;
                 trace := (tr0 ++ [EvSleep (_status_poll_interval (args h0))])%list |}).
  assert (H0 : moves (tracking_event h) st st0).
  { apply moves_emit. cbn [tracking_event]. apply bool_decide_eq_true_2.
    rewrite Hh. reflexivity. }
  assert (Hh0 : only_driver_status h (self st0)) by exact Hh.
  rewrite bind_eq.
  destruct (_build_track_driver_status_command st0) as [[cmd|e|] st1] eqn:Hb;
    pose proof (build_track_state _ _ _ Hb) as ->;
    try (intros H; inversion H; subst; exact H0).
  assert (Hcmd : fst (run _build_track_driver_status_command h) = Ok cmd)
    by (rewrite <- (build_track_of_hook h st0 Hh0), Hb; reflexivity).
  rewrite bind_eq.
  destruct (popen cmd None child st0) as [[res|e|] st2] eqn:Hp.
  - assert (H2 : moves (tracking_event h) st0 st2).
    { destruct (popen_result _ _ _ _ _ _ Hp) as [->|(tokens & Ht & ->)];
        [apply moves_refl|].
      apply moves_emit. cbn [tracking_event]. rewrite Hcmd, Ht.
      rewrite !bool_decide_eq_true_2 by reflexivity. reflexivity. }
    rewrite bind_eq.
    destruct (_process_spark_status_log (fst res) st2) as [[[]|e|] st3] eqn:Hs;
      apply status_log_moves in Hs;
      apply (moves_weaken is_log (tracking_event h) _ _ (log_is_tracking h)) in Hs;
      pose proof (moves_trans _ _ _ _ H0 (moves_trans _ _ _ _ H2 Hs)) as H3;
      try (intros H; inversion H; subst; exact H3).
    assert (Hh3 : only_driver_status h (self st3))
      by (eapply only_driver_status_trans; [exact Hh|exact (proj1 H3)]).
    destruct (negb (snd res =? 0));
      [destruct (missed <? max_missed_job_status_reports)|];
      intros H;
      try (eapply moves_trans; [exact H3|]; eapply IH; [exact Hh3|exact H]).
    unfold raise in H. inversion H; subst. exact H3.
  - intros H. inversion H; subst.
    destruct (popen_result _ _ _ _ _ _ Hp) as [->|(tokens & Ht & ->)];
      [exact H0|].
    eapply moves_trans; [exact H0|].
    apply moves_emit. cbn [tracking_event]. rewrite Hcmd, Ht.
    rewrite !bool_decide_eq_true_2 by reflexivity. reflexivity.
  - intros H. inversion H; subst.
    destruct (popen_result _ _ _ _ _ _ Hp) as [->|(tokens & Ht & ->)];
      [exact H0|].
    eapply moves_trans; [exact H0|].
    apply moves_emit. cbn [tracking_event]. rewrite Hcmd, Ht.
    rewrite !bool_decide_eq_true_2 by reflexivity. reflexivity.
Qed.

(** X26: whatever the status processes answer and however it ends,
    [_start_driver_status_tracking] assigns no attribute of the hook
    other than the driver status, and on the outside it only writes to
    the log, sleeps for the poll interval of the hook and starts the
    status command of the hook, the same at every poll, without an
    environment. *)
Theorem tracking_touches_only_driver_status polls h :
  self (snd (run (_start_driver_status_tracking polls) h)) =
    set_driver_status
      (_driver_status (self (snd (run (_start_driver_status_tracking polls) h))))
      h /\
  Forall (fun e => tracking_event h e = true)
         (trace (snd (run (_start_driver_status_tracking polls) h))).
Proof.
  unfold run, _start_driver_status_tracking.
  destruct (poll_loop polls 0 (start h)) as [r st'] eqn:E. cbn [snd].
  destruct (poll_loop_moves h polls 0 (start h) r st'
              (only_driver_status_refl h) E) as (Hs & tr & Ht & Hf).
  split; [exact Hs|]. rewrite Ht. exact Hf.
Qed.

End TrackingFrame.

(** ** Command masking: idempotent, and for display only *)

Section Display.

Import PyStr Re Spark Specs Fixtures Terms.

Ltac unfold_m :=
  unfold bind, get_self, update, emit, ret, raise, pending, when in *; simpl in *.

Ltac break_search :=
  repeat match goal with
         | |- context [Re.search ?a ?b ?c] => destruct (Re.search a b c) eqn:?
         | |- context [if ?b then _ else _] =>
             lazymatch type of b with bool => destruct b eqn:? end
         end.






End Display.
